(** * datamaster: line reconstruction, record assembly and aggregation

    A shallow embedding of [app/engine_datamaster.py] and of the
    aggregation helpers of [app/excel_datamaster.py].

    Text is modelled as [string] (a list of 8-bit characters); the
    embedding follows Python's behaviour on ASCII text: [\s], [\d], [\w],
    [str.split], [str.strip] and [str.upper] are the ASCII restrictions
    of the Unicode-aware originals.  Regular expressions are kept as
    syntax trees and run by a backtracking matcher with Python's
    priorities (leftmost start, greedy repetition, ordered alternation). *)

From Stdlib Require Import Bool Arith ZArith Lia List Ascii String.
From Stdlib Require Import DecimalString.
From Stdlib Require Import Sorting.Permutation Sorting.Sorted.
Import ListNotations.
Local Open Scope string_scope.
Local Open Scope list_scope.
Local Open Scope nat_scope.

Set Implicit Arguments.

(* ================================================================== *)
(** * Characters and Python string primitives *)
(* ================================================================== *)

Module Py.

Definition code (a : ascii) : nat := nat_of_ascii a.

Definition between (lo hi : nat) (a : ascii) : bool :=
  (lo <=? code a) && (code a <=? hi).

Definition is_digit (a : ascii) : bool := between 48 57 a.
Definition is_upper (a : ascii) : bool := between 65 90 a.
Definition is_lower (a : ascii) : bool := between 97 122 a.
Definition is_alpha (a : ascii) : bool := is_upper a || is_lower a.

(** [\w] on ASCII: letters, digits and the underscore. *)
Definition is_word (a : ascii) : bool :=
  is_alpha a || is_digit a || (code a =? 95).

(** Python's whitespace on ASCII: TAB, LF, VT, FF, CR, the four
    separators 0x1c-0x1f and the space. *)
Definition is_space (a : ascii) : bool :=
  between 9 13 a || between 28 32 a.

Definition upper_char (a : ascii) : ascii :=
  if is_lower a then ascii_of_nat (code a - 32) else a.

Definition chr_is (c a : ascii) : bool := Ascii.eqb a c.

(** [c in chars] for a character. *)
Fixpoint one_of (chars : string) (a : ascii) : bool :=
  match chars with
  | EmptyString => false
  | String c cs => Ascii.eqb a c || one_of cs a
  end.

(** [s.upper()] *)
Fixpoint upper (s : string) : string :=
  match s with
  | EmptyString => EmptyString
  | String a s' => String (upper_char a) (upper s')
  end.

(** [s.lstrip()] *)
Fixpoint lstrip (s : string) : string :=
  match s with
  | EmptyString => EmptyString
  | String a s' => if is_space a then lstrip s' else s
  end.

Definition is_empty (s : string) : bool :=
  match s with EmptyString => true | _ => false end.

(** [s.rstrip()] *)
Fixpoint rstrip (s : string) : string :=
  match s with
  | EmptyString => EmptyString
  | String a s' =>
      let t := rstrip s' in
      if is_space a && is_empty t then EmptyString else String a t
  end.

(** [s.strip()] *)
Definition strip (s : string) : string := rstrip (lstrip s).

(** [s[:n]] and [s[n:]] for [n >= 0]. *)
Fixpoint take (n : nat) (s : string) : string :=
  match n, s with
  | S n', String a s' => String a (take n' s')
  | _, _ => EmptyString
  end.

Fixpoint drop (n : nat) (s : string) : string :=
  match n, s with
  | S n', String _ s' => drop n' s'
  | _, _ => s
  end.

(** [s[a:b]] for [0 <= a], [0 <= b]. *)
Definition slice (a b : nat) (s : string) : string := take (b - a) (drop a s).

(** [s.startswith(p)] *)
Fixpoint startswith (p s : string) : bool :=
  match p, s with
  | EmptyString, _ => true
  | String a p', String b s' => Ascii.eqb a b && startswith p' s'
  | String _ _, EmptyString => false
  end.

(** [sub in s] *)
Fixpoint contains (sub s : string) : bool :=
  startswith sub s ||
  match s with
  | EmptyString => false
  | String _ s' => contains sub s'
  end.

(** [s.split()]: maximal runs of non-whitespace characters. *)
Fixpoint split (s : string) : list string :=
  match s with
  | EmptyString => []
  | String a s' =>
      if is_space a then split s'
      else
        match s' with
        | EmptyString => [String a EmptyString]
        | String b _ =>
            if is_space b then String a EmptyString :: split s'
            else
              match split s' with
              | t :: ts => String a t :: ts
              | [] => [String a EmptyString]
              end
        end
  end.

(** [s.split(sep)] for a one-character separator. *)
Fixpoint split_on (sep : ascii) (s : string) : list string :=
  match s with
  | EmptyString => [EmptyString]
  | String a s' =>
      if Ascii.eqb a sep then EmptyString :: split_on sep s'
      else
        match split_on sep s' with
        | t :: ts => String a t :: ts
        | [] => [String a EmptyString]
        end
  end.

(** [s.replace(c, r)] for a one-character [c]. *)
Fixpoint replace_char (c : ascii) (r : string) (s : string) : string :=
  match s with
  | EmptyString => EmptyString
  | String a s' =>
      if Ascii.eqb a c then (r ++ replace_char c r s')%string
      else String a (replace_char c r s')
  end.

(** [" ".join(l)] *)
Definition join (l : list string) : string := String.concat " " l.

(** [x in l] for a list (or tuple, or set) of strings. *)
Definition mem (x : string) (l : list string) : bool :=
  existsb (String.eqb x) l.

(** [l.index(x)]: [None] stands for the [ValueError] Python raises. *)
Fixpoint index (x : string) (l : list string) : option nat :=
  match l with
  | [] => None
  | y :: l' =>
      if String.eqb y x then Some 0
      else match index x l' with
           | Some i => Some (S i)
           | None => None
           end
  end.

(** [l[a:]], [l[:b]] and [l[-n:]] on lists. *)
Definition last_n {A} (n : nat) (l : list A) : list A :=
  skipn (List.length l - n) l.

(** Value of a string of decimal digits, as [int] computes it. *)
Definition digit_val (a : ascii) : Z := Z.of_nat (code a - 48).

Fixpoint int_of_digits_acc (acc : Z) (s : string) : Z :=
  match s with
  | EmptyString => acc
  | String a s' => int_of_digits_acc (10 * acc + digit_val a) s'
  end.

Definition int_of_digits (s : string) : Z := int_of_digits_acc 0 s.

End Py.

(* ================================================================== *)
(** * Regular expressions with Python's matching priorities *)
(* ================================================================== *)

Module Re.

Inductive regex : Type :=
| Eps : regex
| Chr : (ascii -> bool) -> regex          (* one character of a class *)
| Cat : regex -> regex -> regex
| Alt : regex -> regex -> regex           (* ordered: left first *)
| Rep : regex -> nat -> option nat -> regex  (* greedy r{lo,hi} *)
| Bol : regex                             (* ^ *)
| Eol : regex                             (* $ *)
| Wb : regex                              (* \b *)
| Ahead : regex -> regex.                 (* (?=r) *)

(** A cursor is the offset, the character just before it (if any) and
    the text that remains. *)
Definition cont := nat -> option ascii -> string -> option nat.

Definition word_before (p : option ascii) : bool :=
  match p with Some a => Py.is_word a | None => false end.

Definition word_after (s : string) : bool :=
  match s with String a _ => Py.is_word a | EmptyString => false end.

Definition at_eol (s : string) : bool :=
  match s with
  | EmptyString => true
  | String a EmptyString => Py.chr_is "010"%char a
  | _ => false
  end.

Definition may_repeat (hi : option nat) (n : nat) : bool :=
  match hi with Some h => n <? h | None => true end.

(** [rmatch r i p s k]: match [r] at the cursor, then continue with [k];
    the first success in priority order is returned.  An iteration of a
    repetition must consume text, which all patterns below do. *)
Fixpoint rmatch (r : regex) (i : nat) (p : option ascii) (s : string)
         (k : cont) {struct r} : option nat :=
  match r with
  | Eps => k i p s
  | Chr f =>
      match s with
      | String a s' => if f a then k (S i) (Some a) s' else None
      | EmptyString => None
      end
  | Cat r1 r2 => rmatch r1 i p s (fun i' p' s' => rmatch r2 i' p' s' k)
  | Alt r1 r2 =>
      match rmatch r1 i p s k with
      | Some e => Some e
      | None => rmatch r2 i p s k
      end
  | Rep r1 lo hi =>
      (fix iter (fuel n i : nat) (p : option ascii) (s : string)
           {struct fuel} : option nat :=
         let stop := if lo <=? n then k i p s else None in
         match fuel with
         | O => stop
         | S fuel' =>
             if may_repeat hi n then
               match rmatch r1 i p s
                       (fun i' p' s' =>
                          if i <? i' then iter fuel' (S n) i' p' s'
                          else None) with
               | Some e => Some e
               | None => stop
               end
             else stop
         end) (String.length s) 0 i p s
  | Bol => if i =? 0 then k i p s else None
  | Eol => if at_eol s then k i p s else None
  | Wb => if xorb (word_before p) (word_after s) then k i p s else None
  | Ahead r1 =>
      match rmatch r1 i p s (fun i' _ _ => Some i') with
      | Some _ => k i p s
      | None => None
      end
  end.

Definition accept : cont := fun i _ _ => Some i.

(** End offset of a match starting exactly at the cursor. *)
Definition match_here (r : regex) (i : nat) (p : option ascii) (s : string)
  : option nat := rmatch r i p s accept.

(** [re.match(r, s)]: the end offset of a match at offset 0. *)
Definition match_start (r : regex) (s : string) : option nat :=
  match_here r 0 None s.

(** [re.fullmatch(r, s)] *)
Definition fullmatch (r : regex) (s : string) : bool :=
  match rmatch r 0 None s
          (fun i _ s' => if Py.is_empty s' then Some i else None) with
  | Some _ => true
  | None => false
  end.

(** Leftmost match at or after the cursor: [(start, end)]. *)
Fixpoint search_from (r : regex) (i : nat) (p : option ascii) (s : string)
  : option (nat * nat) :=
  match match_here r i p s with
  | Some e => Some (i, e)
  | None =>
      match s with
      | EmptyString => None
      | String a s' => search_from r (S i) (Some a) s'
      end
  end.

(** [re.search(r, s)] as a span. *)
Definition search (r : regex) (s : string) : option (nat * nat) :=
  search_from r 0 None s.

Definition found (r : regex) (s : string) : bool :=
  match search r s with Some _ => true | None => false end.

(** Move the cursor forward by [n] characters. *)
Fixpoint advance (n i : nat) (p : option ascii) (s : string)
  : nat * option ascii * string :=
  match n, s with
  | S n', String a s' => advance n' (S i) (Some a) s'
  | _, _ => (i, p, s)
  end.

(** [re.finditer(r, s)]: the spans of the successive non-overlapping
    matches.  After a match the scan resumes at its end (one character
    further after an empty match). *)
Fixpoint spans_from (fuel : nat) (r : regex) (i : nat) (p : option ascii)
         (s : string) : list (nat * nat) :=
  match fuel with
  | O => []
  | S fuel' =>
      match search_from r i p s with
      | None => []
      | Some (a, e) =>
          let '(j, q, t) := advance (e - i) i p s in
          let '(j', q', t') :=
            if a <? e then (j, q, t) else advance 1 j q t in
          (a, e) :: (if Py.is_empty t && (e <=? a) then []
                     else spans_from fuel' r j' q' t')
      end
  end.

Definition finditer (r : regex) (s : string) : list (nat * nat) :=
  spans_from (S (String.length s)) r 0 None s.

(** [re.findall(r, s)] for a pattern whose only group is the whole
    match. *)
Definition findall (r : regex) (s : string) : list string :=
  map (fun ae => Py.slice (fst ae) (snd ae) s) (finditer r s).

(** [re.sub(r, repl, s)] for a literal replacement. *)
Fixpoint sub_spans (spans : list (nat * nat)) (repl : string) (from : nat)
         (s : string) : string :=
  match spans with
  | [] => Py.drop from s
  | (a, e) :: rest =>
      (Py.slice from a s ++ repl ++ sub_spans rest repl e s)%string
  end.

Definition sub (r : regex) (repl : string) (s : string) : string :=
  sub_spans (finditer r s) repl 0 s.

(** [re.split(r, s)] for a pattern without groups. *)
Fixpoint split_spans (spans : list (nat * nat)) (from : nat) (s : string)
  : list string :=
  match spans with
  | [] => [Py.drop from s]
  | (a, e) :: rest => Py.slice from a s :: split_spans rest e s
  end.

Definition split (r : regex) (s : string) : list string :=
  split_spans (finditer r s) 0 s.

(** [r.split(s)[0]]: the text before the first match (all of [s] when
    there is none), also for a pattern with groups. *)
Definition split_head (r : regex) (s : string) : string :=
  match search r s with
  | Some (a, _) => Py.take a s
  | None => s
  end.

(** ** Pattern building blocks *)

Definition digit : regex := Chr Py.is_digit.
Definition space : regex := Chr Py.is_space.
Definition chr (c : ascii) : regex := Chr (Py.chr_is c).
Definition star (r : regex) : regex := Rep r 0 None.
Definition plus (r : regex) : regex := Rep r 1 None.
Definition opt (r : regex) : regex := Rep r 0 (Some 1).
Definition times (n : nat) (r : regex) : regex := Rep r n (Some n).
Definition at_least (n : nat) (r : regex) : regex := Rep r n None.
Definition range (lo hi : nat) (r : regex) : regex := Rep r lo (Some hi).

Fixpoint seq (rs : list regex) : regex :=
  match rs with
  | [] => Eps
  | [r] => r
  | r :: rs' => Cat r (seq rs')
  end.

Fixpoint alts (rs : list regex) : regex :=
  match rs with
  | [] => Chr (fun _ => false)
  | [r] => r
  | r :: rs' => Alt r (alts rs')
  end.

(** A literal, and a literal under [re.IGNORECASE]. *)
Fixpoint lit (w : string) : regex :=
  match w with
  | EmptyString => Eps
  | String c EmptyString => chr c
  | String c w' => Cat (chr c) (lit w')
  end.

Definition chr_nocase (c : ascii) : regex :=
  Chr (fun a => Ascii.eqb (Py.upper_char a) (Py.upper_char c)).

Fixpoint lit_nocase (w : string) : regex :=
  match w with
  | EmptyString => Eps
  | String c EmptyString => chr_nocase c
  | String c w' => Cat (chr_nocase c) (lit_nocase w')
  end.

End Re.

(* ================================================================== *)
(** * The engine: [app/engine_datamaster.py] *)
(* ================================================================== *)

Module Engine.

Import Re.

(** ** Patterns *)

(** [\b(\d{2}-\d{2}-\d{4})\b] *)
Definition DATE_RE : regex :=
  seq [Wb; times 2 digit; chr "-"; times 2 digit; chr "-"; times 4 digit; Wb].

(** [\b(\d{10})\b] *)
Definition ACC_RE : regex := seq [Wb; times 10 digit; Wb].

(** [\((\d{11})\)]; group 1 is the match without its two parentheses. *)
Definition CIF_RE : regex := seq [chr "("; times 11 digit; chr ")"].

(** [^\s*(\d+)\s+] *)
Definition ROWSTART_RE : regex := seq [Bol; star space; plus digit; plus space].

(** [\b\d+\s+[^()]{2,120}\(\d{11}\)] *)
Definition EMBED_BORROWER_RE : regex :=
  seq [Wb; plus digit; plus space;
       range 2 120 (Chr (fun a => negb (Py.one_of "()" a)));
       chr "("; times 11 digit; chr ")"].

Definition CORP_MARKERS : list string :=
  ["PT"; "CV"; "UD"; "PD"; "TB"; "KOPERASI"].

Definition NON_NAME_NOISE : list string :=
  ["IDR"; "USD"; "CNY"; "LOAN"; "INSTALLMENT"].

Definition SECTOR_WORDS : list string :=
  ["PETERNAKAN"; "MAKANAN"; "DISTRIBUSI"; "PROPERTI"; "TELEKOMUNIKASI";
   "OTOMOTIF"; "TRANSPORTASI"; "BAHAN"; "PERKEBUNAN"; "MEDIA"; "JASA";
   "PERTAMBANGAN"; "FARMASI"; "TEKSTIL"; "PRASARANA"; "HASIL"; "INDUSTRI";
   "KEBUTUHAN"; "PERALATAN"; "PACKAGING"; "KONSTRUKSI"; "MIGAS"; "LISTRIK";
   "LOGAM"; "KIMIA"; "PLASTIK"; "KAYU"; "KEHUTANAN"; "RETAILER"; "TOSERBA";
   "ROKOK"; "TEMBAKAU"; "RESTORAN"; "ELEKTRONIK"; "ALAT-ALAT"; "PERMESINAN";
   "ALAT"; "BERAT"; "LOGISTIK"; "PERTANIAN"; "KONSUMEN"; "PERLENGKAPAN";
   "SEJENISNYA"].

(** [\b(PETERNAKAN|...|SEJENISNYA)\b] with [re.IGNORECASE] *)
Definition SECTOR_WORDS_RE : regex :=
  seq [Wb; alts (map lit_nocase SECTOR_WORDS); Wb].

(** [\s+] *)
Definition SPACES_RE : regex := plus space.

(** [^\d{4,6}\s*-\s*[A-Z][A-Z .'/,-]{2,}$] *)
Definition AO_HEADER_RE : regex :=
  seq [Bol; range 4 6 digit; star space; chr "-"; star space;
       Chr Py.is_upper;
       at_least 2 (Chr (fun a => Py.is_upper a || Py.one_of " .'/,-" a));
       Eol].

(** [^\d{4,6}\s*-\s*[A-Z]] *)
Definition AO_HEADER_GUARD_RE : regex :=
  seq [Bol; range 4 6 digit; star space; chr "-"; star space;
       Chr Py.is_upper].

(** [\s*-\s*[A-Za-z][A-Za-z .,'/-]{2,}(?=\s*\(\d{11}\))] *)
Definition AO_BEFORE_CIF_RE : regex :=
  seq [star space; chr "-"; star space;
       Chr Py.is_alpha;
       at_least 2 (Chr (fun a => Py.is_alpha a || Py.one_of " .,'/-" a));
       Ahead (seq [star space; chr "("; times 11 digit; chr ")"])].

(** [SME[\s_\-]*([A-Z]{3})]; group 1 is the last three characters. *)
Definition CABANG_RE : regex :=
  seq [lit "SME";
       star (Chr (fun a => Py.is_space a || Py.one_of "_-" a));
       times 3 (Chr Py.is_upper)].

(** [^\s*-\s+] *)
Definition LEADING_DASH_RE : regex :=
  seq [Bol; star space; chr "-"; plus space].

(** [^\s*-\s*] *)
Definition NAMA_DASH_RE : regex :=
  seq [Bol; star space; chr "-"; star space].

(** [^(MILIK(I)?)(\s*:\s*|\s+)+] with [re.IGNORECASE] *)
Definition MILIK_RE : regex :=
  seq [Bol; lit_nocase "MILIK"; opt (chr_nocase "I");
       plus (Alt (seq [star space; chr ":"; star space]) (plus space))].

(** [[^\w/&\-.']] *)
Definition NON_NAME_CHAR_RE : regex :=
  Chr (fun a => negb (Py.is_word a || Py.one_of "/&-.'" a)).

(** [\bLC\b] and its siblings *)
Definition word_re (w : string) : regex := seq [Wb; lit w; Wb].

(** [\b(IDR|USD|CNY)\b] *)
Definition CURRENCY_RE : regex :=
  seq [Wb; alts [lit "IDR"; lit "USD"; lit "CNY"]; Wb].

(** [[A-Za-z]] and [[\d,.-]+] and [\d+] *)
Definition ALPHA_RE : regex := Chr Py.is_alpha.
Definition NUMERIC_TOKEN_RE : regex :=
  plus (Chr (fun a => Py.is_digit a || Py.one_of ",.-" a)).
Definition DIGITS_RE : regex := plus digit.

Definition CURRENCIES : list string := ["IDR"; "USD"; "CNY"].

(** ** Helpers *)

Definition nonempty (s : string) : bool := negb (Py.is_empty s).

(** [re.sub(r"\s+", " ", (s or "")).strip()] *)
Definition _clean (s : string) : string := Py.strip (sub SPACES_RE " " s).

Definition NOISE_PREFIXES : list string :=
  ["LAPORAN JATUH TEMPO"; "CABANG"; "DATA PER"; "KODE AO"; "NO NAMA";
   "MIS;"; "HAL :"].

Definition _is_noise (line : string) : bool :=
  if Py.is_empty line then true
  else
    let u := Py.strip line in
    if existsb (fun p => Py.startswith p (Py.upper u)) NOISE_PREFIXES then true
    else
      match match_start AO_HEADER_RE (Py.upper u) with
      | Some _ => true
      | None => false
      end.

(** [pdf_path.name] is the argument. *)
Definition cabang_from_filename (file_name : string) : string :=
  let name := Py.upper file_name in
  match search CABANG_RE name with
  | Some (_, e) => Py.slice (e - 3) e name
  | None => EmptyString
  end.

(** [sys.int_info.default_max_str_digits]: [int(t)] raises [ValueError]
    for a text of more digits (leading zeros count). *)
Definition INT_MAX_STR_DIGITS : nat := 4300.

(** [try: return int(t) except Exception: return None]: the value of
    the digits, and nothing for a text over the interpreter's limit. *)
Definition _parse_amount_token (tok : option string) : option Z :=
  match tok with
  | None => None
  | Some tok =>
      if Py.is_empty tok then None
      else
        let t := Py.strip (Py.replace_char "," EmptyString tok) in
        if Py.is_empty t then None
        else if negb (fullmatch DIGITS_RE t) then None
        else if INT_MAX_STR_DIGITS <? String.length t then None
        else Some (Py.int_of_digits t)
  end.

Definition normalize_fasilitas (f : string) : string :=
  let s := Py.upper (_clean f) in
  let s := Py.strip (sub SPACES_RE " " s) in
  if Py.contains "LETTER OF CREDIT" s || Py.contains "L/C" s
     || found (word_re "LC") s then "L/C"
  else if Py.contains "TRUST RECEIPT" s || found (word_re "TR") s
  then "TRUST RECEIPT"
  else if Py.contains "KREDIT MULTI" s || Py.contains "MULTI FASILITAS" s
  then "KREDIT MULTI FASILITAS"
  else if Py.contains "TIME LOAN" s || found (word_re "TL") s
  then "TIME LOAN"
  else if Py.contains "KREDIT LOKAL" s || found (word_re "KL") s
  then "KREDIT LOKAL"
  else if Py.contains "BANK GARANSI" s || found (word_re "BG") s
  then "BANK GARANSI"
  else s.

Definition PRIORITY_KEYS : list string :=
  ["BANK GARANSI"; "KREDIT LOKAL"; "TIME LOAN"; "KREDIT MULTI FASILITAS";
   "L/C"; "TRUST RECEIPT"].

Definition is_priority_facility (f : string) : bool :=
  let u := Py.upper f in
  existsb (fun k => Py.contains k u) PRIORITY_KEYS.

(** [enumerate(upp)] scanned for the first ["PT"] or ["CV"]. *)
Fixpoint first_pt_cv (upp : list string) (i : nat) : option nat :=
  match upp with
  | [] => None
  | u :: rest =>
      if Py.mem u ["PT"; "CV"] then Some i else first_pt_cv rest (S i)
  end.

Definition _clean_company_name (tokens : list string) : list string :=
  let upp := map (fun t => Py.upper (sub NON_NAME_CHAR_RE EmptyString t)) tokens in
  match first_pt_cv upp 0 with
  | Some i => firstn (i + 1) tokens
  | None => tokens
  end.

Fixpoint _dedup_from (seen : list string) (tokens : list string)
  : list string :=
  match tokens with
  | [] => []
  | t :: rest =>
      if Py.mem t seen then _dedup_from seen rest
      else t :: _dedup_from (t :: seen) rest
  end.

Definition _dedup (tokens : list string) : list string :=
  _dedup_from [] tokens.

Definition padded (u : string) : string := (" " ++ u ++ " ")%string.

Definition _looks_bad_name (name : string) : bool :=
  if Py.is_empty name then true
  else
    let u := Py.upper name in
    if Py.contains " IDR " (padded u) || Py.contains " USD " (padded u)
       || Py.contains " CNY " (padded u) then true
    else if existsb (fun k => Py.contains k u)
              ["KREDIT"; "BANK GARANSI"; "TIME LOAN"; "TRUST RECEIPT";
               "L/C"; "LETTER OF CREDIT"] then true
    else if found DATE_RE name || found ACC_RE name then true
    else false.

(** The branch of [_derive_name_and_cif] that decides which of the
    candidate tokens are kept: [is_corp] looks the upper-cased tokens up
    in [CORP_MARKERS]; a corporate name goes through
    [_clean_company_name], a personal one is capped at three tokens. *)
Definition is_corp (toks : list string) : bool :=
  existsb (fun t => Py.mem (Py.upper t) CORP_MARKERS) toks.

Definition kept_name_tokens (toks : list string) : list string :=
  if is_corp toks then _clean_company_name toks else firstn 3 toks.

Definition _derive_name_and_cif (line : string) : string * string :=
  let s := _clean line in
  let s := Py.strip (sub LEADING_DASH_RE EmptyString s) in
  match search CIF_RE s with
  | None => (EmptyString, EmptyString)
  | Some (cif_start, cif_end) =>
      let cif := Py.slice (cif_start + 1) (cif_end - 1) s in
      let s2 := Py.strip (sub MILIK_RE EmptyString s) in
      let before_cif := _clean (Py.take cif_start s2) in
      let before_cif := Py.strip (sub ROWSTART_RE EmptyString before_cif) in
      if Py.startswith "-" (Py.lstrip before_cif) then (EmptyString, cif)
      else
        let seg :=
          match search ACC_RE s2 with
          | Some (acc_start, _) =>
              if acc_start <? cif_start then
                let seg :=
                  _clean (match match_start ROWSTART_RE s2 with
                          | Some e => Py.drop e s2
                          | None => s2
                          end) in
                Py.strip (Py.take acc_start seg)
              else before_cif
          | None => before_cif
          end in
        let seg := Py.strip (split_head SECTOR_WORDS_RE seg) in
        let toks := filter nonempty (split SPACES_RE seg) in
        let toks := kept_name_tokens toks in
        let toks := map (sub NON_NAME_CHAR_RE EmptyString) toks in
        let toks :=
          filter (fun t => nonempty t
                           && negb (Py.mem (Py.upper t) NON_NAME_NOISE)) toks in
        let toks := _dedup toks in
        let name := _clean (Py.join toks) in
        if _looks_bad_name name then (EmptyString, cif) else (name, cif)
  end.

(** [sorted(cut_points)] *)
Fixpoint insert_nat (x : nat) (l : list nat) : list nat :=
  match l with
  | [] => [x]
  | y :: l' => if x <=? y then x :: l else y :: insert_nat x l'
  end.

Definition sorted_nat (l : list nat) : list nat :=
  fold_right insert_nat [] l.

(** [zip(pts, pts[1:])] *)
Fixpoint adjacent_pairs (pts : list nat) : list (nat * nat) :=
  match pts with
  | a :: ((b :: _) as rest) => (a, b) :: adjacent_pairs rest
  | _ => []
  end.

(** What one input line contributes to the output of
    [_split_embedded_borrowers]. *)
Definition split_embedded_line (ln : string) : list string :=
  let ln := Py.strip (sub AO_BEFORE_CIF_RE EmptyString ln) in
  let s := _clean ln in
  if Py.is_empty s then []
  else
    match finditer EMBED_BORROWER_RE s with
    | [] => [s]
    | matches =>
        let cut_points :=
          filter (fun a => negb (a =? 0)) (map fst matches) in
        match cut_points with
        | [] => [s]
        | _ =>
            let pts := 0 :: sorted_nat cut_points ++ [String.length s] in
            filter nonempty
              (map (fun ab => _clean (Py.slice (fst ab) (snd ab) s))
                   (adjacent_pairs pts))
        end
    end.

Definition _split_embedded_borrowers (lines : list string) : list string :=
  flat_map split_embedded_line lines.

Definition _looks_like_borrower_stub (x : string) : bool :=
  if Py.is_empty x then false
  else if found ACC_RE x then false
  else if found DATE_RE x then false
  else
    let toks := Py.split (Py.replace_char "/" " " x) in
    let alpha := List.length (filter (found ALPHA_RE) toks) in
    let digit := List.length (filter (fullmatch NUMERIC_TOKEN_RE) toks) in
    (2 <=? alpha) && (digit <=? alpha).

Definition missing_currency (line : string) : bool :=
  negb (Py.contains " IDR " (padded line))
  && negb (Py.contains " USD " (padded line))
  && negb (Py.contains " CNY " (padded line)).

Definition missing_dates (line : string) : bool :=
  List.length (findall DATE_RE line) <? 2.

Definition is_lc (line : string) : bool :=
  let u := Py.upper line in
  Py.contains "L/C" u || Py.contains "LETTER OF CREDIT" u.

(** One iteration of the [while] loop of [_merge_wrapped] at a line that
    is not empty once cleaned: the element appended to [out] and the
    number of input lines consumed ([i += 1], [2] or [3]).  [line], [nxt]
    and [nxt2] are already cleaned; a missing neighbour is the empty
    string. *)
Definition merge_step (line nxt nxt2 : string) : string * nat :=
  let facility_wrap :=
    if found ACC_RE line && negb (is_lc line) then
      if missing_currency line || missing_dates line then
        let comb := _clean (line ++ " " ++ nxt)%string in
        if nonempty nxt2 && (missing_currency comb || missing_dates comb)
        then (_clean (comb ++ " " ++ nxt2)%string, 3)
        else (_clean comb, 2)
      else (_clean line, 1)
    else (_clean line, 1) in
  if negb (found CIF_RE line) && nonempty nxt && found CIF_RE nxt then
    if match match_start ROWSTART_RE line with Some _ => true | None => false end
    then
      if match match_start AO_HEADER_GUARD_RE (Py.upper line) with
         | Some _ => true | None => false end
      then (line, 1)
      else (_clean (line ++ " " ++ nxt)%string, 2)
    else if _looks_like_borrower_stub line
            && (Py.startswith "-" (Py.strip nxt)
                || Py.startswith "(" (Py.strip nxt)
                || found CIF_RE nxt)
    then
      let comb := _clean (line ++ " " ++ nxt)%string in
      let comb := sub AO_BEFORE_CIF_RE EmptyString comb in
      (_clean comb, 2)
    else facility_wrap
  else facility_wrap.

Definition clean_if_any (s : string) : string :=
  if Py.is_empty s then EmptyString else _clean s.

(** The scan of [_merge_wrapped]; [skip] counts the lines that the
    previous merge has already consumed. *)
Fixpoint merge_scan (skip : nat) (lines : list string) : list string :=
  match lines with
  | [] => []
  | line :: rest =>
      match skip with
      | S skip' => merge_scan skip' rest
      | O =>
          let nxt := clean_if_any (nth 0 rest EmptyString) in
          let nxt2 := clean_if_any (nth 1 rest EmptyString) in
          let line := _clean line in
          if Py.is_empty line then merge_scan 0 rest
          else
            let '(x, consumed) := merge_step line nxt nxt2 in
            x :: merge_scan (consumed - 1) rest
      end
  end.

Definition _merge_wrapped (lines : list string) : list string :=
  filter nonempty (merge_scan 0 lines).

(** ** Dates *)

Record date : Type := mkdate { year : Z; month : Z; day : Z }.

Definition is_leap (y : Z) : bool :=
  ((y mod 4 =? 0) && negb (y mod 100 =? 0) || (y mod 400 =? 0))%Z.

Definition days_in_month (y m : Z) : Z :=
  (if m =? 2 then (if is_leap y then 29 else 28)
   else if (m =? 4) || (m =? 6) || (m =? 9) || (m =? 11) then 30
   else 31)%Z.

(** [datetime.strptime(t, "%d-%m-%Y").date()] on a text matched by
    [DATE_RE]; [None] stands for the [ValueError] of an impossible
    date. *)
Definition strptime_dmy (t : string) : option date :=
  let d := Py.int_of_digits (Py.slice 0 2 t) in
  let m := Py.int_of_digits (Py.slice 3 5 t) in
  let y := Py.int_of_digits (Py.slice 6 10 t) in
  if ((1 <=? y) && (1 <=? m) && (m <=? 12)
      && (1 <=? d) && (d <=? days_in_month y m))%Z
  then Some (mkdate y m d) else None.

(** ** Facility parsers *)

Record facility : Type := mkfac {
  acc : string;
  fasilitas : string;
  plafond : option Z;
  dt_akhir : option date
}.

(** First index [j >= from] with [toks[j]] a currency code. *)
Fixpoint find_currency (toks : list string) (j from : nat) : option nat :=
  match toks with
  | [] => None
  | t :: rest =>
      if (from <=? j) && Py.mem t CURRENCIES then Some j
      else find_currency rest (S j) from
  end.

(** [toks[a:b]] *)
Definition slice_list {A} (a b : nat) (l : list A) : list A :=
  firstn (b - a) (skipn a l).

(** [try: strptime(dates[-1]) except: None] *)
Definition last_date (dates : list string) : option date :=
  match rev dates with
  | t :: _ => strptime_dmy t
  | [] => None
  end.

Definition _parse_facility_from_line (line : string) : option facility :=
  let s := _clean line in
  let accs := findall ACC_RE s in
  let dates := findall DATE_RE s in
  match accs with
  | [] => None
  | acc :: _ =>
      if List.length dates <? 2 then None
      else
        let toks := Py.split s in
        match Py.index acc toks with
        | None => None                      (* except ValueError *)
        | Some i_acc =>
            match find_currency toks 0 (i_acc + 1) with
            | None => None
            | Some currency_idx =>
                let fasilitas_raw :=
                  Py.strip
                    (Py.join (slice_list (i_acc + 1) currency_idx toks)) in
                let fasilitas := normalize_fasilitas fasilitas_raw in
                let plaf :=
                  _parse_amount_token (nth_error toks (currency_idx + 1)) in
                Some (mkfac acc fasilitas plaf (last_date dates))
            end
        end
  end.

Definition FACILITY_KEYS : list string :=
  ["BANK GARANSI"; "KREDIT LOKAL"; "TIME LOAN"; "KREDIT MULTI";
   "MULTI FASILITAS"; "TRUST RECEIPT"; "LETTER OF CREDIT"; "L/C"].

Definition _parse_facility_from_line_no_acc
           (line : string) (acc_hint : option string) : option facility :=
  match acc_hint with
  | None => None
  | Some hint =>
      if Py.is_empty hint then None
      else
        let s := _clean line in
        let dates := findall DATE_RE s in
        if List.length dates <? 2 then None
        else if negb (found CURRENCY_RE s) then None
        else if found ACC_RE s then None
        else
          let toks := Py.split s in
          match find_currency toks 0 0 with
          | None => None
          | Some cur_idx =>
              let left := Py.strip (Py.join (firstn cur_idx toks)) in
              let left := Py.strip (split_head SECTOR_WORDS_RE left) in
              let u := Py.upper left in
              let fasilitas_guess :=
                match find (fun key => Py.contains key u) FACILITY_KEYS with
                | Some key => key
                | None => Py.strip (Py.join (Py.last_n 4 (Py.split left)))
                end in
              if Py.is_empty fasilitas_guess
                 || Py.is_empty (Py.strip fasilitas_guess) then None
              else
                let fasilitas := normalize_fasilitas fasilitas_guess in
                let plaf :=
                  _parse_amount_token (nth_error toks (cur_idx + 1)) in
                Some (mkfac hint fasilitas plaf (last_date dates))
          end
  end.

(** ** Record assembly: [parse_pdfs_to_raw] *)

(** One entry of [rows], with the columns of the data frame. *)
Record row : Type := mkrow {
  Nama : string;
  ACC_No : string;
  Cabang : string;
  Fasilitas : string;
  Plafond : option Z;
  Tgl_PMK_PK_Akhir : option date;
  SumberFile : string;
  IsPriority : bool
}.

(** The mutable variables of [parse_pdfs_to_raw], and the lines printed
    when [DM_DEBUG] is ["1"]. *)
Record state : Type := mkstate {
  rows : list row;
  current_name : string;
  current_cif : string;
  last_acc : option string;
  printed : list string
}.

(** The initial values, assigned once before the loop over the files. *)
Definition initial_state : state :=
  mkstate [] EmptyString EmptyString None [].

(** A source document as the text extractor hands it over:
    [pdf_path.name] and [page.extract_text() or ""] for every page. *)
Record document : Type := mkdoc {
  file_name : string;
  page_texts : list string
}.

Definition str_of_nat (n : nat) : string :=
  NilEmpty.string_of_uint (Nat.to_uint n).

Definition nama_full (name cif : string) : string :=
  (name ++ " (" ++ cif ++ ")")%string.

(** Part (A) of the loop body: the borrower context after the line. *)
Definition update_borrower (ln : string) (name cif : string)
  : string * string :=
  let is_ao_line := Py.startswith "-" (Py.lstrip ln) && found CIF_RE ln in
  if found CIF_RE ln && negb is_ao_line then
    let '(nm, c) := _derive_name_and_cif ln in
    if nonempty nm && nonempty c then (nm, c) else (name, cif)
  else (name, cif).

(** The facility of the line: the parser with account number, else the
    hinted one. *)
Definition parse_facility (ln : string) (hint : option string)
  : option facility :=
  match _parse_facility_from_line ln with
  | Some fac => Some fac
  | None => _parse_facility_from_line_no_acc ln hint
  end.

Definition orphan_message (page_i ln_i : nat) (ln : string) : string :=
  ("[ORPHAN_FACILITY] p" ++ str_of_nat page_i ++ " ln" ++ str_of_nat ln_i
   ++ ": " ++ ln)%string.

(** The body of the innermost loop, for the line [ln0] of page [page_i]
    at index [ln_i]; [debug] is [os.environ.get("DM_DEBUG") == "1"]. *)
Definition process_line (debug : bool) (cabang_code sumber : string)
           (page_i ln_i : nat) (st : state) (ln0 : string) : state :=
  let ln := _clean ln0 in
  if _is_noise ln then st
  else
    let '(name, cif) :=
      update_borrower ln (current_name st) (current_cif st) in
    let active := nonempty name && nonempty cif in
    match parse_facility ln (last_acc st), active with
    | Some fac, true =>
        let r :=
          mkrow (nama_full name cif) (acc fac) cabang_code
                (Py.upper (fasilitas fac)) (plafond fac) (dt_akhir fac)
                sumber (is_priority_facility (fasilitas fac)) in
        mkstate (rows st ++ [r]) name cif (Some (acc fac)) (printed st)
    | _, _ =>
        let orphan :=
          debug && (found ACC_RE ln && found DATE_RE ln) && negb active in
        mkstate (rows st) name cif (last_acc st)
                (if orphan
                 then printed st ++ [orphan_message page_i ln_i ln]
                 else printed st)
    end.

(** [for ln_i, ln in enumerate(lines, start=1)] *)
Fixpoint process_lines (debug : bool) (cabang_code sumber : string)
         (page_i ln_i : nat) (st : state) (lines : list string) : state :=
  match lines with
  | [] => st
  | ln :: rest =>
      process_lines debug cabang_code sumber page_i (S ln_i)
        (process_line debug cabang_code sumber page_i ln_i st ln) rest
  end.

(** The shaped lines of one page. *)
Definition page_lines (text : string) : list string :=
  let raw_lines := map _clean (Py.split_on "010" text) in
  let raw_lines := filter (fun l => negb (_is_noise l)) raw_lines in
  let raw_lines := _split_embedded_borrowers raw_lines in
  _merge_wrapped raw_lines.

(** [for page_i, page in enumerate(pdf.pages, start=1)] *)
Fixpoint process_pages (debug : bool) (cabang_code sumber : string)
         (page_i : nat) (st : state) (texts : list string) : state :=
  match texts with
  | [] => st
  | text :: rest =>
      process_pages debug cabang_code sumber (S page_i)
        (process_lines debug cabang_code sumber page_i 1 st
           (page_lines text)) rest
  end.

Definition process_document (debug : bool) (st : state) (d : document)
  : state :=
  process_pages debug (cabang_from_filename (file_name d)) (file_name d)
    1 st (page_texts d).

(** [for pdf_path in pdf_paths]: the state is threaded from one file to
    the next. *)
Definition scan_documents (debug : bool) (docs : list document) : state :=
  fold_left (process_document debug) docs initial_state.

(** ** The data frame *)

(** The double nearest to a non-negative integer, ties going to the even
    significand: the value an integer takes in a column of type
    [float64]. *)
Definition float64_of_Z (n : Z) : Z :=
  (if n <? 2 ^ 53 then n
   else
     let e := Z.log2 n - 52 in
     let q := Z.shiftr n e in
     let r := n - Z.shiftl q e in
     let half := Z.shiftl 1 (e - 1) in
     let q' := if (half <? r) || ((r =? half) && Z.odd q) then q + 1 else q in
     Z.shiftl q' e)%Z.

Definition amount_missing (rs : list row) : bool :=
  existsb (fun r => match Plafond r with None => true | Some _ => false end)
          rs.

(** [df = pd.DataFrame(rows)]: while every record has its amount the
    column [Plafond] holds the integers; as soon as one record misses
    its amount the column is of type [float64] and holds, for every
    amount, the nearest double.  The other columns hold the values of
    the records.  (Amounts are taken to fit [int64].) *)
Definition frame_row (float_column : bool) (r : row) : row :=
  mkrow (Nama r) (ACC_No r) (Cabang r) (Fasilitas r)
        (if float_column then option_map float64_of_Z (Plafond r)
         else Plafond r)
        (Tgl_PMK_PK_Akhir r) (SumberFile r) (IsPriority r).

Definition DataFrame (rs : list row) : list row :=
  map (frame_row (amount_missing rs)) rs.

(** The clean-up of the columns [Nama] and [Fasilitas] after the scan. *)
Definition tidy_row (r : row) : row :=
  mkrow (sub NAMA_DASH_RE EmptyString (Nama r))
        (ACC_No r) (Cabang r)
        (sub SPACES_RE " " (Py.upper (Fasilitas r)))
        (Plafond r) (Tgl_PMK_PK_Akhir r) (SumberFile r) (IsPriority r).

(** ** Deduplication *)

(** The [subset] of [drop_duplicates]. *)
Definition dedup_key : Type :=
  string * string * string * option Z * option date.

Definition key_of (r : row) : dedup_key :=
  (Nama r, ACC_No r, Fasilitas r, Plafond r, Tgl_PMK_PK_Akhir r).

Definition date_eqb (a b : date) : bool :=
  ((year a =? year b) && (month a =? month b) && (day a =? day b))%Z.

Definition opt_eqb {A} (eqb : A -> A -> bool) (a b : option A) : bool :=
  match a, b with
  | Some x, Some y => eqb x y
  | None, None => true
  | _, _ => false
  end.

Definition key_eqb (a b : dedup_key) : bool :=
  let '(n1, a1, f1, p1, d1) := a in
  let '(n2, a2, f2, p2, d2) := b in
  String.eqb n1 n2 && String.eqb a1 a2 && String.eqb f1 f2
  && opt_eqb Z.eqb p1 p2 && opt_eqb date_eqb d1 d2.

Definition seen_key (k : dedup_key) (seen : list dedup_key) : bool :=
  existsb (key_eqb k) seen.

(** [drop_duplicates(subset=..., keep="first")]: a row is dropped when
    its key was seen at an earlier row. *)
Fixpoint drop_duplicates_from (seen : list dedup_key) (rs : list row)
  : list row :=
  match rs with
  | [] => []
  | r :: rest =>
      if seen_key (key_of r) seen then drop_duplicates_from seen rest
      else r :: drop_duplicates_from (key_of r :: seen) rest
  end.

Definition drop_duplicates (rs : list row) : list row :=
  drop_duplicates_from [] rs.

Definition parse_pdfs_to_raw_debug (debug : bool) (docs : list document)
  : list row :=
  drop_duplicates
    (map tidy_row (DataFrame (rows (scan_documents debug docs)))).

(** The data frame [parse_pdfs_to_raw] returns; what it returns does not
    depend on [DM_DEBUG]. *)
Definition parse_pdfs_to_raw (docs : list document) : list row :=
  parse_pdfs_to_raw_debug false docs.

End Engine.

(* ================================================================== *)
(** * The aggregation stage: [app/excel_datamaster.py] *)
(* ================================================================== *)

Module Excel.

Import Engine.

(** A data frame is the list of its rows, in index order.  The column
    [Tgl PMK/PK Akhir] holds a date or nothing, as
    [pd.to_datetime(..., errors="coerce").dt.date] leaves it. *)
Definition frame : Type := list row.

(** The distinct values of [Nama], the keys of [groupby("Nama")]. *)
Fixpoint group_keys (df : frame) : list string :=
  match df with
  | [] => []
  | r :: rest =>
      if Py.mem (Nama r) (group_keys rest) then group_keys rest
      else Nama r :: group_keys rest
  end.

Definition group (df : frame) (nama : string) : frame :=
  filter (fun r => String.eqb (Nama r) nama) df.

(** [d.groupby("Nama")["IsPriority"].any()] *)
Definition has_pri (d : frame) : list (string * bool) :=
  map (fun n => (n, existsb IsPriority (group d n))) (group_keys d).

(** The value a left merge on [Nama] attaches to a row; [None] is the
    missing value of a key absent from the right-hand side. *)
Fixpoint lookup {V} (n : string) (tbl : list (string * V)) : option V :=
  match tbl with
  | [] => None
  | (k, v) :: rest => if String.eqb k n then Some v else lookup n rest
  end.

Definition HasPriority (d : frame) (r : row) : option bool :=
  lookup (Nama r) (has_pri d).

Definition is_true (b : option bool) : bool :=
  match b with Some true => true | _ => false end.

Definition is_false (b : option bool) : bool :=
  match b with Some false => true | _ => false end.

Definition _split_priority (df : frame) : frame * frame :=
  let pri :=
    filter (fun r => is_true (HasPriority df r) && IsPriority r) df in
  let non := filter (fun r => is_false (HasPriority df r)) df in
  (pri, non).

(** ** Ordering *)

Definition lex (c1 c2 : comparison) : comparison :=
  match c1 with Eq => c2 | _ => c1 end.

(** Dates compare as [datetime.date] does: year, month, day. *)
Definition date_compare (a b : date) : comparison :=
  lex (Z.compare (year a) (year b))
      (lex (Z.compare (month a) (month b)) (Z.compare (day a) (day b))).

(** Strings compare as [str] does: character by character on the code
    points, a proper prefix first. *)
Fixpoint str_compare (a b : string) : comparison :=
  match a, b with
  | EmptyString, EmptyString => Eq
  | EmptyString, String _ _ => Lt
  | String _ _, EmptyString => Gt
  | String x a', String y b' =>
      lex (Nat.compare (Py.code x) (Py.code y)) (str_compare a' b')
  end.

(** [na_position="last"]: a missing value comes after every value. *)
Definition na_last_compare {A} (cmp : A -> A -> comparison)
           (a b : option A) : comparison :=
  match a, b with
  | Some x, Some y => cmp x y
  | Some _, None => Lt
  | None, Some _ => Gt
  | None, None => Eq
  end.

Definition pair_compare {A B} (cmpA : A -> A -> comparison)
           (cmpB : B -> B -> comparison) (a b : A * B) : comparison :=
  lex (cmpA (fst a) (fst b)) (cmpB (snd a) (snd b)).

(** The minimum of a column that may miss values ([skipna]). *)
Definition min_date (a b : option date) : option date :=
  match a, b with
  | Some x, Some y =>
      match date_compare x y with Gt => Some y | _ => Some x end
  | Some x, None => Some x
  | None, _ => b
  end.

(** [df.groupby("Nama")["Tgl PMK/PK Akhir"].min()] *)
Definition earliest_table (df : frame) : list (string * option date) :=
  map (fun n =>
         (n, fold_right min_date None (map Tgl_PMK_PK_Akhir (group df n))))
      (group_keys df).

(** The column [Debitur_Earliest] after the left merge. *)
Definition Debitur_Earliest (df : frame) (r : row) : option date :=
  match lookup (Nama r) (earliest_table df) with
  | Some d => d
  | None => None
  end.

(** The sort keys, in the order given to [sort_values]: the first two
    identify the borrower's block, the other three order its rows. *)
Definition block_key : Type := option date * string.
Definition inner_key : Type := option date * (string * string).
Definition sort_key : Type := block_key * inner_key.

Definition block_key_of (df : frame) (r : row) : block_key :=
  (Debitur_Earliest df r, Nama r).

Definition sort_key_of (df : frame) (r : row) : sort_key :=
  (block_key_of df r, (Tgl_PMK_PK_Akhir r, (Fasilitas r, ACC_No r))).

Definition block_compare : block_key -> block_key -> comparison :=
  pair_compare (na_last_compare date_compare) str_compare.

Definition inner_compare : inner_key -> inner_key -> comparison :=
  pair_compare (na_last_compare date_compare)
               (pair_compare str_compare str_compare).

Definition key_compare : sort_key -> sort_key -> comparison :=
  pair_compare block_compare inner_compare.

Definition key_leb (a b : sort_key) : bool :=
  match key_compare a b with Gt => false | _ => true end.

(** A stable sort: a row is placed before the first element that is
    not smaller, so rows with equal keys keep their input order. *)
Fixpoint insert_by {A} (key : A -> sort_key) (r : A) (l : list A)
  : list A :=
  match l with
  | [] => [r]
  | x :: l' =>
      if key_leb (key r) (key x) then r :: l
      else x :: insert_by key r l'
  end.

Definition stable_sort {A} (key : A -> sort_key) (l : list A) : list A :=
  fold_right (insert_by key) [] l.

Definition _sort_block_style (df : frame) : frame :=
  stable_sort (sort_key_of df) df.

(** The two views of the sheet [Gabungan] in [build_outputs]: the frame
    is split, then each part is sorted on its own. *)
Definition build_outputs_views (df : frame) : frame * frame :=
  let '(pri, non) := _split_priority df in
  (_sort_block_style pri, _sort_block_style non).

End Excel.

(** * [smoke_test.py]: the account-owner check *)

Module Smoke.

Import Engine Excel.

(** The keys of [groupby("ACC No")]: the distinct account numbers, which
    [groupby] sorts. *)
Fixpoint insert_key (a : string) (l : list string) : list string :=
  match l with
  | [] => [a]
  | x :: l' =>
      match str_compare a x with
      | Lt => a :: l
      | Eq => l
      | Gt => x :: insert_key a l'
      end
  end.

Definition acc_keys (df : frame) : list string :=
  fold_right insert_key [] (map ACC_No df).

(** [Series.nunique()] *)
Definition nunique (l : list string) : nat :=
  List.length (nodup string_dec l).

(** [g = df.groupby("ACC No")["Nama"].nunique()] *)
Definition g (df : frame) : list (string * nat) :=
  map (fun a =>
         (a, nunique
               (map Nama (filter (fun r => String.eqb (ACC_No r) a) df))))
      (acc_keys df).

(** [multi_owner = g[g > 1]] *)
Definition multi_owner (df : frame) : list (string * nat) :=
  filter (fun e => 1 <? snd e) (g df).

End Smoke.

(* ================================================================== *)
(** * Properties stated about the output, and sample inputs *)
(* ================================================================== *)

Import Engine Excel.

(** The account-to-borrower mapping of a record set is a function. *)
Definition acc_to_nama_functional (rs : list row) : Prop :=
  forall r1 r2,
    In r1 rs -> In r2 rs -> ACC_No r1 = ACC_No r2 -> Nama r1 = Nama r2.

(** A name token with its punctuation stripped and upper-cased, as
    [_clean_company_name] looks at it. *)
Definition name_token_upper (t : string) : string :=
  Py.upper (Re.sub NON_NAME_CHAR_RE EmptyString t).

Definition is_pt_cv (t : string) : bool :=
  Py.mem (name_token_upper t) ["PT"; "CV"].


Definition newline : string := String "010"%char EmptyString.

(** A page on which two borrowers are printed with one account number. *)
Definition page_shared_account : string :=
  ("5 UTOMO (00018964777) 1234567890 BANK GARANSI IDR 50000 01-01-2023 01-01-2024"
   ++ newline ++
   "6 BUDI (00018964778) 1234567890 BANK GARANSI IDR 50000 01-01-2023 01-01-2024")%string.

Definition doc_shared_account : document :=
  mkdoc "SME_KDS.PDF" [page_shared_account].

(** Two files: the first names a borrower and a facility, the second
    starts with a facility line whose account column is cut off. *)
Definition doc_kds : document :=
  mkdoc "SME_KDS.PDF"
    ["5 UTOMO (00018964777) 1234567890 BANK GARANSI IDR 50000 01-01-2023 01-01-2024"].

Definition doc_smg : document :=
  mkdoc "SME_SMG.PDF" ["TIME LOAN IDR 70000 01-01-2023 01-01-2025"].

(** A letter-of-credit line followed by the line of the next borrower. *)
Definition lc_line : string := "1234567890 L/C CNY 1000 01-01-2023 01-01-2024".
Definition borrower_line : string := "5 UTOMO (00018964777) PETERNAKAN".

(** A page on which the letter of credit of one borrower is followed by
    the next borrower and that borrower's facility. *)
Definition doc_lc_then_borrower : document :=
  mkdoc "SME_KDS.PDF"
    [("4 BUDI (00018964778) DISTRIBUSI" ++ newline ++ lc_line ++ newline
      ++ borrower_line ++ newline
      ++ "9988776655 TIME LOAN IDR 7 01-01-2023 01-01-2025")%string].

(** A facility line whose account number is wrapped in parentheses. *)
Definition parenthesised_acc_line : string :=
  "(1234567890) TIME LOAN IDR 5 01-01-2023 01-01-2024".

(** The same line with the account number printed a second time, on its
    own. *)
Definition parenthesised_then_plain_acc_line : string :=
  "(1234567890) 1234567890 TIME LOAN IDR 5 01-01-2023 01-01-2024".

(** The rows of a record set that carry a given deduplication key. *)
Definition has_key (k : dedup_key) (r : row) : bool :=
  key_eqb (key_of r) k.

(** The record [process_line] builds from a parsed facility and the
    borrower context. *)
Definition record_of (name cif cabang_code sumber : string) (fac : facility)
  : row :=
  mkrow (nama_full name cif) (acc fac) cabang_code
        (Py.upper (fasilitas fac)) (plafond fac) (dt_akhir fac)
        sumber (is_priority_facility (fasilitas fac)).

(** The laws of a total order presented by a three-way comparison. *)
Record order_laws {A : Type} (cmp : A -> A -> comparison) : Prop := {
  cmp_eq : forall a b, cmp a b = Eq <-> a = b;
  cmp_opp : forall a b, cmp b a = CompOpp (cmp a b);
  cmp_lt_trans : forall a b c, cmp a b = Lt -> cmp b c = Lt -> cmp a c = Lt
}.

Definition cmp_le {A : Type} (cmp : A -> A -> comparison) (a b : A) : Prop :=
  cmp a b <> Gt.

Definition date_triple (d : date) : Z * (Z * Z) := (year d, (month d, day d)).

(** [a] may stand before [b] in a list sorted on [key]. *)
Definition key_le {A : Type} (key : A -> sort_key) (a b : A) : Prop :=
  key_leb (key a) (key b) = true.

(** [a] may stand before [b] in a frame sorted by [_sort_block_style]. *)
Definition row_le (df : frame) (a b : row) : Prop :=
  key_le (sort_key_of df) a b.

(** The account number of the last record of a record list, if any. *)
Definition last_ACC_No (rs : list row) : option string :=
  last (map (fun r => Some (ACC_No r)) rs) None.

(** A borrower context is active: name and identity number are set. *)
Definition active (st : state) : bool :=
  nonempty (current_name st) && nonempty (current_cif st).

(** The state with the printed diagnostics dropped. *)
Definition without_printed (st : state) : state :=
  mkstate (rows st) (current_name st) (current_cif st) (last_acc st) [].

(** Reference form of [re.sub(r"\s+", " ", s)]: every maximal run of
    whitespace becomes one space. *)
Fixpoint squeeze (s : string) : string :=
  match s with
  | EmptyString => EmptyString
  | String a s' =>
      if Py.is_space a then
        match s' with
        | String b _ =>
            if Py.is_space b then squeeze s' else String " " (squeeze s')
        | EmptyString => " "
        end
      else String a (squeeze s')
  end.

(** Number of leading characters of [s] that are in the class [f]. *)
Fixpoint run (f : ascii -> bool) (s : string) : nat :=
  match s with
  | String a s' => if f a then S (run f s') else 0
  | EmptyString => 0
  end.

Definition not_space (a : ascii) : bool := negb (Py.is_space a).

(** The loop that [Re.rmatch] runs for a repetition, with the matcher of
    the repeated pattern as a parameter. *)
Definition rep_iter
           (body : nat -> option ascii -> string -> Re.cont -> option nat)
           (lo : nat) (hi : option nat) (k : Re.cont)
  : nat -> nat -> nat -> option ascii -> string -> option nat :=
  fix iter (fuel n i : nat) (p : option ascii) (s : string)
      {struct fuel} : option nat :=
    let stop := if lo <=? n then k i p s else None in
    match fuel with
    | O => stop
    | S fuel' =>
        if Re.may_repeat hi n then
          match body i p s
                  (fun i' p' s' =>
                     if i <? i' then iter fuel' (S n) i' p' s' else None) with
          | Some e => Some e
          | None => stop
          end
        else stop
    end.

(** The continuation of [Re.fullmatch]. *)
Definition at_end : Re.cont :=
  fun i _ s' => if Py.is_empty s' then Some i else None.

(** A whitespace-delimited token: not empty, no whitespace inside. *)
Definition is_token (t : string) : Prop :=
  t <> EmptyString /\ run not_space t = String.length t.

Definition starts_with_space (s : string) : bool :=
  match s with String a _ => Py.is_space a | EmptyString => false end.

Definition has_token (l : list string) : bool :=
  match l with [] => false | _ :: _ => true end.

(** A line in the form the assembler expects: not empty and already
    cleaned. *)
Definition shaped_line (x : string) : Prop :=
  nonempty x = true /\ _clean x = x.

(** The keyword rules of [normalize_fasilitas], applied to the
    upper-cased and cleaned text. *)
Definition normalize_rules (s : string) : string :=
  if Py.contains "LETTER OF CREDIT" s || Py.contains "L/C" s
     || Re.found (word_re "LC") s then "L/C"
  else if Py.contains "TRUST RECEIPT" s || Re.found (word_re "TR") s
  then "TRUST RECEIPT"
  else if Py.contains "KREDIT MULTI" s || Py.contains "MULTI FASILITAS" s
  then "KREDIT MULTI FASILITAS"
  else if Py.contains "TIME LOAN" s || Re.found (word_re "TL") s
  then "TIME LOAN"
  else if Py.contains "KREDIT LOKAL" s || Re.found (word_re "KL") s
  then "KREDIT LOKAL"
  else if Py.contains "BANK GARANSI" s || Re.found (word_re "BG") s
  then "BANK GARANSI"
  else s.

(** What it means for a pattern to match between two cursors (offset,
    previous character, remaining text): the reading of the pattern
    syntax that the matcher [Re.rmatch] is checked against. *)
Fixpoint iter_matches
         (M : nat -> option ascii -> string ->
              nat -> option ascii -> string -> Prop)
         (n : nat) (i : nat) (p : option ascii) (s : string)
         (i' : nat) (p' : option ascii) (s' : string) : Prop :=
  match n with
  | O => i' = i /\ p' = p /\ s' = s
  | S n' =>
      exists j q t, M i p s j q t /\ iter_matches M n' j q t i' p' s'
  end.

Fixpoint matches (r : Re.regex) (i : nat) (p : option ascii) (s : string)
         (i' : nat) (p' : option ascii) (s' : string) {struct r} : Prop :=
  match r with
  | Re.Eps => i' = i /\ p' = p /\ s' = s
  | Re.Chr f =>
      exists a, s = String a s' /\ f a = true /\ i' = S i /\ p' = Some a
  | Re.Cat r1 r2 =>
      exists j q t, matches r1 i p s j q t /\ matches r2 j q t i' p' s'
  | Re.Alt r1 r2 => matches r1 i p s i' p' s' \/ matches r2 i p s i' p' s'
  | Re.Rep r1 lo hi =>
      exists n,
        lo <= n
        /\ match hi with Some h => n <= h | None => True end
        /\ iter_matches (matches r1) n i p s i' p' s'
  | Re.Bol => i = 0 /\ i' = i /\ p' = p /\ s' = s
  | Re.Eol => Re.at_eol s = true /\ i' = i /\ p' = p /\ s' = s
  | Re.Wb =>
      xorb (Re.word_before p) (Re.word_after s) = true
      /\ i' = i /\ p' = p /\ s' = s
  | Re.Ahead r1 =>
      (exists j q t, matches r1 i p s j q t)
      /\ i' = i /\ p' = p /\ s' = s
  end.

(** A text of exactly [n] characters, all in the class [f]. *)
Definition all_in_class (f : ascii -> bool) (n : nat) (w : string) : Prop :=
  String.length w = n /\ run f w = n.


(** The characters of a text that are not whitespace, in order. *)
Fixpoint non_blank (s : string) : string :=
  match s with
  | EmptyString => EmptyString
  | String a s' =>
      if Py.is_space a then non_blank s' else String a (non_blank s')
  end.

(** The non-blank text of a list of lines. *)
Definition non_blank_text (lines : list string) : string :=
  fold_right (fun x acc => (non_blank x ++ acc)%string) EmptyString lines.

(** A calendar date as [datetime.date] holds it. *)
Definition valid_date (d : date) : Prop :=
  (1 <= year d
   /\ 1 <= month d <= 12
   /\ 1 <= day d <= days_in_month (year d) (month d))%Z.

(** What a facility parser reads off the cleaned line [s] besides the
    account number: the line has two dates or more, and the maturity
    date is read from the last one; the line has a currency token, no
    earlier than position [from], and the ceiling is read from the token
    after the first such token. *)
Definition facility_read_from (s : string) (from : nat) (fac : facility)
  : Prop :=
  2 <= List.length (Re.findall DATE_RE s)
  /\ dt_akhir fac = last_date (Re.findall DATE_RE s)
  /\ exists j c,
       from <= j
       /\ nth_error (Py.split s) j = Some c /\ In c CURRENCIES
       /\ (forall i c', from <= i < j -> nth_error (Py.split s) i = Some c' ->
                        ~ In c' CURRENCIES)
       /\ plafond fac = _parse_amount_token (nth_error (Py.split s) (j + 1)).

Definition amount_and_date_ok (p : option Z) (d : option date) : Prop :=
  match p with Some n => (0 <= n)%Z | None => True end
  /\ match d with Some x => valid_date x | None => True end.

(** The text without its characters of the class [f]. *)
Fixpoint without_class (f : ascii -> bool) (s : string) : string :=
  match s with
  | EmptyString => EmptyString
  | String a s' =>
      if f a then without_class f s' else String a (without_class f s')
  end.

(** A character that the name extraction leaves in a token:
    [[\w/&\-.']]. *)
Definition name_char (a : ascii) : bool :=
  Py.is_word a || Py.one_of "/&-.'" a.

(** A token of a borrower name: not empty, made of name characters, and
    not one of the words of [NON_NAME_NOISE] in any case. *)
Definition name_token (t : string) : Prop :=
  t <> EmptyString
  /\ run name_char t = String.length t
  /\ ~ In (Py.upper t) NON_NAME_NOISE.

(** A borrower name in the form the extraction builds it: distinct name
    tokens separated by single spaces. *)
Definition well_formed_name (name : string) : Prop :=
  name = Py.join (Py.split name)
  /\ NoDup (Py.split name)
  /\ Forall name_token (Py.split name).

(** A text of ASCII characters only. *)
Definition is_ascii (s : string) : bool :=
  forallb (fun a => Py.code a <? 128) (list_ascii_of_string s).

(** A record whose amount, if it has one, is below [2^53], the range in
    which every integer is a double. *)
Definition amount_is_exact (r : row) : Prop :=
  match Plafond r with Some n => (n < 2 ^ 53)%Z | None => True end.

(** A file with two facilities whose amounts differ by one above
    [2^53], and a file with a facility line whose amount column is
    empty. *)
Definition doc_large_amounts : document :=
  mkdoc "SME_KDS.PDF"
    [("5 UTOMO (00018964777) 1234567890 BANK GARANSI IDR 9007199254740992 01-01-2023 01-01-2024"
      ++ newline ++
      "1234567890 BANK GARANSI IDR 9007199254740993 01-01-2023 01-01-2024")%string].

Definition doc_without_amount : document :=
  mkdoc "SME_SMG.PDF" ["1234567891 TIME LOAN IDR 01-01-2023 01-01-2025"].

(** Two records agree on the five columns that the deduplication
    compares. *)
Definition same_five_columns (r1 r2 : row) : Prop :=
  Nama r1 = Nama r2
  /\ ACC_No r1 = ACC_No r2
  /\ Fasilitas r1 = Fasilitas r2
  /\ Plafond r1 = Plafond r2
  /\ Tgl_PMK_PK_Akhir r1 = Tgl_PMK_PK_Akhir r2.

(** A page whose borrower name begins with a dash, and a facility of
    that borrower. *)
Definition doc_dash_name : document :=
  mkdoc "SME_KDS.PDF"
    [("5 *-IDR X1 (00018964777) PETERNAKAN" ++ newline ++
      "1234567890 BANK GARANSI IDR 50000 01-01-2023 01-01-2024")%string].

Arguments key_eqb : simpl never.
Arguments key_of : simpl never.

(* ================================================================== *)
(** * Theorems *)
(* ================================================================== *)

(** ** Facility parser with account number *)

Lemma index_not_in (x : string) (l : list string) :
  ~ In x l -> Py.index x l = None.
Proof.
  induction l as [|y l IH]; simpl; intros H; [reflexivity|].
  destruct (String.eqb_spec y x) as [->|Hne].
  - exfalso. apply H. now left.
  - rewrite IH; [reflexivity|]. intros Hin. apply H. now right.
Qed.

Lemma mem_In (x : string) (l : list string) :
  Py.mem x l = true <-> In x l.
Proof.
  unfold Py.mem. rewrite existsb_exists. split.
  - intros [y [Hy He]]. apply String.eqb_eq in He. now subst.
  - intros H. exists x. split; [exact H | apply String.eqb_refl].
Qed.

Lemma index_In (x : string) (l : list string) (i : nat) :
  Py.index x l = Some i -> nth_error l i = Some x.
Proof.
  revert i. induction l as [|y l IH]; intros i; simpl; [discriminate|].
  destruct (String.eqb_spec y x) as [->|Hne].
  - intros [= <-]. reflexivity.
  - destruct (Py.index x l) as [j|]; [|discriminate].
    intros [= <-]. simpl. now apply IH.
Qed.

Lemma find_currency_spec (toks : list string) (from : nat) :
  forall j k,
    find_currency toks j from = Some k ->
    j <= k /\ from <= k
    /\ exists c,
         nth_error toks (k - j) = Some c /\ In c CURRENCIES
         /\ forall i c', j <= i < k -> from <= i ->
                         nth_error toks (i - j) = Some c' ->
                         ~ In c' CURRENCIES.
Proof.
  induction toks as [|t toks IH]; intros j k H; [discriminate H|].
  cbn [find_currency] in H.
  destruct ((from <=? j) && Py.mem t CURRENCIES) eqn:E.
  - injection H as <-. apply andb_true_iff in E as [Ef Em].
    apply Nat.leb_le in Ef. apply mem_In in Em.
    split; [lia|]. split; [exact Ef|]. exists t.
    rewrite Nat.sub_diag. split; [reflexivity|]. split; [exact Em|].
    intros i c' Hi. lia.
  - apply IH in H as [Hjk [Hfk [c [Hn [Hc Hfirst]]]]].
    split; [lia|]. split; [exact Hfk|]. exists c.
    replace (k - j) with (S (k - S j)) by lia.
    split; [exact Hn|]. split; [exact Hc|].
    intros i c' Hi Hfi Hnth Hin.
    destruct (Nat.eq_dec i j) as [->|Hne].
    + rewrite Nat.sub_diag in Hnth. injection Hnth as <-.
      apply mem_In in Hin. apply Nat.leb_le in Hfi.
      now rewrite Hfi, Hin in E.
    + replace (i - j) with (S (i - S j)) in Hnth by lia.
      apply (Hfirst i c'); [lia | exact Hfi | exact Hnth | exact Hin].
Qed.

Lemma index_first (x : string) (l : list string) (i : nat) :
  Py.index x l = Some i <->
  nth_error l i = Some x /\ forall k, k < i -> nth_error l k <> Some x.
Proof.
  revert i. induction l as [|y l IH]; intros i.
  - split; [discriminate|]. intros [H _]. destruct i; discriminate H.
  - cbn [Py.index]. destruct (String.eqb_spec y x) as [->|Hne].
    + split.
      * intros [= <-]. split; [reflexivity|]. intros k Hk. lia.
      * intros [Hn Hfirst]. destruct i as [|i]; [reflexivity|].
        exfalso. apply (Hfirst 0); [lia | reflexivity].
    + destruct (Py.index x l) as [j|] eqn:Ej.
      * split.
        -- intros [= <-]. destruct (proj1 (IH j) eq_refl) as [Hn Hfirst].
           split; [exact Hn|]. intros [|k] Hk; cbn [nth_error].
           ++ intros [= E]. now apply Hne.
           ++ apply Hfirst. lia.
        -- intros [Hn Hfirst]. destruct i as [|i].
           ++ cbn [nth_error] in Hn. injection Hn as E. now elim Hne.
           ++ f_equal. f_equal.
              assert (E : Some j = Some i); [|now injection E].
              apply IH. split; [exact Hn|].
              intros k Hk. apply (Hfirst (S k)). lia.
      * split; [discriminate|]. intros [Hn Hfirst]. destruct i as [|i].
        -- cbn [nth_error] in Hn. injection Hn as E. now elim Hne.
        -- exfalso.
           assert (E : None = Some i); [|discriminate E].
           apply IH. split; [exact Hn|].
           intros k Hk. apply (Hfirst (S k)). lia.
Qed.

Lemma find_currency_none (toks : list string) (from : nat) :
  forall j,
    find_currency toks j from = None <->
    forall i c, nth_error toks i = Some c -> from <= j + i ->
                ~ In c CURRENCIES.
Proof.
  induction toks as [|t toks IH]; intros j.
  - split; [|reflexivity]. intros _ i c H. destruct i; discriminate H.
  - cbn [find_currency].
    destruct ((from <=? j) && Py.mem t CURRENCIES) eqn:E.
    + split; [discriminate|]. intros H. exfalso.
      apply andb_true_iff in E as [Ef Em].
      apply Nat.leb_le in Ef. apply mem_In in Em.
      apply (H 0 t); [reflexivity | lia | exact Em].
    + rewrite IH. split.
      * intros H [|i] c Hn Hle Hin; cbn [nth_error] in Hn.
        -- injection Hn as <-. apply mem_In in Hin.
           assert (Hf : (from <=? j) = true) by (apply Nat.leb_le; lia).
           now rewrite Hf, Hin in E.
        -- apply (H i c Hn); [lia | exact Hin].
      * intros H i c Hn Hle. apply (H (S i) c Hn). lia.
Qed.

(** C10 (as amended): the parser looks the first account number up by
    value among the whitespace-delimited tokens of the line.  When no
    token is equal to it (every occurrence is wrapped in parentheses or
    glued to punctuation) the parser returns no record: the
    [ValueError] of [toks.index] is caught and nothing is raised,
    whatever else the line holds.  When a token is equal to it, the
    parser goes on from the first such token, wherever the match itself
    stood: it then returns no record exactly when the line has fewer
    than two dates or no currency token after that token. *)
Theorem C10_account_not_a_token_gives_none :
  forall (line first_acc : string) (more : list string),
    Re.findall ACC_RE (_clean line) = first_acc :: more ->
    (~ In first_acc (Py.split (_clean line)) ->
     _parse_facility_from_line line = None)
    /\ (forall i_acc : nat,
          nth_error (Py.split (_clean line)) i_acc = Some first_acc ->
          (forall k, k < i_acc ->
                     nth_error (Py.split (_clean line)) k <> Some first_acc) ->
          (_parse_facility_from_line line = None
           <-> List.length (Re.findall DATE_RE (_clean line)) < 2
               \/ forall j c,
                    i_acc < j ->
                    nth_error (Py.split (_clean line)) j = Some c ->
                    ~ In c CURRENCIES)).
Proof.
  intros line first_acc more Hacc. split.
  - intros Hnot. unfold _parse_facility_from_line. rewrite Hacc.
    destruct (_ <? 2); [reflexivity|].
    now rewrite (index_not_in _ _ Hnot).
  - intros i_acc Hn Hfirst.
    assert (Hi : Py.index first_acc (Py.split (_clean line)) = Some i_acc)
      by (apply index_first; now split).
    unfold _parse_facility_from_line. rewrite Hacc. cbv zeta.
    destruct (_ <? 2) eqn:Ed.
    + apply Nat.ltb_lt in Ed. split; [now left | reflexivity].
    + apply Nat.ltb_ge in Ed. rewrite Hi.
      destruct (find_currency _ _ _) as [k|] eqn:Ek.
      * split; [discriminate|]. intros [H|H]; [lia|]. exfalso.
        apply find_currency_spec in Ek as [_ [Hfk [c [Hc [Hin _]]]]].
        rewrite Nat.sub_0_r in Hc. apply (H k c); [lia | exact Hc | exact Hin].
      * split; [|reflexivity]. intros _. right. intros j c Hj Hc.
        apply (proj1 (find_currency_none _ _ 0) Ek j c Hc). lia.
Qed.

(** C10 at a concrete line: the account number is wrapped in
    parentheses, the line has two dates and a currency code, and the
    parser returns no record. *)
Lemma C10_witness_parenthesised_account :
  Re.findall ACC_RE (_clean parenthesised_acc_line) = ["1234567890"]
  /\ List.length (Re.findall DATE_RE (_clean parenthesised_acc_line)) = 2
  /\ Re.found CURRENCY_RE (_clean parenthesised_acc_line) = true
  /\ _parse_facility_from_line parenthesised_acc_line = None.
Proof.
  assert (Hacc : Re.findall ACC_RE (_clean parenthesised_acc_line)
                 = ["1234567890"]) by (vm_compute; reflexivity).
  split; [exact Hacc|].
  split; [vm_compute; reflexivity|].
  split; [vm_compute; reflexivity|].
  apply (proj1 (C10_account_not_a_token_gives_none
                  parenthesised_acc_line Hacc)).
  vm_compute. intros H.
  repeat (destruct H as [H|H]; [discriminate H|]). exact H.
Defined.

(** C10, the claim as written fails: the first account-number match of
    the line stands in parentheses, at offsets 1 to 11 inside the first
    token, so it is not a standalone token; the line has two dates and a
    currency code; and the parser returns a record, read from the second
    token, which repeats the digits. *)
Lemma C10_counterexample_digits_recur_as_token :
  Re.search ACC_RE (_clean parenthesised_then_plain_acc_line) = Some (1, 11)
  /\ nth_error (Py.split (_clean parenthesised_then_plain_acc_line)) 0
     = Some "(1234567890)"
  /\ List.length
       (Re.findall DATE_RE (_clean parenthesised_then_plain_acc_line)) = 2
  /\ Re.found CURRENCY_RE (_clean parenthesised_then_plain_acc_line) = true
  /\ _parse_facility_from_line parenthesised_then_plain_acc_line
     = Some (mkfac "1234567890" "TIME LOAN" (Some 5%Z)
                   (Some (mkdate 2024 1 1))).
Proof. repeat split; vm_compute; reflexivity. Qed.

(** ** Borrower-name tokens *)

Lemma first_pt_cv_least (toks : list string) :
  forall (k i : nat) (t : string),
    nth_error toks i = Some t ->
    is_pt_cv t = true ->
    (forall j t', j < i -> nth_error toks j = Some t' -> is_pt_cv t' = false) ->
    first_pt_cv (map name_token_upper toks) k = Some (k + i).
Proof.
  induction toks as [|x toks IH]; intros k i t Hnth Ht Hbefore.
  - destruct i; discriminate Hnth.
  - destruct i as [|i]; simpl in Hnth; cbn [map first_pt_cv].
    + injection Hnth as ->. unfold is_pt_cv in Ht. rewrite Ht.
      now rewrite Nat.add_0_r.
    + assert (Hx : is_pt_cv x = false)
        by (apply (Hbefore 0 x); [lia | reflexivity]).
      unfold is_pt_cv in Hx. rewrite Hx.
      rewrite (IH (S k) i t Hnth Ht).
      * f_equal. lia.
      * intros j t' Hj Hn. apply (Hbefore (S j) t'); [lia | exact Hn].
Qed.

Lemma first_pt_cv_none (toks : list string) :
  forall k : nat,
    (forall t, In t toks -> is_pt_cv t = false) ->
    first_pt_cv (map name_token_upper toks) k = None.
Proof.
  induction toks as [|x toks IH]; intros k Hall; cbn [map first_pt_cv];
    [reflexivity|].
  assert (Hx : is_pt_cv x = false) by (apply Hall; now left).
  unfold is_pt_cv in Hx. rewrite Hx.
  apply IH. intros t Ht. apply Hall. now right.
Qed.

Lemma search_from_class_none (f : ascii -> bool) (t : string) :
  (forall a, In a (list_ascii_of_string t) -> f a = false) ->
  forall (i : nat) (p : option ascii),
    Re.search_from (Re.Chr f) i p t = None.
Proof.
  induction t as [|a t IH]; intros Hall i p; [reflexivity|].
  cbn [Re.search_from Re.match_here Re.rmatch].
  rewrite (Hall a (or_introl eq_refl)).
  apply IH. intros b Hb. apply Hall. now right.
Qed.

(** A text without any character of the class is left as it is. *)
Lemma sub_class_absent (f : ascii -> bool) (repl t : string) :
  (forall a, In a (list_ascii_of_string t) -> f a = false) ->
  Re.sub (Re.Chr f) repl t = t.
Proof.
  intros Hall. unfold Re.sub, Re.finditer, Re.search.
  cbn [Re.spans_from]. rewrite (search_from_class_none f t Hall).
  reflexivity.
Qed.

Lemma upper_char_letter (a : ascii) :
  Py.is_upper (Py.upper_char a) = true -> Py.is_alpha a = true.
Proof.
  destruct a as [[] [] [] [] [] [] [] []]; vm_compute; intros H;
    first [reflexivity | discriminate H].
Qed.

Lemma upper_chars (t : string) (a : ascii) :
  In a (list_ascii_of_string t) ->
  In (Py.upper_char a) (list_ascii_of_string (Py.upper t)).
Proof.
  induction t as [|b t IH]; simpl; [intros []|].
  intros [->|H]; [now left | right; now apply IH].
Qed.

(** A token that is a marker once upper-cased consists of letters, so
    stripping its punctuation changes nothing. *)
Lemma marker_token_upper (t : string) :
  In (Py.upper t) CORP_MARKERS -> name_token_upper t = Py.upper t.
Proof.
  intros Hm. unfold name_token_upper. f_equal.
  apply sub_class_absent. intros a Ha.
  assert (Hup : Py.is_upper (Py.upper_char a) = true).
  { assert (Hall : forallb (fun m => forallb Py.is_upper
                                       (list_ascii_of_string m))
                           CORP_MARKERS = true) by (vm_compute; reflexivity).
    rewrite forallb_forall in Hall. specialize (Hall _ Hm).
    rewrite forallb_forall in Hall. apply Hall. now apply upper_chars. }
  apply upper_char_letter in Hup.
  unfold Py.is_word. now rewrite Hup.
Qed.

(** C7 (as amended): a token list is treated as corporate when one of
    its tokens, upper-cased as it stands, is one of the six markers.  A
    corporate list is cut after the first token that is PT or CV once
    its punctuation is stripped, and kept whole when it has no such
    token; any other list keeps its first three tokens, in particular
    every list without a token that is a marker once its punctuation is
    stripped. *)
Theorem C7_kept_name_tokens :
  forall toks : list string,
    (is_corp toks = true <->
     exists t, In t toks /\ In (Py.upper t) CORP_MARKERS)
    /\ (is_corp toks = true ->
        forall (i : nat) (t : string),
          nth_error toks i = Some t ->
          is_pt_cv t = true ->
          (forall j t', j < i -> nth_error toks j = Some t' ->
                        is_pt_cv t' = false) ->
          kept_name_tokens toks = firstn (S i) toks)
    /\ (is_corp toks = true ->
        (forall t, In t toks -> is_pt_cv t = false) ->
        kept_name_tokens toks = toks)
    /\ (is_corp toks = false -> kept_name_tokens toks = firstn 3 toks)
    /\ ((forall t, In t toks ->
                   Py.mem (name_token_upper t) CORP_MARKERS = false) ->
        kept_name_tokens toks = firstn 3 toks).
Proof.
  intros toks. repeat split.
  - unfold is_corp. rewrite existsb_exists.
    intros [t [Hin Hm]]. exists t. split; [exact Hin | now apply mem_In].
  - intros [t [Hin Hm]]. unfold is_corp. rewrite existsb_exists.
    exists t. split; [exact Hin | now apply mem_In].
  - intros Hcorp i t Hnth Ht Hbefore.
    unfold kept_name_tokens, _clean_company_name. rewrite Hcorp.
    change (map (fun t0 => Py.upper (Re.sub NON_NAME_CHAR_RE EmptyString t0)) toks)
      with (map name_token_upper toks).
    rewrite (first_pt_cv_least toks 0 Hnth Ht Hbefore).
    simpl. now rewrite Nat.add_1_r.
  - intros Hcorp Hnone.
    unfold kept_name_tokens, _clean_company_name. rewrite Hcorp.
    change (map (fun t0 => Py.upper (Re.sub NON_NAME_CHAR_RE EmptyString t0)) toks)
      with (map name_token_upper toks).
    now rewrite (first_pt_cv_none toks 0 Hnone).
  - intros Hcorp. unfold kept_name_tokens. now rewrite Hcorp.
  - intros Hnone. unfold kept_name_tokens.
    destruct (is_corp toks) eqn:Hcorp; [|reflexivity].
    unfold is_corp in Hcorp. apply existsb_exists in Hcorp as [t [Hin Hm]].
    apply mem_In in Hm.
    specialize (Hnone t Hin). rewrite (marker_token_upper t Hm) in Hnone.
    apply mem_In in Hm. congruence.
Qed.

(** C7, the claim as written fails: the first token is the marker UD,
    yet the kept tokens are not the tokens up to and including it. *)
Lemma C7_counterexample_ud_not_truncated :
  let toks := ["UD"; "MAJU"; "JAYA"; "ABADI"] in
  nth_error toks 0 = Some "UD"
  /\ Py.mem (name_token_upper "UD") CORP_MARKERS = true
  /\ kept_name_tokens toks = toks
  /\ kept_name_tokens toks <> firstn 1 toks.
Proof.
  cbv zeta. split; [reflexivity|]. split; [vm_compute; reflexivity|].
  split; [vm_compute; reflexivity|].
  vm_compute. intros H. discriminate H.
Qed.

(** ** Priority classification *)

Lemma upper_char_idem (a : ascii) :
  Py.upper_char (Py.upper_char a) = Py.upper_char a.
Proof.
  destruct a as [[] [] [] [] [] [] [] []]; vm_compute; reflexivity.
Qed.

Lemma upper_idem (s : string) : Py.upper (Py.upper s) = Py.upper s.
Proof.
  induction s as [|a s IH]; simpl; [reflexivity|].
  now rewrite upper_char_idem, IH.
Qed.

Lemma upper_app (s t : string) :
  Py.upper (s ++ t)%string = (Py.upper s ++ Py.upper t)%string.
Proof.
  induction s as [|a s IH]; simpl; [reflexivity | now rewrite IH].
Qed.

Lemma upper_take (n : nat) (s : string) :
  Py.upper (Py.take n s) = Py.take n (Py.upper s).
Proof.
  revert s. induction n as [|n IH]; intros [|a s]; simpl; try reflexivity.
  now rewrite IH.
Qed.

Lemma upper_drop (n : nat) (s : string) :
  Py.upper (Py.drop n s) = Py.drop n (Py.upper s).
Proof.
  revert s. induction n as [|n IH]; intros [|a s]; simpl; try reflexivity.
  apply IH.
Qed.

Lemma upper_fixed_lstrip (s : string) :
  Py.upper s = s -> Py.upper (Py.lstrip s) = Py.lstrip s.
Proof.
  induction s as [|a s IH]; simpl; intros H; [reflexivity|].
  injection H as Ha Hs.
  destruct (Py.is_space a); [now apply IH|].
  simpl. now rewrite Ha, Hs.
Qed.

Lemma upper_fixed_rstrip (s : string) :
  Py.upper s = s -> Py.upper (Py.rstrip s) = Py.rstrip s.
Proof.
  induction s as [|a s IH]; simpl; intros H; [reflexivity|].
  injection H as Ha Hs.
  destruct (Py.is_space a && Py.is_empty (Py.rstrip s)); [reflexivity|].
  simpl. now rewrite Ha, IH.
Qed.

Lemma upper_fixed_strip (s : string) :
  Py.upper s = s -> Py.upper (Py.strip s) = Py.strip s.
Proof.
  intros H. unfold Py.strip.
  now apply upper_fixed_rstrip, upper_fixed_lstrip.
Qed.

Lemma upper_fixed_sub_spans (spans : list (nat * nat)) (repl s : string) :
  Py.upper repl = repl -> Py.upper s = s ->
  forall from : nat,
    Py.upper (Re.sub_spans spans repl from s) = Re.sub_spans spans repl from s.
Proof.
  intros Hr Hs. induction spans as [|[a e] spans IH]; intros from; simpl.
  - now rewrite upper_drop, Hs.
  - rewrite !upper_app, IH, Hr. unfold Py.slice.
    now rewrite upper_take, upper_drop, Hs.
Qed.

Lemma upper_fixed_sub (r : Re.regex) (repl s : string) :
  Py.upper repl = repl -> Py.upper s = s ->
  Py.upper (Re.sub r repl s) = Re.sub r repl s.
Proof.
  intros Hr Hs. unfold Re.sub. now apply upper_fixed_sub_spans.
Qed.

Lemma startswith_app_l (p q s : string) :
  Py.startswith (p ++ q)%string s = true -> Py.startswith p s = true.
Proof.
  revert s. induction p as [|a p IH]; intros s H; [now destruct s|].
  destruct s as [|b s]; simpl in H |- *; [discriminate H|].
  apply andb_true_iff in H as [Hab Hp].
  rewrite Hab. simpl. now apply IH.
Qed.

Lemma contains_app_l (p q s : string) :
  Py.contains (p ++ q)%string s = true -> Py.contains p s = true.
Proof.
  induction s as [|b s IH]; simpl; intros H.
  - apply orb_true_iff in H as [H|H]; [|discriminate H].
    apply startswith_app_l in H. now rewrite H.
  - apply orb_true_iff in H as [H|H].
    + apply startswith_app_l in H. now rewrite H.
    + rewrite (IH H). apply orb_true_r.
Qed.

Lemma priority_keys_are_priority (f : string) :
  In f PRIORITY_KEYS -> is_priority_facility f = true.
Proof.
  intros H. unfold PRIORITY_KEYS in H.
  repeat (destruct H as [<-|H]; [vm_compute; reflexivity|]).
  destruct H.
Qed.

(** A facility type that [normalize_fasilitas] leaves uncanonicalised
    contains none of the six canonical types. *)
Lemma normalize_fasilitas_cases (f : string) :
  In (normalize_fasilitas f) PRIORITY_KEYS
  \/ is_priority_facility (normalize_fasilitas f) = false.
Proof.
  unfold normalize_fasilitas.
  set (s := Py.strip (Re.sub SPACES_RE " " (Py.upper (_clean f)))).
  assert (Hs : Py.upper s = s).
  { unfold s. apply upper_fixed_strip, upper_fixed_sub;
      [reflexivity | apply upper_idem]. }
  cbv zeta. fold s.
  destruct (Py.contains "LETTER OF CREDIT" s || Py.contains "L/C" s
            || Re.found (word_re "LC") s) eqn:E1;
    [left; simpl; tauto|].
  destruct (Py.contains "TRUST RECEIPT" s || Re.found (word_re "TR") s) eqn:E2;
    [left; simpl; tauto|].
  destruct (Py.contains "KREDIT MULTI" s || Py.contains "MULTI FASILITAS" s)
    eqn:E3; [left; simpl; tauto|].
  destruct (Py.contains "TIME LOAN" s || Re.found (word_re "TL") s) eqn:E4;
    [left; simpl; tauto|].
  destruct (Py.contains "KREDIT LOKAL" s || Re.found (word_re "KL") s) eqn:E5;
    [left; simpl; tauto|].
  destruct (Py.contains "BANK GARANSI" s || Re.found (word_re "BG") s) eqn:E6;
    [left; simpl; tauto|].
  right.
  apply orb_false_iff in E1 as [E1 _]. apply orb_false_iff in E1 as [_ E1].
  apply orb_false_iff in E2 as [E2 _].
  apply orb_false_iff in E3 as [E3 _].
  apply orb_false_iff in E4 as [E4 _].
  apply orb_false_iff in E5 as [E5 _].
  apply orb_false_iff in E6 as [E6 _].
  assert (E3' : Py.contains "KREDIT MULTI FASILITAS" s = false).
  { destruct (Py.contains "KREDIT MULTI FASILITAS" s) eqn:E; [|reflexivity].
    apply (contains_app_l "KREDIT MULTI" " FASILITAS") in E. congruence. }
  unfold is_priority_facility, PRIORITY_KEYS. rewrite Hs. simpl existsb.
  now rewrite E6, E5, E4, E3', E1, E2.
Qed.

(** C6 (as amended): [is_priority_facility] tests whether the
    upper-cased text contains one of the six canonical types; on a
    facility type produced by [normalize_fasilitas], which is all the
    engine passes to it, this is exact membership in the six. *)
Theorem C6_priority_is_substring_membership :
  forall f : string,
    (is_priority_facility f = true <->
     exists k, In k PRIORITY_KEYS /\ Py.contains k (Py.upper f) = true)
    /\ (is_priority_facility (normalize_fasilitas f) = true <->
        In (normalize_fasilitas f) PRIORITY_KEYS).
Proof.
  intros f. split.
  - unfold is_priority_facility. cbv zeta. apply existsb_exists.
  - split.
    + intros H. destruct (normalize_fasilitas_cases f) as [Hin|Hno];
        [exact Hin | congruence].
    + apply priority_keys_are_priority.
Qed.

(** C6, the claim as written fails: a text that contains a canonical
    type as a proper substring, and a lower-case one, are classified as
    priority although neither is one of the six. *)
Lemma C6_counterexample_proper_substring :
  is_priority_facility "KREDIT LOKAL KHUSUS" = true
  /\ ~ In "KREDIT LOKAL KHUSUS" PRIORITY_KEYS
  /\ is_priority_facility "time loan" = true
  /\ ~ In "time loan" PRIORITY_KEYS.
Proof.
  split; [vm_compute; reflexivity|].
  split; [intros H; simpl in H; repeat (destruct H as [H|H]; [discriminate H|]); exact H|].
  split; [vm_compute; reflexivity|].
  intros H; simpl in H; repeat (destruct H as [H|H]; [discriminate H|]); exact H.
Qed.

(** ** Wrapped-line merger *)

(** The facility-wrap rule does leave letter-of-credit lines alone: when
    the borrower-wrap rule does not apply (the line has an identity
    number, or the next line is missing or has none), a letter-of-credit
    line is passed through unmerged. *)
Lemma lc_line_passes_facility_wrap (line nxt nxt2 : string) :
  is_lc line = true ->
  Re.found CIF_RE line = true \/ nonempty nxt = false
  \/ Re.found CIF_RE nxt = false ->
  merge_step line nxt nxt2 = (_clean line, 1).
Proof.
  intros Hlc Hno. unfold merge_step. rewrite Hlc.
  rewrite andb_false_r.
  destruct Hno as [H|[H|H]]; rewrite H; simpl;
    rewrite ?andb_false_r; reflexivity.
Qed.

(** C8, the code at the failing input: a letter-of-credit line that is
    followed by the line of the next borrower is merged with it by the
    borrower-wrap rule, because the line starts with digits and a
    space.  The merged line no longer yields the new borrower, whose
    facility is then recorded under the previous borrower. *)
Theorem C8_lc_line_is_merged_with_next_borrower :
  is_lc lc_line = true
  /\ merge_step lc_line borrower_line EmptyString
     = ((lc_line ++ " " ++ borrower_line)%string, 2)
  /\ _merge_wrapped [lc_line; borrower_line]
     = [(lc_line ++ " " ++ borrower_line)%string]
  /\ ~ In lc_line (_merge_wrapped [lc_line; borrower_line])
  /\ page_lines (lc_line ++ newline ++ borrower_line)%string
     = [(lc_line ++ " " ++ borrower_line)%string]
  /\ update_borrower (lc_line ++ " " ++ borrower_line)%string
       EmptyString EmptyString = (EmptyString, EmptyString)
  /\ map (fun r => (Nama r, ACC_No r))
         (parse_pdfs_to_raw [doc_lc_then_borrower])
     = [("BUDI (00018964778)", "1234567890");
        ("BUDI (00018964778)", "9988776655")].
Proof.
  split; [vm_compute; reflexivity|].
  split; [vm_compute; reflexivity|].
  split; [vm_compute; reflexivity|].
  split; [vm_compute; intros [H|H]; [discriminate H | exact H]|].
  split; [vm_compute; reflexivity|].
  split; vm_compute; reflexivity.
Qed.

(** ** Deduplication *)

Lemma date_eqb_eq (a b : date) : date_eqb a b = true <-> a = b.
Proof.
  destruct a as [y1 m1 d1], b as [y2 m2 d2]. unfold date_eqb. simpl.
  rewrite !andb_true_iff, !Z.eqb_eq. split.
  - intros [[-> ->] ->]. reflexivity.
  - intros H. injection H as -> -> ->. auto.
Qed.

Lemma opt_eqb_eq {A} (eqb : A -> A -> bool) :
  (forall x y, eqb x y = true <-> x = y) ->
  forall a b : option A, opt_eqb eqb a b = true <-> a = b.
Proof.
  intros Heq [x|] [y|]; simpl; split; intros H;
    try discriminate H; try reflexivity.
  - apply Heq in H. now subst.
  - injection H as ->. now apply Heq.
Qed.

Lemma key_eqb_eq (a b : dedup_key) : key_eqb a b = true <-> a = b.
Proof.
  destruct a as [[[[n1 a1] f1] p1] d1], b as [[[[n2 a2] f2] p2] d2].
  unfold key_eqb.
  rewrite !andb_true_iff, !String.eqb_eq,
    (opt_eqb_eq Z.eqb Z.eqb_eq), (opt_eqb_eq date_eqb date_eqb_eq).
  split.
  - intros [[[[-> ->] ->] ->] ->]. reflexivity.
  - intros H. injection H as -> -> -> -> ->. auto.
Qed.

Lemma key_eqb_refl (a : dedup_key) : key_eqb a a = true.
Proof. now apply key_eqb_eq. Qed.

Lemma key_eqb_sym (a b : dedup_key) : key_eqb a b = key_eqb b a.
Proof.
  destruct (key_eqb a b) eqn:E1, (key_eqb b a) eqn:E2; try reflexivity.
  - apply key_eqb_eq in E1. subst. now rewrite key_eqb_refl in E2.
  - apply key_eqb_eq in E2. subst. now rewrite key_eqb_refl in E1.
Qed.

Lemma seen_key_eqb (k k' : dedup_key) (seen : list dedup_key) :
  key_eqb k k' = true -> seen_key k seen = seen_key k' seen.
Proof. intros H. apply key_eqb_eq in H. now subst. Qed.

Lemma drop_duplicates_from_snoc (l : list row) :
  forall (seen : list dedup_key) (r : row),
    drop_duplicates_from seen (l ++ [r])
    = drop_duplicates_from seen l
      ++ (if seen_key (key_of r) seen || seen_key (key_of r) (map key_of l)
          then [] else [r]).
Proof.
  induction l as [|h l IH]; intros seen r; simpl.
  - rewrite orb_false_r. now destruct (seen_key (key_of r) seen).
  - destruct (seen_key (key_of h) seen) eqn:Hh.
    + rewrite IH. f_equal.
      destruct (key_eqb (key_of r) (key_of h)) eqn:E; [|reflexivity].
      rewrite (seen_key_eqb _ _ seen E), Hh. reflexivity.
    + simpl. rewrite IH. simpl. do 2 f_equal.
      destruct (key_eqb (key_of r) (key_of h)),
        (seen_key (key_of r) seen); reflexivity.
Qed.

Lemma drop_duplicates_from_fresh (l : list row) :
  forall seen : list dedup_key,
    NoDup (map key_of (drop_duplicates_from seen l))
    /\ forall r, In r (drop_duplicates_from seen l) ->
                 seen_key (key_of r) seen = false /\ In r l.
Proof.
  induction l as [|h l IH]; intros seen; simpl.
  - split; [constructor | intros r []].
  - destruct (seen_key (key_of h) seen) eqn:Hh.
    + destruct (IH seen) as [Hnd Hfresh]. split; [exact Hnd|].
      intros r Hr. destruct (Hfresh r Hr). auto.
    + destruct (IH (key_of h :: seen)) as [Hnd Hfresh]. split.
      * simpl. constructor; [|exact Hnd].
        intros Hin. apply in_map_iff in Hin as [r [Hk Hr]].
        destruct (Hfresh r Hr) as [Hs _]. simpl in Hs.
        rewrite Hk, key_eqb_refl in Hs. discriminate Hs.
      * intros r [<-|Hr]; [auto|].
        destruct (Hfresh r Hr) as [Hs Hin]. simpl in Hs.
        apply orb_false_iff in Hs as [_ Hs]. auto.
Qed.

Lemma drop_duplicates_from_find (l : list row) :
  forall (seen : list dedup_key) (k : dedup_key),
    seen_key k seen = false ->
    find (has_key k) (drop_duplicates_from seen l) = find (has_key k) l.
Proof.
  induction l as [|h l IH]; intros seen k Hk; simpl; [reflexivity|].
  unfold has_key at 2.
  destruct (key_eqb (key_of h) k) eqn:E.
  - assert (Hh : seen_key (key_of h) seen = false)
      by (now rewrite (seen_key_eqb _ _ seen E)).
    rewrite Hh. simpl. unfold has_key at 1. now rewrite E.
  - destruct (seen_key (key_of h) seen).
    + now apply IH.
    + simpl. unfold has_key at 1. rewrite E. apply IH.
      simpl. now rewrite key_eqb_sym, E.
Qed.

Lemma drop_duplicates_from_idem (l : list row) :
  forall seen : list dedup_key,
    drop_duplicates_from seen (drop_duplicates_from seen l)
    = drop_duplicates_from seen l.
Proof.
  induction l as [|h l IH]; intros seen; simpl; [reflexivity|].
  destruct (seen_key (key_of h) seen) eqn:Hh; [apply IH|].
  simpl. rewrite Hh. f_equal. apply IH.
Qed.

Lemma drop_duplicates_incl (l : list row) (r : row) :
  In r (drop_duplicates l) -> In r l.
Proof.
  intros H. now destruct (drop_duplicates_from_fresh l []) as [_ Hf];
    destruct (Hf r H).
Qed.

Lemma drop_duplicates_keeps_key (l : list row) (r : row) :
  In r l ->
  exists r', In r' (drop_duplicates l) /\ key_of r' = key_of r.
Proof.
  intros Hin.
  destruct (find (has_key (key_of r)) l) as [r0|] eqn:Hfind.
  - exists r0. split.
    + assert (H : find (has_key (key_of r)) (drop_duplicates l) = Some r0)
        by (unfold drop_duplicates;
            now rewrite drop_duplicates_from_find).
      now apply find_some in H.
    + apply find_some in Hfind as [_ Hk]. now apply key_eqb_eq in Hk.
  - apply (find_none _ _ Hfind) in Hin. unfold has_key in Hin.
    now rewrite key_eqb_refl in Hin.
Qed.

Lemma key_of_columns (r1 r2 : row) :
  key_of r1 = key_of r2 <-> same_five_columns r1 r2.
Proof.
  unfold key_of, same_five_columns. split.
  - intros H. injection H as H1 H2 H3 H4 H5. auto.
  - intros [-> [-> [-> [-> ->]]]]. reflexivity.
Qed.

Lemma seen_key_In (k : dedup_key) (l : list row) :
  seen_key k (map key_of l) = true <-> exists r, In r l /\ key_of r = k.
Proof.
  unfold seen_key. rewrite existsb_exists. split.
  - intros [k' [Hin He]]. apply key_eqb_eq in He. subst k'.
    apply in_map_iff in Hin as [r [E Hr]]. now exists r.
  - intros [r [Hr <-]]. exists (key_of r).
    split; [now apply in_map | apply key_eqb_refl].
Qed.

Lemma has_key_iff (k : dedup_key) (r : row) :
  has_key k r = true <-> key_of r = k.
Proof. unfold has_key. apply key_eqb_eq. Qed.

Lemma seen_columns (l : list row) (r : row) :
  seen_key (key_of r) (map key_of l) = true
  <-> exists r', In r' l /\ same_five_columns r' r.
Proof.
  rewrite seen_key_In. split; intros [r' [Hin H]]; exists r';
    (split; [exact Hin | now apply key_of_columns]).
Qed.

Lemma drop_duplicates_snoc (l : list row) (r : row) :
  drop_duplicates (l ++ [r])
  = drop_duplicates l
    ++ (if seen_key (key_of r) (map key_of l) then [] else [r]).
Proof. unfold drop_duplicates. now rewrite drop_duplicates_from_snoc. Qed.

Lemma drop_duplicates_In_first (rs : list row) (r : row) :
  In r (drop_duplicates rs)
  <-> exists l1 l2,
        rs = l1 ++ r :: l2
        /\ forall x, In x l1 -> ~ same_five_columns x r.
Proof.
  induction rs as [|x l IH] using rev_ind.
  - split; [intros []|]. intros [l1 [l2 [E _]]]. destruct l1; discriminate E.
  - rewrite drop_duplicates_snoc, in_app_iff, IH. split.
    + intros [[l1 [l2 [-> Hl1]]]|Hx].
      * exists l1, (l2 ++ [x]). split; [|exact Hl1].
        now rewrite <- app_assoc.
      * destruct (seen_key (key_of x) (map key_of l)) eqn:Es;
          [destruct Hx|].
        destruct Hx as [<-|[]]. exists l, []. split; [reflexivity|].
        intros y Hy Hsame.
        assert (H : seen_key (key_of x) (map key_of l) = true)
          by (apply seen_columns; now exists y).
        congruence.
    + intros [l1 [l2 [E Hl1]]].
      destruct l2 as [|a l2'].
      * apply app_inj_tail in E as [-> ->]. right.
        destruct (seen_key (key_of r) (map key_of l1)) eqn:Es;
          [|now left].
        apply seen_columns in Es as [r' [Hin Hsame]].
        now elim (Hl1 r' Hin).
      * destruct (@exists_last _ (a :: l2') ltac:(discriminate))
          as [l2'' [z Ez]].
        rewrite Ez in E.
        change (l1 ++ r :: l2'' ++ [z]) with (l1 ++ (r :: l2'') ++ [z]) in E.
        rewrite app_assoc in E. apply app_inj_tail in E as [-> _].
        left. now exists l1, l2''.
Qed.

Lemma drop_duplicates_positions (rs : list row) (i j : nat) (r1 r2 : row) :
  nth_error (drop_duplicates rs) i = Some r1 ->
  nth_error (drop_duplicates rs) j = Some r2 ->
  same_five_columns r1 r2 -> i = j.
Proof.
  intros H1 H2 Hsame. apply key_of_columns in Hsame.
  destruct (drop_duplicates_from_fresh rs []) as [Hnd _].
  fold (drop_duplicates rs) in Hnd.
  apply (proj1 (NoDup_nth_error _) Hnd).
  - rewrite length_map. apply nth_error_Some. now rewrite H1.
  - now rewrite (map_nth_error key_of _ _ H1), (map_nth_error key_of _ _ H2),
      Hsame.
Qed.

(** C9: the deduplicator compares records on the five columns borrower
    display, account number, facility type, amount and maturity date.
    It goes through the records in input order and keeps a record
    exactly when no earlier record agrees with it on the five columns;
    so no two kept records agree on them, the kept records are exactly
    those that are the first of the input with their five values, in
    input order, and deduplicating twice is deduplicating once. *)
Theorem C9_drop_duplicates_first_wins_and_idempotent :
  (forall r1 r2 : row, key_of r1 = key_of r2 <-> same_five_columns r1 r2)
  /\ (forall (k : dedup_key) (l : list row),
        seen_key k (map key_of l) = true
        <-> exists r, In r l /\ key_of r = k)
  /\ (forall (k : dedup_key) (r : row), has_key k r = true <-> key_of r = k)
  /\ drop_duplicates [] = []
  /\ (forall (l : list row) (r : row),
        drop_duplicates (l ++ [r])
        = drop_duplicates l
          ++ (if seen_key (key_of r) (map key_of l) then [] else [r]))
  /\ (forall (l : list row) (r : row),
        (exists r', In r' l /\ same_five_columns r' r) ->
        drop_duplicates (l ++ [r]) = drop_duplicates l)
  /\ (forall (l : list row) (r : row),
        (forall r', In r' l -> ~ same_five_columns r' r) ->
        drop_duplicates (l ++ [r]) = drop_duplicates l ++ [r])
  /\ (forall rs : list row, NoDup (map key_of (drop_duplicates rs)))
  /\ (forall (rs : list row) (i j : nat) (r1 r2 : row),
        nth_error (drop_duplicates rs) i = Some r1 ->
        nth_error (drop_duplicates rs) j = Some r2 ->
        same_five_columns r1 r2 -> i = j)
  /\ (forall (rs : list row) (k : dedup_key),
        find (has_key k) (drop_duplicates rs) = find (has_key k) rs)
  /\ (forall (rs : list row) (r : row),
        In r (drop_duplicates rs)
        <-> exists l1 l2,
              rs = l1 ++ r :: l2
              /\ forall x, In x l1 -> ~ same_five_columns x r)
  /\ (forall rs : list row,
        drop_duplicates (drop_duplicates rs) = drop_duplicates rs).
Proof.
  split; [exact key_of_columns|]. split; [exact seen_key_In|].
  split; [exact has_key_iff|]. split; [reflexivity|].
  split; [exact drop_duplicates_snoc|].
  split; [|split; [|split; [|split; [|split; [|split]]]]].
  - intros l r H. apply seen_columns in H.
    now rewrite drop_duplicates_snoc, H, app_nil_r.
  - intros l r H. rewrite drop_duplicates_snoc.
    destruct (seen_key (key_of r) (map key_of l)) eqn:Es; [|reflexivity].
    apply seen_columns in Es as [r' [Hin Hsame]]. now elim (H r' Hin).
  - intros rs. apply (drop_duplicates_from_fresh rs []).
  - exact drop_duplicates_positions.
  - intros rs k. now apply drop_duplicates_from_find.
  - exact drop_duplicates_In_first.
  - intros rs. apply drop_duplicates_from_idem.
Qed.

(** ** The account-to-borrower mapping *)

Lemma functional_drop_duplicates (l : list row) :
  acc_to_nama_functional (drop_duplicates l) <-> acc_to_nama_functional l.
Proof.
  unfold acc_to_nama_functional. split; intros H r1 r2 H1 H2 Hacc.
  - destruct (drop_duplicates_keeps_key l r1 H1) as [r1' [Hin1 Hk1]].
    destruct (drop_duplicates_keeps_key l r2 H2) as [r2' [Hin2 Hk2]].
    unfold key_of in Hk1, Hk2.
    injection Hk1 as Hn1 Ha1 _ _ _. injection Hk2 as Hn2 Ha2 _ _ _.
    rewrite <- Hn1, <- Hn2. apply H; [exact Hin1 | exact Hin2 | congruence].
  - apply H; [now apply drop_duplicates_incl
             | now apply drop_duplicates_incl | exact Hacc].
Qed.

Lemma functional_same_pairs (l1 l2 : list row) :
  map (fun r => (ACC_No r, Nama r)) l1 = map (fun r => (ACC_No r, Nama r)) l2 ->
  acc_to_nama_functional l1 <-> acc_to_nama_functional l2.
Proof.
  assert (H : forall l1 l2 : list row,
             map (fun r => (ACC_No r, Nama r)) l1
             = map (fun r => (ACC_No r, Nama r)) l2 ->
             acc_to_nama_functional l1 -> acc_to_nama_functional l2).
  { clear. intros l1 l2 E H r1 r2 H1 H2 Hacc.
    apply (in_map (fun r => (ACC_No r, Nama r))) in H1, H2.
    rewrite <- E in H1, H2.
    apply in_map_iff in H1 as [x1 [E1 Hx1]].
    apply in_map_iff in H2 as [x2 [E2 Hx2]].
    injection E1 as Ea1 En1. injection E2 as Ea2 En2.
    rewrite <- En1, <- En2. apply H; [exact Hx1 | exact Hx2 | congruence]. }
  intros E. split; apply H; [exact E | now symmetry].
Qed.

(** Building the frame leaves the borrower and the account number of
    every record as they are. *)
Lemma tidy_frame_pairs (rs : list row) :
  map (fun r => (ACC_No r, Nama r)) (map tidy_row (DataFrame rs))
  = map (fun r => (ACC_No r, Nama r)) (map tidy_row rs).
Proof.
  unfold DataFrame. rewrite !map_map. apply map_ext. reflexivity.
Qed.

(** C1 (as amended): the engine has no guard for the uniqueness of the
    borrower of an account number; deduplication neither breaks nor
    repairs it, so the mapping from [ACC No] to [Nama] is a function
    over the output exactly when it is one over the emitted records. *)
Theorem C1_uniqueness_is_that_of_the_emitted_records :
  forall docs : list document,
    acc_to_nama_functional (parse_pdfs_to_raw docs)
    <-> acc_to_nama_functional
          (map tidy_row (rows (scan_documents false docs))).
Proof.
  intros docs. unfold parse_pdfs_to_raw, parse_pdfs_to_raw_debug.
  rewrite functional_drop_duplicates.
  apply functional_same_pairs. apply tidy_frame_pairs.
Qed.

(** C1, the claim as written fails: a page that prints one account
    number under two borrowers yields two records with that account
    number and different borrower displays. *)
Lemma C1_counterexample_shared_account :
  parse_pdfs_to_raw [doc_shared_account]
  = [mkrow "UTOMO (00018964777)" "1234567890" "KDS" "BANK GARANSI"
           (Some 50000%Z) (Some (mkdate 2024 1 1)) "SME_KDS.PDF" true;
     mkrow "BUDI (00018964778)" "1234567890" "KDS" "BANK GARANSI"
           (Some 50000%Z) (Some (mkdate 2024 1 1)) "SME_KDS.PDF" true]
  /\ ~ acc_to_nama_functional (parse_pdfs_to_raw [doc_shared_account]).
Proof.
  assert (E : parse_pdfs_to_raw [doc_shared_account]
              = [mkrow "UTOMO (00018964777)" "1234567890" "KDS" "BANK GARANSI"
                       (Some 50000%Z) (Some (mkdate 2024 1 1)) "SME_KDS.PDF" true;
                 mkrow "BUDI (00018964778)" "1234567890" "KDS" "BANK GARANSI"
                       (Some 50000%Z) (Some (mkdate 2024 1 1)) "SME_KDS.PDF" true])
    by (vm_compute; reflexivity).
  split; [exact E|].
  rewrite E. intros H.
  specialize (H _ _ (or_introl eq_refl) (or_intror (or_introl eq_refl)) eq_refl).
  discriminate H.
Qed.

(** ** Record assembly *)

(** C3: a line appends a record to [rows] only when it is not a noise
    line, a facility was parsed from it and the borrower context (after
    the line's own borrower update) has a non-empty name and identity
    number; the record is then built from that context and facility.  A
    line whose facility parses while no context is active leaves [rows]
    and the account-number hint unchanged and at most prints one
    diagnostic line, which it does only when diagnostics are enabled; a
    line without facility leaves [rows] unchanged.  [process_line] is a
    total function: no case raises. *)
Theorem C3_record_requires_facility_and_active_borrower :
  forall (debug : bool) (cabang_code sumber : string) (page_i ln_i : nat)
         (st : state) (ln0 : string),
    let ln := _clean ln0 in
    let st' := process_line debug cabang_code sumber page_i ln_i st ln0 in
    let active := nonempty (current_name st') && nonempty (current_cif st') in
    (rows st' = rows st
     \/ exists fac,
          _is_noise ln = false
          /\ parse_facility ln (last_acc st) = Some fac
          /\ active = true
          /\ rows st'
             = rows st ++ [record_of (current_name st') (current_cif st')
                                     cabang_code sumber fac])
    /\ (forall fac,
          parse_facility ln (last_acc st) = Some fac ->
          active = false ->
          rows st' = rows st
          /\ last_acc st' = last_acc st
          /\ (printed st' = printed st
              \/ (debug = true
                  /\ printed st'
                     = printed st ++ [orphan_message page_i ln_i ln])))
    /\ (parse_facility ln (last_acc st) = None -> rows st' = rows st).
Proof.
  intros debug cabang_code sumber page_i ln_i st ln0. cbv zeta.
  unfold process_line.
  destruct (_is_noise (_clean ln0)) eqn:Hnoise.
  - split; [now left|]. split; [|reflexivity].
    intros fac _ _. split; [reflexivity|]. split; [reflexivity | now left].
  - destruct (update_borrower (_clean ln0) (current_name st) (current_cif st))
      as [name cif] eqn:Hupd.
    destruct (parse_facility (_clean ln0) (last_acc st)) as [fac|] eqn:Hfac;
      destruct (nonempty name && nonempty cif) eqn:Hact; simpl.
    + rewrite Hact. split.
      * right. exists fac. repeat split; reflexivity.
      * split; [intros fac' _ H; discriminate H | intros H; discriminate H].
    + rewrite Hact. split; [now left|]. split.
      * intros fac' _ _. split; [reflexivity|]. split; [reflexivity|].
        rewrite andb_true_r.
        destruct (debug && (Re.found ACC_RE (_clean ln0)
                            && Re.found DATE_RE (_clean ln0))) eqn:Hd;
          [|now left].
        right. apply andb_true_iff in Hd as [Hd _]. now split.
      * intros H; discriminate H.
    + split; [now left|]. split; [intros fac H; discriminate H | reflexivity].
    + split; [now left|]. split; [intros fac H; discriminate H | reflexivity].
Qed.

(** What one line, one page and one file add to [rows]: records carrying
    the name of the file being scanned, appended at the end. *)
Lemma process_line_appends
      (debug : bool) (cabang_code sumber : string) (page_i ln_i : nat)
      (st : state) (ln0 : string) :
  exists emitted,
    rows (process_line debug cabang_code sumber page_i ln_i st ln0)
    = rows st ++ emitted
    /\ forall r, In r emitted -> SumberFile r = sumber.
Proof.
  unfold process_line.
  destruct (_is_noise (_clean ln0)).
  - exists []. split; [now rewrite app_nil_r | intros r []].
  - destruct (update_borrower _ _ _) as [name cif].
    destruct (parse_facility _ _) as [fac|];
      destruct (nonempty name && nonempty cif); simpl;
      try (exists []; split; [now rewrite app_nil_r | intros r []]).
    eexists. split; [reflexivity|].
    intros r [<-|[]]. reflexivity.
Qed.

Lemma process_lines_appends
      (debug : bool) (cabang_code sumber : string) (page_i : nat)
      (lines : list string) :
  forall (ln_i : nat) (st : state),
  exists emitted,
    rows (process_lines debug cabang_code sumber page_i ln_i st lines)
    = rows st ++ emitted
    /\ forall r, In r emitted -> SumberFile r = sumber.
Proof.
  induction lines as [|ln lines IH]; intros ln_i st; simpl.
  - exists []. split; [now rewrite app_nil_r | intros r []].
  - destruct (process_line_appends debug cabang_code sumber page_i ln_i st ln)
      as [e1 [H1 S1]].
    destruct (IH (S ln_i)
                 (process_line debug cabang_code sumber page_i ln_i st ln))
      as [e2 [H2 S2]].
    exists (e1 ++ e2). split.
    + now rewrite H2, H1, app_assoc.
    + intros r Hr. apply in_app_or in Hr as [Hr|Hr]; auto.
Qed.

Lemma process_pages_appends
      (debug : bool) (cabang_code sumber : string) (texts : list string) :
  forall (page_i : nat) (st : state),
  exists emitted,
    rows (process_pages debug cabang_code sumber page_i st texts)
    = rows st ++ emitted
    /\ forall r, In r emitted -> SumberFile r = sumber.
Proof.
  induction texts as [|text texts IH]; intros page_i st; simpl.
  - exists []. split; [now rewrite app_nil_r | intros r []].
  - destruct (process_lines_appends debug cabang_code sumber page_i
                (page_lines text) 1 st) as [e1 [H1 S1]].
    destruct (IH (S page_i)
                 (process_lines debug cabang_code sumber page_i 1 st
                    (page_lines text))) as [e2 [H2 S2]].
    exists (e1 ++ e2). split.
    + now rewrite H2, H1, app_assoc.
    + intros r Hr. apply in_app_or in Hr as [Hr|Hr]; auto.
Qed.

(** C2 (as amended): the borrower context and the account-number hint
    are initialised once, empty, before the first file, and are then
    carried from each file into the next: the scan of a further file
    starts from the state the files before it left behind, and adds
    records that carry its own file name after the records already
    emitted. *)
Theorem C2_state_is_carried_from_file_to_file :
  forall (debug : bool) (docs : list document) (d : document),
    (current_name (scan_documents debug []) = EmptyString
     /\ current_cif (scan_documents debug []) = EmptyString
     /\ last_acc (scan_documents debug []) = None)
    /\ scan_documents debug (docs ++ [d])
       = process_document debug (scan_documents debug docs) d
    /\ exists emitted,
         rows (scan_documents debug (docs ++ [d]))
         = rows (scan_documents debug docs) ++ emitted
         /\ forall r, In r emitted -> SumberFile r = file_name d.
Proof.
  intros debug docs d.
  assert (Hstep : scan_documents debug (docs ++ [d])
                  = process_document debug (scan_documents debug docs) d)
    by (unfold scan_documents; now rewrite fold_left_app).
  split; [repeat split|]. split; [exact Hstep|].
  rewrite Hstep. unfold process_document.
  apply process_pages_appends.
Qed.

(** C2, the claim as written fails: when the second file is scanned the
    context and the hint still hold the borrower and the account number
    of the first file, and the record emitted for the second file uses
    both; scanned alone, the second file yields no record. *)
Lemma C2_counterexample_context_crosses_files :
  current_name (scan_documents false [doc_kds]) = "UTOMO"
  /\ current_cif (scan_documents false [doc_kds]) = "00018964777"
  /\ last_acc (scan_documents false [doc_kds]) = Some "1234567890"
  /\ parse_pdfs_to_raw [doc_kds; doc_smg]
     = [mkrow "UTOMO (00018964777)" "1234567890" "KDS" "BANK GARANSI"
              (Some 50000%Z) (Some (mkdate 2024 1 1)) "SME_KDS.PDF" true;
        mkrow "UTOMO (00018964777)" "1234567890" "SMG" "TIME LOAN"
              (Some 70000%Z) (Some (mkdate 2025 1 1)) "SME_SMG.PDF" true]
  /\ parse_pdfs_to_raw [doc_smg] = [].
Proof.
  repeat split; vm_compute; reflexivity.
Qed.

(** ** Priority partition *)

Lemma lookup_map_keys {V} (f : string -> V) (keys : list string) (n : string) :
  lookup n (map (fun k => (k, f k)) keys)
  = if Py.mem n keys then Some (f n) else None.
Proof.
  induction keys as [|k keys IH]; simpl; [reflexivity|].
  rewrite (String.eqb_sym n k).
  destruct (String.eqb_spec k n) as [->|Hne]; [reflexivity | exact IH].
Qed.

Lemma group_keys_mem (df : frame) (r : row) :
  In r df -> Py.mem (Nama r) (group_keys df) = true.
Proof.
  induction df as [|h df IH]; simpl; intros H; [destruct H|].
  destruct (Py.mem (Nama h) (group_keys df)) eqn:Hh.
  - destruct H as [<-|H]; [exact Hh | now apply IH].
  - simpl. destruct H as [<-|H].
    + now rewrite String.eqb_refl.
    + rewrite (IH H). apply orb_true_r.
Qed.

Lemma group_In (df : frame) (n : string) (r : row) :
  In r (group df n) <-> In r df /\ Nama r = n.
Proof.
  unfold group. rewrite filter_In. now rewrite String.eqb_eq.
Qed.

Lemma group_any_priority (df : frame) (n : string) :
  existsb IsPriority (group df n) = true
  <-> exists r, In r df /\ Nama r = n /\ IsPriority r = true.
Proof.
  rewrite existsb_exists. split.
  - intros [r [Hin Hp]]. apply group_In in Hin as [Hin Hn]. now exists r.
  - intros [r [Hin [Hn Hp]]]. exists r. split; [now apply group_In | exact Hp].
Qed.

Lemma HasPriority_in (df : frame) (r : row) :
  In r df ->
  HasPriority df r = Some (existsb IsPriority (group df (Nama r))).
Proof.
  intros H. unfold HasPriority, has_pri.
  now rewrite (lookup_map_keys (fun n => existsb IsPriority (group df n))),
    (group_keys_mem df r H).
Qed.

Lemma filter_comm {A} (p q : A -> bool) (l : list A) :
  filter p (filter q l) = filter q (filter p l).
Proof.
  induction l as [|x l IH]; simpl; [reflexivity|].
  destruct (q x) eqn:Hq, (p x) eqn:Hp; simpl;
    rewrite ?Hq, ?Hp, IH; reflexivity.
Qed.

Lemma filter_all {A} (p : A -> bool) (l : list A) :
  (forall x, In x l -> p x = true) -> filter p l = l.
Proof.
  induction l as [|x l IH]; simpl; intros H; [reflexivity|].
  rewrite (H x (or_introl eq_refl)), IH; [reflexivity|].
  intros y Hy. apply H. now right.
Qed.

Lemma split_priority_pri (df : frame) :
  fst (_split_priority df) = filter IsPriority df.
Proof.
  unfold _split_priority. simpl. apply filter_ext_in.
  intros r Hin. rewrite (HasPriority_in df r Hin).
  destruct (IsPriority r) eqn:Hp; [|apply andb_false_r].
  assert (H : existsb IsPriority (group df (Nama r)) = true)
    by (apply group_any_priority; now exists r).
  now rewrite H.
Qed.

Lemma split_priority_non (df : frame) :
  snd (_split_priority df)
  = filter (fun r => negb (existsb IsPriority (group df (Nama r)))) df.
Proof.
  unfold _split_priority. simpl. apply filter_ext_in.
  intros r Hin. rewrite (HasPriority_in df r Hin).
  now destruct (existsb IsPriority (group df (Nama r))).
Qed.

(** C4: a borrower has rows in the priority view exactly when one of its
    records is flagged [IsPriority], and its rows there are exactly its
    flagged rows; a borrower without flagged record has all its rows,
    in order, in the non-priority view, which holds no row of any other
    borrower; no borrower is in both views; an unflagged row of a
    borrower that has a flagged record is in neither. *)
Theorem C4_split_priority_partition :
  forall df : frame,
    let pri := fst (_split_priority df) in
    let non := snd (_split_priority df) in
    (forall n,
        (exists r, In r pri /\ Nama r = n)
        <-> (exists r, In r df /\ Nama r = n /\ IsPriority r = true))
    /\ (forall n, group pri n = filter IsPriority (group df n))
    /\ (forall n,
           (forall r, In r df -> Nama r = n -> IsPriority r = false) ->
           group non n = group df n)
    /\ (forall r,
           In r non ->
           In r df
           /\ forall r', In r' df -> Nama r' = Nama r -> IsPriority r' = false)
    /\ (forall r1 r2, In r1 pri -> In r2 non -> Nama r1 <> Nama r2)
    /\ (forall r,
           In r df -> IsPriority r = false ->
           (exists r', In r' df /\ Nama r' = Nama r /\ IsPriority r' = true) ->
           ~ In r pri /\ ~ In r non).
Proof.
  intros df. cbv zeta.
  rewrite split_priority_pri, split_priority_non.
  assert (Hnon : forall r,
             In r (filter (fun r => negb (existsb IsPriority
                                            (group df (Nama r)))) df) ->
             In r df
             /\ forall r', In r' df -> Nama r' = Nama r ->
                           IsPriority r' = false).
  { intros r Hr. apply filter_In in Hr as [Hin Hno]. split; [exact Hin|].
    intros r' Hin' Hn. destruct (IsPriority r') eqn:Hp; [|reflexivity].
    assert (H : existsb IsPriority (group df (Nama r)) = true)
      by (apply group_any_priority; now exists r').
    rewrite H in Hno. discriminate Hno. }
  split; [|split; [|split; [|split; [|split]]]].
  - intros n. split.
    + intros [r [Hr Hn]]. apply filter_In in Hr as [Hin Hp]. now exists r.
    + intros [r [Hin [Hn Hp]]]. exists r. split; [|exact Hn].
      apply filter_In. now split.
  - intros n. unfold group. apply filter_comm.
  - intros n Hnone. unfold group. rewrite filter_comm.
    apply filter_all. intros r Hr.
    apply (group_In df n r) in Hr as [Hin Hn].
    destruct (existsb IsPriority (group df (Nama r))) eqn:E;
      [|fold (group df (Nama r)); now rewrite E].
    apply group_any_priority in E as [r' [Hin' [Hn' Hp']]].
    rewrite (Hnone r' Hin') in Hp'; [discriminate Hp' | congruence].
  - exact Hnon.
  - intros r1 r2 H1 H2 Heq.
    apply filter_In in H1 as [Hin1 Hp1].
    destruct (Hnon r2 H2) as [_ Hall].
    rewrite (Hall r1 Hin1 Heq) in Hp1. discriminate Hp1.
  - intros r Hin Hp [r' [Hin' [Hn' Hp']]]. split.
    + intros H. apply filter_In in H as [_ H]. congruence.
    + intros H. destruct (Hnon r H) as [_ Hall].
      rewrite (Hall r' Hin' Hn') in Hp'. discriminate Hp'.
Qed.

(** ** Ordering *)

Section OrderLaws.

Lemma lex_eq (c1 c2 : comparison) : lex c1 c2 = Eq <-> c1 = Eq /\ c2 = Eq.
Proof. destruct c1, c2; simpl; intuition discriminate. Qed.

Lemma lex_lt (c1 c2 : comparison) :
  lex c1 c2 = Lt <-> c1 = Lt \/ (c1 = Eq /\ c2 = Lt).
Proof. destruct c1, c2; simpl; intuition discriminate. Qed.

Lemma lex_opp (c1 c2 : comparison) :
  CompOpp (lex c1 c2) = lex (CompOpp c1) (CompOpp c2).
Proof. now destruct c1, c2. Qed.


Context {A B : Type}.
Variable cmpA : A -> A -> comparison.
Variable cmpB : B -> B -> comparison.
Hypothesis lawsA : order_laws cmpA.
Hypothesis lawsB : order_laws cmpB.

Lemma cmp_refl (a : A) : cmpA a a = Eq.
Proof. now apply (cmp_eq lawsA). Qed.

Lemma cmp_le_total (a b : A) : cmp_le cmpA a b \/ cmp_le cmpA b a.
Proof.
  unfold cmp_le. rewrite (cmp_opp lawsA a b).
  destruct (cmpA a b); simpl; [left | left | right]; discriminate.
Qed.

Lemma cmp_le_trans (a b c : A) :
  cmp_le cmpA a b -> cmp_le cmpA b c -> cmp_le cmpA a c.
Proof.
  unfold cmp_le. intros Hab Hbc.
  destruct (cmpA a b) eqn:E1; [| |congruence].
  - apply (cmp_eq lawsA) in E1. now subst.
  - destruct (cmpA b c) eqn:E2; [| |congruence].
    + apply (cmp_eq lawsA) in E2. subst. now rewrite E1.
    + now rewrite (cmp_lt_trans lawsA a b c E1 E2).
Qed.


Lemma pair_compare_laws : order_laws (pair_compare cmpA cmpB).
Proof.
  constructor.
  - intros [a1 b1] [a2 b2]. unfold pair_compare. simpl.
    rewrite lex_eq, (cmp_eq lawsA), (cmp_eq lawsB). split.
    + intros [-> ->]. reflexivity.
    + intros H. injection H as -> ->. auto.
  - intros [a1 b1] [a2 b2]. unfold pair_compare. simpl.
    now rewrite lex_opp, <- (cmp_opp lawsA), <- (cmp_opp lawsB).
  - intros [a1 b1] [a2 b2] [a3 b3]. unfold pair_compare. simpl.
    rewrite !lex_lt.
    intros [H1|[H1 H1']] [H2|[H2 H2']].
    + left. now apply (cmp_lt_trans lawsA a1 a2 a3).
    + apply (cmp_eq lawsA) in H2. subst. now left.
    + apply (cmp_eq lawsA) in H1. subst. now left.
    + apply (cmp_eq lawsA) in H1. apply (cmp_eq lawsA) in H2. subst.
      right. split; [apply cmp_refl|].
      now apply (cmp_lt_trans lawsB b1 b2 b3).
Qed.

Lemma na_last_compare_laws : order_laws (na_last_compare cmpA).
Proof.
  constructor.
  - intros [a|] [b|]; simpl; try (split; intros H; discriminate H).
    + rewrite (cmp_eq lawsA). split; [now intros -> | now intros [= ->]].
    + split; reflexivity.
  - intros [a|] [b|]; simpl; try reflexivity. apply (cmp_opp lawsA).
  - intros [a|] [b|] [c|]; simpl; intros H1 H2;
      try discriminate; try reflexivity.
    now apply (cmp_lt_trans lawsA a b c).
Qed.


Lemma injective_compare_laws {C : Type} (f : C -> A) :
  (forall x y, f x = f y -> x = y) ->
  order_laws (fun x y => cmpA (f x) (f y)).
Proof.
  intros Hinj. constructor.
  - intros x y. rewrite (cmp_eq lawsA). split; [apply Hinj | now intros ->].
  - intros x y. apply (cmp_opp lawsA).
  - intros x y z. apply (cmp_lt_trans lawsA).
Qed.

End OrderLaws.

Lemma Z_compare_laws : order_laws Z.compare.
Proof.
  constructor.
  - apply Z.compare_eq_iff.
  - intros a b. apply Z.compare_antisym.
  - intros a b c. rewrite !Z.compare_lt_iff. apply Z.lt_trans.
Qed.

Lemma nat_compare_laws : order_laws Nat.compare.
Proof.
  constructor.
  - apply Nat.compare_eq_iff.
  - intros a b. apply Nat.compare_antisym.
  - intros a b c. rewrite !Nat.compare_lt_iff. apply Nat.lt_trans.
Qed.

Lemma date_compare_laws : order_laws date_compare.
Proof.
  apply (injective_compare_laws
           (pair_compare_laws Z_compare_laws
              (pair_compare_laws Z_compare_laws Z_compare_laws))
           date_triple).
  intros [y1 m1 d1] [y2 m2 d2] H. unfold date_triple in H. simpl in H.
  now injection H as -> -> ->.
Qed.

Lemma code_injective (x y : ascii) : Py.code x = Py.code y -> x = y.
Proof.
  unfold Py.code. intros H.
  rewrite <- (ascii_nat_embedding x), <- (ascii_nat_embedding y).
  now rewrite H.
Qed.

Lemma str_compare_laws : order_laws str_compare.
Proof.
  constructor.
  - induction a as [|x a IH]; intros [|y b]; simpl;
      try (split; intros H; discriminate H); [split; reflexivity|].
    rewrite lex_eq, Nat.compare_eq_iff, IH. split.
    + intros [Hc ->]. now rewrite (code_injective _ _ Hc).
    + intros H. injection H as -> ->. auto.
  - induction a as [|x a IH]; intros [|y b]; simpl; try reflexivity.
    now rewrite lex_opp, <- IH, <- Nat.compare_antisym.
  - induction a as [|x a IH]; intros [|y b] [|z c]; simpl;
      try discriminate; try reflexivity.
    rewrite !lex_lt, !Nat.compare_lt_iff, !Nat.compare_eq_iff.
    intros [H1|[H1 H1']] [H2|[H2 H2']].
    + left. lia.
    + left. lia.
    + left. lia.
    + right. split; [lia|]. now apply (IH b c).
Qed.

Lemma block_compare_laws : order_laws block_compare.
Proof.
  apply pair_compare_laws;
    [apply na_last_compare_laws, date_compare_laws | apply str_compare_laws].
Qed.

Lemma inner_compare_laws : order_laws inner_compare.
Proof.
  apply pair_compare_laws;
    [apply na_last_compare_laws, date_compare_laws
    | apply pair_compare_laws; apply str_compare_laws].
Qed.

Lemma key_compare_laws : order_laws key_compare.
Proof.
  apply pair_compare_laws;
    [apply block_compare_laws | apply inner_compare_laws].
Qed.

Lemma key_leb_le (a b : sort_key) :
  key_leb a b = true <-> cmp_le key_compare a b.
Proof.
  unfold key_leb, cmp_le. destruct (key_compare a b);
    split; intros H; try reflexivity; try discriminate; congruence.
Qed.

Section StableSort.

Context {A : Type}.
Variable key : A -> sort_key.

Lemma insert_by_perm (r : A) (l : list A) :
  Permutation (insert_by key r l) (r :: l).
Proof.
  induction l as [|x l IH]; simpl; [reflexivity|].
  destruct (key_leb (key r) (key x)); [reflexivity|].
  rewrite IH. apply perm_swap.
Qed.

Lemma stable_sort_perm (l : list A) : Permutation (stable_sort key l) l.
Proof.
  induction l as [|x l IH]; simpl; [reflexivity|].
  now rewrite insert_by_perm, IH.
Qed.

Lemma insert_by_sorted (r : A) (l : list A) :
  StronglySorted (key_le key) l -> StronglySorted (key_le key) (insert_by key r l).
Proof.
  induction 1 as [|x l Hs IH Hx]; simpl;
    [constructor; constructor|].
  destruct (key_leb (key r) (key x)) eqn:E.
  - constructor; [now constructor|].
    constructor; [exact E|].
    apply Forall_forall. intros y Hy.
    rewrite Forall_forall in Hx. specialize (Hx y Hy).
    unfold key_le in *. rewrite key_leb_le in *.
    exact (cmp_le_trans key_compare_laws E Hx).
  - constructor; [exact IH|].
    apply Forall_forall. intros y Hy.
    apply (Permutation_in _ (insert_by_perm r l)) in Hy.
    destruct Hy as [<-|Hy].
    + unfold key_le. rewrite key_leb_le.
      destruct (cmp_le_total key_compare_laws (key r) (key x)) as [H|H];
        [|exact H].
      apply key_leb_le in H. congruence.
    + rewrite Forall_forall in Hx. now apply Hx.
Qed.

Lemma stable_sort_sorted (l : list A) :
  StronglySorted (key_le key) (stable_sort key l).
Proof.
  induction l as [|x l IH]; simpl; [constructor|].
  now apply insert_by_sorted.
Qed.





End StableSort.

(** The minimum over a column with missing values. *)
Lemma fold_min_date (l : list (option date)) :
  (fold_right min_date None l = None <-> forall d, In d l -> d = None)
  /\ forall d,
       fold_right min_date None l = Some d ->
       In (Some d) l
       /\ forall d', In (Some d') l -> date_compare d d' <> Gt.
Proof.
  induction l as [|x l [IHn IHs]]; simpl.
  - split; [split; [intros _ d [] | reflexivity] | intros d H; discriminate H].
  - destruct x as [x|]; destruct (fold_right min_date None l) as [m|] eqn:Em;
      simpl.
    + split.
      * split; [destruct (date_compare x m); intros H; discriminate H|].
        intros H. specialize (H (Some x) (or_introl eq_refl)). discriminate H.
      * intros d Hd. destruct (IHs m eq_refl) as [Hin Hmin].
        destruct (date_compare x m) eqn:E; injection Hd as <-.
        -- split; [now left|]. intros d' [[= <-]|Hd'].
           ++ now rewrite (cmp_refl date_compare_laws).
           ++ apply (cmp_eq date_compare_laws) in E. subst. now apply Hmin.
        -- split; [now left|]. intros d' [[= <-]|Hd'].
           ++ now rewrite (cmp_refl date_compare_laws).
           ++ apply (@cmp_le_trans _ date_compare date_compare_laws x m d');
                [unfold cmp_le; congruence | now apply Hmin].
        -- split; [now right|]. intros d' [[= <-]|Hd'].
           ++ rewrite (cmp_opp date_compare_laws x m), E. discriminate.
           ++ now apply Hmin.
    + split.
      * split; [intros H; discriminate H|].
        intros H. specialize (H (Some x) (or_introl eq_refl)). discriminate H.
      * intros d [= <-]. split; [now left|].
        intros d' [[= <-]|Hd'].
        -- now rewrite (cmp_refl date_compare_laws).
        -- destruct IHn as [IHn _]. specialize (IHn eq_refl _ Hd').
           discriminate IHn.
    + split.
      * split; [intros H; discriminate H|].
        intros H. destruct IHn as [_ IHn].
        assert (Hn : Some m = None)
          by (apply IHn; intros d Hd; apply H; now right).
        discriminate Hn.
      * intros d [= <-]. destruct (IHs m eq_refl) as [Hin Hmin].
        split; [now right|]. intros d' [H|Hd']; [discriminate H|].
        now apply Hmin.
    + split.
      * split; [|reflexivity]. intros _ d [<-|Hd]; [reflexivity|].
        destruct IHn as [IHn _]. now apply IHn.
      * intros d H. discriminate H.
Qed.

Lemma Debitur_Earliest_in (df : frame) (r : row) :
  In r df ->
  Debitur_Earliest df r
  = fold_right min_date None (map Tgl_PMK_PK_Akhir (group df (Nama r))).
Proof.
  intros H. unfold Debitur_Earliest, earliest_table.
  now rewrite (lookup_map_keys
                 (fun n => fold_right min_date None
                             (map Tgl_PMK_PK_Akhir (group df n)))),
    (group_keys_mem df r H).
Qed.





(** The account-number hint is not reset when the borrower changes: a
    facility line without account number that follows a new borrower is
    recorded under the account number of the previous borrower. *)
Example hint_survives_a_borrower_change :
  parse_pdfs_to_raw
    [mkdoc "SME_KDS.PDF"
       [("5 UTOMO (00018964777) 1234567890 BANK GARANSI IDR 50000 01-01-2023 01-01-2024"
         ++ newline ++
         "6 BUDI (00018964778) TIME LOAN IDR 70000 01-01-2023 01-01-2025")%string]]
  = [mkrow "UTOMO (00018964777)" "1234567890" "KDS" "BANK GARANSI"
           (Some 50000%Z) (Some (mkdate 2024 1 1)) "SME_KDS.PDF" true;
     mkrow "BUDI (00018964778)" "1234567890" "KDS" "TIME LOAN"
           (Some 70000%Z) (Some (mkdate 2025 1 1)) "SME_KDS.PDF" true].
Proof. vm_compute. reflexivity. Qed.

(** The parser looks the account number up by value: when the first
    match is parenthesised but the same digits also stand alone later in
    the line, the line is parsed from the standalone token. *)
Example account_found_at_a_later_token :
  _parse_facility_from_line
    "(1234567890) 1234567890 TIME LOAN IDR 5 01-01-2023 01-01-2024"
  = Some (mkfac "1234567890" "TIME LOAN" (Some 5%Z) (Some (mkdate 2024 1 1))).
Proof. vm_compute. reflexivity. Qed.

(* ================================================================== *)
(** * Further properties of the engine *)
(* ================================================================== *)

(** ** Token deduplication *)

Lemma _dedup_from_In (tokens : list string) :
  forall (seen : list string) (x : string),
    In x (_dedup_from seen tokens) <-> In x tokens /\ ~ In x seen.
Proof.
  induction tokens as [|t tokens IH]; intros seen x; simpl.
  - tauto.
  - destruct (Py.mem t seen) eqn:Hm.
    + apply mem_In in Hm. rewrite IH. split.
      * intros [H1 H2]. auto.
      * intros [[<-|H1] H2]; [contradiction | auto].
    + assert (Hn : ~ In t seen)
        by (intros H; apply mem_In in H; congruence).
      simpl. rewrite IH. simpl. split.
      * intros [<-|[H1 H2]]; [auto|]. split; [auto|]. intros H. apply H2. auto.
      * intros [[<-|H1] H2]; [auto|].
        destruct (String.eqb_spec t x) as [->|Hne]; [auto|].
        right. split; [exact H1|]. intros [H|H]; auto.
Qed.

Lemma _dedup_from_NoDup (tokens : list string) :
  forall seen : list string, NoDup (_dedup_from seen tokens).
Proof.
  induction tokens as [|t tokens IH]; intros seen; simpl; [constructor|].
  destruct (Py.mem t seen); [apply IH|].
  constructor; [|apply IH].
  rewrite _dedup_from_In. intros [_ H]. apply H. now left.
Qed.

Lemma _dedup_from_snoc (tokens : list string) :
  forall (seen : list string) (x : string),
    _dedup_from seen (tokens ++ [x])
    = _dedup_from seen tokens
      ++ (if Py.mem x seen || Py.mem x tokens then [] else [x]).
Proof.
  induction tokens as [|t tokens IH]; intros seen x; simpl.
  - rewrite orb_false_r. now destruct (Py.mem x seen).
  - destruct (Py.mem t seen) eqn:Hm.
    + rewrite IH. f_equal.
      destruct (String.eqb_spec x t) as [->|Hne]; [|reflexivity].
      now rewrite Hm.
    + simpl. rewrite IH. do 2 f_equal.
      destruct (String.eqb_spec x t) as [->|Hne]; simpl.
      * now rewrite String.eqb_refl, orb_true_r.
      * apply String.eqb_neq in Hne. rewrite Hne. simpl.
        now destruct (Py.mem x seen).
Qed.

Lemma _dedup_from_idem (tokens : list string) :
  forall seen : list string,
    _dedup_from seen (_dedup_from seen tokens) = _dedup_from seen tokens.
Proof.
  induction tokens as [|t tokens IH]; intros seen; simpl; [reflexivity|].
  destruct (Py.mem t seen) eqn:Hm; [apply IH|].
  simpl. rewrite Hm. f_equal. apply IH.
Qed.

(** [_dedup] keeps the first occurrence of every token, in input order:
    its result has no repeated token and the same tokens as its input, a
    token appended to the input is appended to the result exactly when
    it is new, and a second pass changes nothing. *)
Theorem dedup_tokens_first_occurrences :
  (forall tokens : list string, NoDup (_dedup tokens))
  /\ (forall (tokens : list string) (x : string),
        In x (_dedup tokens) <-> In x tokens)
  /\ (forall (tokens : list string) (x : string),
        _dedup (tokens ++ [x])
        = _dedup tokens ++ (if Py.mem x tokens then [] else [x]))
  /\ (forall tokens : list string, _dedup (_dedup tokens) = _dedup tokens).
Proof.
  split; [|split; [|split]].
  - intros tokens. apply _dedup_from_NoDup.
  - intros tokens x. unfold _dedup. rewrite _dedup_from_In. tauto.
  - intros tokens x. unfold _dedup. now rewrite _dedup_from_snoc.
  - intros tokens. apply _dedup_from_idem.
Qed.

(** ** Invariants of the scan *)

Lemma process_lines_invariant (P : state -> Prop)
      (debug : bool) (cabang_code sumber : string) (page_i : nat) :
  (forall ln_i st ln,
      P st -> P (process_line debug cabang_code sumber page_i ln_i st ln)) ->
  forall (lines : list string) (ln_i : nat) (st : state),
    P st -> P (process_lines debug cabang_code sumber page_i ln_i st lines).
Proof.
  intros Hstep. induction lines as [|ln lines IH]; intros ln_i st Hst; simpl;
    [exact Hst|].
  apply IH. now apply Hstep.
Qed.

Lemma process_pages_invariant (P : state -> Prop)
      (debug : bool) (cabang_code sumber : string) :
  (forall page_i ln_i st ln,
      P st -> P (process_line debug cabang_code sumber page_i ln_i st ln)) ->
  forall (texts : list string) (page_i : nat) (st : state),
    P st -> P (process_pages debug cabang_code sumber page_i st texts).
Proof.
  intros Hstep. induction texts as [|text texts IH]; intros page_i st Hst;
    simpl; [exact Hst|].
  apply IH. apply process_lines_invariant; [apply Hstep | exact Hst].
Qed.

(** A property of the state that holds initially and is kept by every
    line holds after the scan of any list of files. *)
Lemma scan_invariant (P : state -> Prop) :
  P initial_state ->
  (forall debug f page_i ln_i st ln,
      P st ->
      P (process_line debug (cabang_from_filename f) f page_i ln_i st ln)) ->
  forall (debug : bool) (docs : list document),
    P (scan_documents debug docs).
Proof.
  intros Hinit Hstep debug docs. unfold scan_documents.
  generalize initial_state Hinit.
  induction docs as [|d docs IH]; intros st Hst; simpl; [exact Hst|].
  apply IH. unfold process_document.
  apply process_pages_invariant; [|exact Hst].
  intros page_i ln_i st' ln. apply Hstep.
Qed.

Lemma update_borrower_cases (ln name cif : string) :
  update_borrower ln name cif = (name, cif)
  \/ exists nm c,
       update_borrower ln name cif = (nm, c)
       /\ _derive_name_and_cif ln = (nm, c)
       /\ nonempty nm = true /\ nonempty c = true.
Proof.
  unfold update_borrower.
  destruct (Re.found CIF_RE ln && negb _); [|now left].
  destruct (_derive_name_and_cif ln) as [nm c].
  destruct (nonempty nm && nonempty c) eqn:E; [|now left].
  right. exists nm, c. apply andb_true_iff in E as [E1 E2]. auto.
Qed.

Lemma last_ACC_No_snoc (rs : list row) (r : row) :
  last_ACC_No (rs ++ [r]) = Some (ACC_No r).
Proof.
  unfold last_ACC_No. rewrite map_app. simpl. apply last_last.
Qed.

Lemma process_line_keeps_context_and_hint
      (debug : bool) (cabang_code sumber : string) (page_i ln_i : nat)
      (st : state) (ln : string) :
  let Inv := fun st =>
    nonempty (current_name st) = nonempty (current_cif st)
    /\ (rows st = [] \/ active st = true)
    /\ last_acc st = last_ACC_No (rows st) in
  Inv st -> Inv (process_line debug cabang_code sumber page_i ln_i st ln).
Proof.
  cbv zeta. intros [Hctx [Hact Hhint]]. unfold process_line.
  destruct (_is_noise (_clean ln)); [auto|].
  assert (Hupd : exists nm c,
             update_borrower (_clean ln) (current_name st) (current_cif st)
             = (nm, c)
             /\ nonempty nm = nonempty c
             /\ (rows st = [] \/ nonempty nm && nonempty c = true)).
  { destruct (update_borrower_cases (_clean ln) (current_name st)
                (current_cif st)) as [E|[nm [c [E [_ [Hn Hc]]]]]].
    - exists (current_name st), (current_cif st). auto.
    - exists nm, c. rewrite Hn, Hc. auto. }
  destruct Hupd as [nm [c [E [Hnc Hact']]]]. rewrite E.
  destruct (parse_facility (_clean ln) (last_acc st)) as [fac|];
    destruct (nonempty nm && nonempty c) eqn:Ha; unfold active; simpl.
  - split; [exact Hnc|]. split; [now right|].
    now rewrite last_ACC_No_snoc.
  - split; [exact Hnc|]. split; [|exact Hhint].
    destruct Hact' as [H|H]; [now left | discriminate H].
  - split; [exact Hnc|]. split; [now right | exact Hhint].
  - split; [exact Hnc|]. split; [|exact Hhint].
    destruct Hact' as [H|H]; [now left | discriminate H].
Qed.

(** After the scan of any list of files: the borrower name and identity
    number are both set or both empty; as soon as a record has been
    emitted a borrower context is active; and the account-number hint
    is the account number of the last emitted record (no hint while no
    record was emitted). *)
Theorem scan_keeps_context_and_hint_consistent :
  forall (debug : bool) (docs : list document),
    let st := scan_documents debug docs in
    nonempty (current_name st) = nonempty (current_cif st)
    /\ (rows st <> [] -> active st = true)
    /\ last_acc st = last_ACC_No (rows st).
Proof.
  intros debug docs. cbv zeta.
  assert (H : (fun st =>
                 nonempty (current_name st) = nonempty (current_cif st)
                 /\ (rows st = [] \/ active st = true)
                 /\ last_acc st = last_ACC_No (rows st))
                (scan_documents debug docs)).
  { apply scan_invariant.
    - repeat split. now left.
    - intros dbg f page_i ln_i st ln.
      apply process_line_keeps_context_and_hint. }
  destruct H as [H1 [H2 H3]]. split; [exact H1|]. split; [|exact H3].
  intros Hne. destruct H2 as [H2|H2]; [contradiction | exact H2].
Qed.

Lemma process_line_keeps_active
      (debug : bool) (cabang_code sumber : string) (page_i ln_i : nat)
      (st : state) (ln : string) :
  active st = true ->
  active (process_line debug cabang_code sumber page_i ln_i st ln) = true.
Proof.
  intros Hact. unfold process_line.
  destruct (_is_noise (_clean ln)); [exact Hact|].
  destruct (update_borrower_cases (_clean ln) (current_name st)
              (current_cif st)) as [E|[nm [c [E [_ [Hn Hc]]]]]]; rewrite E.
  - destruct (parse_facility _ _);
      destruct (nonempty (current_name st) && nonempty (current_cif st));
      exact Hact.
  - destruct (parse_facility _ _); destruct (nonempty nm && nonempty c);
      unfold active; simpl; now rewrite Hn, Hc.
Qed.

(** Once a borrower context is active it stays active: no line, page or
    further file brings the scan back to the state without borrower. *)
Theorem active_borrower_is_never_lost :
  forall (debug : bool) (docs more : list document),
    active (scan_documents debug docs) = true ->
    active (scan_documents debug (docs ++ more)) = true.
Proof.
  intros debug docs more. unfold scan_documents. rewrite fold_left_app.
  generalize (fold_left (process_document debug) docs initial_state).
  induction more as [|d more IH]; intros st Hst; simpl; [exact Hst|].
  apply IH. unfold process_document.
  apply (process_pages_invariant (fun st => active st = true));
    [|exact Hst].
  intros page_i ln_i st' ln. apply process_line_keeps_active.
Qed.

Lemma active_borrower_witness :
  active (scan_documents false [doc_kds]) = true
  /\ active (scan_documents false ([doc_kds] ++ [doc_smg])) = true.
Proof.
  assert (H : active (scan_documents false [doc_kds]) = true)
    by (vm_compute; reflexivity).
  split; [exact H|].
  exact (active_borrower_is_never_lost false [doc_kds] [doc_smg] H).
Defined.

(** ** Diagnostics *)

Lemma process_line_without_printed
      (debug : bool) (cabang_code sumber : string) (page_i ln_i : nat)
      (st : state) (ln : string) :
  without_printed (process_line debug cabang_code sumber page_i ln_i st ln)
  = process_line false cabang_code sumber page_i ln_i (without_printed st) ln.
Proof.
  unfold process_line, without_printed. simpl.
  destruct (_is_noise (_clean ln)); [reflexivity|].
  destruct (update_borrower _ _ _) as [nm c].
  destruct (parse_facility _ _);
    destruct (nonempty nm && nonempty c); simpl; try reflexivity;
    destruct debug; simpl;
    repeat match goal with
           | |- context [if ?b then _ else _] => destruct b
           end; reflexivity.
Qed.

Lemma process_lines_without_printed
      (debug : bool) (cabang_code sumber : string) (page_i : nat)
      (lines : list string) :
  forall (ln_i : nat) (st : state),
    without_printed
      (process_lines debug cabang_code sumber page_i ln_i st lines)
    = process_lines false cabang_code sumber page_i ln_i
        (without_printed st) lines.
Proof.
  induction lines as [|ln lines IH]; intros ln_i st; simpl; [reflexivity|].
  now rewrite IH, process_line_without_printed.
Qed.

Lemma process_pages_without_printed
      (debug : bool) (cabang_code sumber : string) (texts : list string) :
  forall (page_i : nat) (st : state),
    without_printed (process_pages debug cabang_code sumber page_i st texts)
    = process_pages false cabang_code sumber page_i
        (without_printed st) texts.
Proof.
  induction texts as [|text texts IH]; intros page_i st; simpl;
    [reflexivity|].
  now rewrite IH, process_lines_without_printed.
Qed.

Lemma scan_without_printed (debug : bool) (docs : list document) :
  without_printed (scan_documents debug docs) = scan_documents false docs.
Proof.
  unfold scan_documents.
  change initial_state with (without_printed initial_state) at 2.
  generalize initial_state.
  induction docs as [|d docs IH]; intros st; simpl; [reflexivity|].
  rewrite IH. f_equal. unfold process_document.
  apply process_pages_without_printed.
Qed.

(** Diagnostics are observation only: with [DM_DEBUG] on, the scan ends
    with the same records, borrower context and hint as with it off, so
    the returned data frame is the same; with it off nothing is
    printed. *)
Theorem diagnostics_do_not_change_the_records :
  forall docs : list document,
    parse_pdfs_to_raw_debug true docs = parse_pdfs_to_raw docs
    /\ without_printed (scan_documents true docs)
       = scan_documents false docs
    /\ printed (scan_documents false docs) = [].
Proof.
  intros docs.
  pose proof (scan_without_printed true docs) as Ht.
  pose proof (scan_without_printed false docs) as Hf.
  split; [|split; [exact Ht|]].
  - unfold parse_pdfs_to_raw, parse_pdfs_to_raw_debug.
    now rewrite <- Ht.
  - now rewrite <- Hf.
Qed.

(** ** Where the records come from *)

Lemma output_row_origin (debug : bool) (docs : list document) (r : row) :
  In r (parse_pdfs_to_raw_debug debug docs) ->
  exists r0 float_column,
    In r0 (rows (scan_documents debug docs))
    /\ r = tidy_row (frame_row float_column r0).
Proof.
  unfold parse_pdfs_to_raw_debug, DataFrame. intros H.
  apply drop_duplicates_incl in H. apply in_map_iff in H as [r1 [<- H]].
  apply in_map_iff in H as [r0 [<- H]].
  now exists r0, (amount_missing (rows (scan_documents debug docs))).
Qed.

Lemma scan_rows_file_names (debug : bool) (docs : list document) :
  Forall (fun r => exists d, In d docs /\ SumberFile r = file_name d)
         (rows (scan_documents debug docs)).
Proof.
  induction docs as [|d docs IH] using rev_ind.
  - constructor.
  - unfold scan_documents. rewrite fold_left_app. simpl.
    fold (scan_documents debug docs). unfold process_document.
    destruct (process_pages_appends debug (cabang_from_filename (file_name d))
                (file_name d) (page_texts d) 1 (scan_documents debug docs))
      as [emitted [E Hs]].
    rewrite E. apply Forall_app. split.
    + eapply Forall_impl; [|exact IH].
      intros r [d0 [Hd0 Hf]]. exists d0. split; [|exact Hf].
      apply in_or_app. now left.
    + apply Forall_forall. intros r Hr. exists d. split.
      * apply in_or_app. right. now left.
      * now apply Hs.
Qed.

Lemma scan_rows_branch (debug : bool) (docs : list document) :
  Forall (fun r => Cabang r = cabang_from_filename (SumberFile r))
         (rows (scan_documents debug docs)).
Proof.
  apply (scan_invariant
           (fun st => Forall (fun r => Cabang r
                                       = cabang_from_filename (SumberFile r))
                             (rows st))).
  - constructor.
  - intros dbg f page_i ln_i st ln Hst. unfold process_line.
    destruct (_is_noise (_clean ln)); [exact Hst|].
    destruct (update_borrower _ _ _) as [nm c].
    destruct (parse_facility _ _); destruct (nonempty nm && nonempty c);
      simpl; try exact Hst.
    apply Forall_app. split; [exact Hst|].
    constructor; [reflexivity | constructor].
Qed.

(** Every record of the output names one of the scanned files as its
    source, and its branch code is the one [cabang_from_filename]
    derives from that file name. *)
Theorem output_rows_carry_their_file_and_branch :
  forall docs : list document,
    Forall (fun r =>
              Cabang r = cabang_from_filename (SumberFile r)
              /\ exists d, In d docs /\ SumberFile r = file_name d)
           (parse_pdfs_to_raw docs).
Proof.
  intros docs. apply Forall_forall. intros r Hr.
  apply output_row_origin in Hr as [r0 [float_column [Hin ->]]].
  pose proof (scan_rows_file_names false docs) as Hf.
  pose proof (scan_rows_branch false docs) as Hb.
  rewrite Forall_forall in Hf, Hb. simpl.
  split; [now apply Hb | now apply Hf].
Qed.

(** ** The two facility parsers *)

Lemma findall_found (r : Re.regex) (s x : string) (more : list string) :
  Re.findall r s = x :: more -> Re.found r s = true.
Proof.
  unfold Re.findall, Re.finditer, Re.found, Re.search.
  cbn [Re.spans_from].
  destruct (Re.search_from r 0 None s) as [[a e]|]; [reflexivity|].
  intros H. discriminate H.
Qed.

(** The hinted parser never overrides an account number printed on the
    line: on any line at most one of the two parsers yields a facility.
    The account number of the facility of a line is either the first
    account number of the line, which then is one of its
    whitespace-delimited tokens, or, on a line without account number,
    the hint taken over verbatim. *)
Theorem facility_account_is_line_token_or_hint :
  forall (line : string) (hint : option string),
    (_parse_facility_from_line line = None
     \/ _parse_facility_from_line_no_acc line hint = None)
    /\ match parse_facility line hint with
       | Some fac =>
           (Re.found ACC_RE (_clean line) = true
            /\ In (acc fac) (Py.split (_clean line))
            /\ exists more,
                 Re.findall ACC_RE (_clean line) = acc fac :: more)
           \/ (Re.found ACC_RE (_clean line) = false
               /\ hint = Some (acc fac)
               /\ nonempty (acc fac) = true)
       | None => True
       end.
Proof.
  intros line hint.
  assert (Hacc : forall fac,
             _parse_facility_from_line line = Some fac ->
             Re.found ACC_RE (_clean line) = true
             /\ In (acc fac) (Py.split (_clean line))
             /\ exists more,
                  Re.findall ACC_RE (_clean line) = acc fac :: more).
  { intros fac. unfold _parse_facility_from_line. cbv zeta.
    destruct (Re.findall ACC_RE (_clean line)) as [|a more] eqn:Ea;
      [discriminate|].
    destruct (_ <? 2); [discriminate|].
    destruct (Py.index a (Py.split (_clean line))) as [i|] eqn:Ei;
      [|discriminate].
    destruct (find_currency _ _ _); [|discriminate].
    intros [= <-]. simpl. split; [now apply (findall_found _ _ Ea)|].
    split; [|now exists more].
    apply index_In in Ei. now apply nth_error_In in Ei. }
  assert (Hhint : forall fac,
             _parse_facility_from_line_no_acc line hint = Some fac ->
             Re.found ACC_RE (_clean line) = false
             /\ hint = Some (acc fac) /\ nonempty (acc fac) = true).
  { intros fac. unfold _parse_facility_from_line_no_acc. cbv zeta.
    destruct hint as [h|]; [|discriminate].
    destruct (Py.is_empty h) eqn:Eh; [discriminate|].
    destruct (_ <? 2); [discriminate|].
    destruct (negb _); [discriminate|].
    destruct (Re.found ACC_RE (_clean line)); [discriminate|].
    destruct (find_currency _ _ _); [|discriminate].
    match goal with
    | |- context [if ?b then None else _] => destruct b
    end; [discriminate|].
    intros [= <-]. simpl. split; [reflexivity|]. split; [reflexivity|].
    unfold nonempty. now rewrite Eh. }
  split.
  - destruct (_parse_facility_from_line line) as [f1|] eqn:E1; [|now left].
    right.
    destruct (_parse_facility_from_line_no_acc line hint) as [f2|] eqn:E2;
      [|reflexivity].
    destruct (Hacc f1 eq_refl) as [H1 _]. destruct (Hhint f2 eq_refl) as [H2 _].
    congruence.
  - unfold parse_facility.
    destruct (_parse_facility_from_line line) as [f1|] eqn:E1.
    + left. now apply Hacc.
    + destruct (_parse_facility_from_line_no_acc line hint) as [f2|] eqn:E2;
        [|exact I].
      right. now apply Hhint.
Qed.

(* ================================================================== *)
(** * Whitespace normalisation *)
(* ================================================================== *)

Lemma rmatch_rep (r : Re.regex) (lo : nat) (hi : option nat)
      (i : nat) (p : option ascii) (s : string) (k : Re.cont) :
  Re.rmatch (Re.Rep r lo hi) i p s k
  = rep_iter (Re.rmatch r) lo hi k (String.length s) 0 i p s.
Proof. reflexivity. Qed.

Lemma run_le_length (f : ascii -> bool) (s : string) :
  run f s <= String.length s.
Proof.
  induction s as [|a s IH]; simpl; [lia|]. destruct (f a); lia.
Qed.

Lemma rep_iter_0
      (body : nat -> option ascii -> string -> Re.cont -> option nat)
      (lo : nat) (hi : option nat) (k : Re.cont)
      (n i : nat) (p : option ascii) (s : string) :
  rep_iter body lo hi k 0 n i p s = if lo <=? n then k i p s else None.
Proof. reflexivity. Qed.

Lemma rep_iter_S
      (body : nat -> option ascii -> string -> Re.cont -> option nat)
      (lo : nat) (hi : option nat) (k : Re.cont)
      (fuel n i : nat) (p : option ascii) (s : string) :
  rep_iter body lo hi k (S fuel) n i p s
  = if Re.may_repeat hi n then
      match body i p s
              (fun i' p' s' =>
                 if i <? i' then rep_iter body lo hi k fuel (S n) i' p' s'
                 else None) with
      | Some e => Some e
      | None => if lo <=? n then k i p s else None
      end
    else if lo <=? n then k i p s else None.
Proof. reflexivity. Qed.

Section ClassRepetition.

Variable f : ascii -> bool.
Variable body : nat -> option ascii -> string -> Re.cont -> option nat.
Hypothesis body_class :
  forall i p s k,
    body i p s k
    = match s with
      | String a s' => if f a then k (S i) (Some a) s' else None
      | EmptyString => None
      end.
Variable lo : nat.

(** A greedy repetition of a character class, followed by nothing,
    takes the whole run of the class. *)
Lemma rep_class_accept :
  forall (fuel n i : nat) (p : option ascii) (s : string),
    run f s <= fuel ->
    rep_iter body lo None Re.accept fuel n i p s
    = if lo <=? n + run f s then Some (i + run f s) else None.
Proof.
  induction fuel as [|fuel IH]; intros n i p s Hrun.
  - assert (E : run f s = 0) by lia.
    rewrite rep_iter_0, E, !Nat.add_0_r. reflexivity.
  - rewrite rep_iter_S, body_class. cbn [Re.may_repeat].
    destruct s as [|a s]; cbn [run].
    + rewrite !Nat.add_0_r. reflexivity.
    + cbn [run] in Hrun. destruct (f a) eqn:Ea.
      * assert (Hlt : (i <? S i) = true) by (apply Nat.ltb_lt; lia).
        rewrite Hlt, (IH (S n) (S i) (Some a) s) by lia.
        replace (S n + run f s) with (n + S (run f s)) by lia.
        replace (S i + run f s) with (i + S (run f s)) by lia.
        destruct (lo <=? n + S (run f s)) eqn:El; [reflexivity|].
        apply Nat.leb_gt in El.
        assert (E : (lo <=? n) = false) by (apply Nat.leb_gt; lia).
        now rewrite E.
      * rewrite !Nat.add_0_r. reflexivity.
Qed.

(** The same repetition under [re.fullmatch]: it succeeds exactly when
    the whole text is in the class. *)
Lemma rep_class_at_end :
  forall (fuel n i : nat) (p : option ascii) (s : string),
    String.length s <= fuel ->
    rep_iter body lo None at_end fuel n i p s
    = if (run f s =? String.length s) && (lo <=? n + run f s)
      then Some (i + String.length s) else None.
Proof.
  induction fuel as [|fuel IH]; intros n i p s Hlen.
  - destruct s as [|a s]; [|simpl in Hlen; lia].
    rewrite rep_iter_0. cbn. rewrite !Nat.add_0_r. reflexivity.
  - rewrite rep_iter_S, body_class. cbn [Re.may_repeat].
    destruct s as [|a s]; cbn [run String.length].
    + cbn. rewrite !Nat.add_0_r. reflexivity.
    + cbn [String.length] in Hlen. destruct (f a) eqn:Ea.
      * assert (Hlt : (i <? S i) = true) by (apply Nat.ltb_lt; lia).
        rewrite Hlt, (IH (S n) (S i) (Some a) s) by lia.
        replace (S n + run f s) with (n + S (run f s)) by lia.
        replace (S i + String.length s) with (i + S (String.length s)) by lia.
        change (S (run f s) =? S (String.length s))
          with (run f s =? String.length s).
        destruct ((run f s =? String.length s)
                  && (lo <=? n + S (run f s))); [reflexivity|].
        unfold at_end. cbn. now destruct (lo <=? n).
      * unfold at_end. cbn. now destruct (lo <=? n).
Qed.

End ClassRepetition.

Lemma rmatch_class (f : ascii -> bool) :
  forall i p s k,
    Re.rmatch (Re.Chr f) i p s k
    = match s with
      | String a s' => if f a then k (S i) (Some a) s' else None
      | EmptyString => None
      end.
Proof. reflexivity. Qed.

(** [\s+] matched at the cursor takes the whole run of whitespace. *)
Lemma match_here_spaces (i : nat) (p : option ascii) (s : string) :
  Re.match_here SPACES_RE i p s
  = if 1 <=? run Py.is_space s then Some (i + run Py.is_space s) else None.
Proof.
  unfold Re.match_here, SPACES_RE, Re.plus, Re.space. rewrite rmatch_rep.
  rewrite (@rep_class_accept Py.is_space _ (rmatch_class Py.is_space) 1
             (String.length s) 0 i p s (run_le_length _ _)).
  reflexivity.
Qed.

(** [re.fullmatch] of a repeated class: all characters of the text are
    in the class, and there are at least [lo] of them. *)
Lemma fullmatch_class (f : ascii -> bool) (lo : nat) (s : string) :
  Re.fullmatch (Re.Rep (Re.Chr f) lo None) s
  = (run f s =? String.length s) && (lo <=? String.length s).
Proof.
  unfold Re.fullmatch.
  change (fun (i : nat) (_ : option ascii) (s' : string) =>
            if Py.is_empty s' then Some i else None) with at_end.
  rewrite rmatch_rep.
  rewrite (@rep_class_at_end f _ (rmatch_class f) lo
             (String.length s) 0 0 None s (le_n _)).
  destruct (run f s =? String.length s) eqn:E; [|reflexivity].
  apply Nat.eqb_eq in E. rewrite E. simpl.
  now destruct (lo <=? String.length s).
Qed.

Lemma drop_drop (k m : nat) (s : string) :
  Py.drop m (Py.drop k s) = Py.drop (k + m) s.
Proof.
  revert s. induction k as [|k IH]; intros s; [reflexivity|].
  destruct s as [|a s]; simpl; [now destruct m | apply IH].
Qed.

Lemma length_drop (n : nat) (s : string) :
  String.length (Py.drop n s) = String.length s - n.
Proof.
  revert s. induction n as [|n IH]; intros [|a s]; simpl; try lia. apply IH.
Qed.

Lemma take_all (n : nat) (s : string) :
  String.length s <= n -> Py.take n s = s.
Proof.
  revert s. induction n as [|n IH]; intros [|a s]; simpl; intros H;
    try reflexivity; try lia.
  rewrite IH; [reflexivity | lia].
Qed.

Lemma drop_all (n : nat) (s : string) :
  String.length s <= n -> Py.drop n s = EmptyString.
Proof.
  revert s. induction n as [|n IH]; intros [|a s]; simpl; intros H;
    try reflexivity; try lia.
  apply IH. lia.
Qed.

Lemma advance_drop (n : nat) :
  forall (i : nat) (p : option ascii) (s : string),
    n <= String.length s ->
    exists q, Re.advance n i p s = (i + n, q, Py.drop n s).
Proof.
  induction n as [|n IH]; intros i p s Hn; simpl.
  - exists p. destruct s; now rewrite Nat.add_0_r.
  - destruct s as [|a s]; [simpl in Hn; lia|].
    destruct (IH (S i) (Some a) s) as [q E]; [simpl in Hn; lia|].
    exists q. rewrite E. f_equal. f_equal. lia.
Qed.

Lemma search_from_spaces (s : string) :
  forall (i : nat) (p : option ascii),
    Re.search_from SPACES_RE i p s
    = if run not_space s =? String.length s then None
      else Some (i + run not_space s,
                 i + run not_space s
                 + run Py.is_space (Py.drop (run not_space s) s)).
Proof.
  induction s as [|a s IH]; intros i p.
  - reflexivity.
  - cbn [Re.search_from]. rewrite match_here_spaces.
    cbn [run String.length].
    destruct (Py.is_space a) eqn:Ea;
      assert (En : not_space a = negb (Py.is_space a)) by reflexivity;
      rewrite Ea in En; rewrite !En; cbn [negb].
    + cbn. rewrite Ea. now rewrite !Nat.add_0_r.
    + cbn [Nat.leb]. rewrite IH. cbn [Py.drop].
      change (S (run not_space s) =? S (String.length s))
        with (run not_space s =? String.length s).
      destruct (run not_space s =? String.length s); [reflexivity|].
      f_equal. f_equal; lia.
Qed.

Lemma squeeze_skip (s : string) :
  squeeze s
  = (Py.take (run not_space s) s
     ++ squeeze (Py.drop (run not_space s) s))%string.
Proof.
  induction s as [|a s IH]; [reflexivity|].
  cbn [run].
  destruct (Py.is_space a) eqn:Ea;
    assert (En : not_space a = negb (Py.is_space a)) by reflexivity;
    rewrite Ea in En; rewrite !En; cbn [negb]; [reflexivity|].
  cbn [Py.take Py.drop squeeze]. rewrite Ea. cbn. now rewrite <- IH.
Qed.

Lemma squeeze_space_run (s : string) :
  1 <= run Py.is_space s ->
  squeeze s
  = String " " (squeeze (Py.drop (run Py.is_space s) s)).
Proof.
  induction s as [|a s IH]; cbn [run]; [lia|].
  destruct (Py.is_space a) eqn:Ea; [|lia]. intros _.
  cbn [squeeze Py.drop]. rewrite Ea.
  destruct s as [|b s]; [reflexivity|].
  destruct (Py.is_space b) eqn:Eb.
  - apply IH. cbn [run]. rewrite Eb. lia.
  - cbn [run]. now rewrite Eb.
Qed.

Lemma squeeze_without_space (s : string) :
  run not_space s = String.length s -> squeeze s = s.
Proof.
  induction s as [|a s IH]; [reflexivity|].
  cbn [run String.length squeeze].
  destruct (Py.is_space a) eqn:Ea;
    assert (En : not_space a = negb (Py.is_space a)) by reflexivity;
    rewrite Ea in En; rewrite !En; cbn [negb]; [lia|].
  intros H. rewrite IH; [reflexivity | lia].
Qed.

Lemma space_after_run (s : string) :
  run not_space s < String.length s ->
  1 <= run Py.is_space (Py.drop (run not_space s) s).
Proof.
  induction s as [|a s IH]; cbn [run String.length]; [lia|].
  destruct (Py.is_space a) eqn:Ea;
    assert (En : not_space a = negb (Py.is_space a)) by reflexivity;
    rewrite Ea in En; rewrite !En; cbn [negb Py.drop run].
  - rewrite Ea. lia.
  - intros H. apply IH. lia.
Qed.

Lemma sub_spans_spaces (fuel : nat) :
  forall (s0 : string) (i : nat) (p : option ascii) (s : string),
    s = Py.drop i s0 ->
    String.length s < fuel ->
    Re.sub_spans (Re.spans_from fuel SPACES_RE i p s) " " i s0 = squeeze s.
Proof.
  induction fuel as [|fuel IH]; intros s0 i p s Hs Hlen; [lia|].
  cbn [Re.spans_from]. rewrite search_from_spaces.
  destruct (run not_space s =? String.length s) eqn:Ek.
  - apply Nat.eqb_eq in Ek. cbn [Re.sub_spans].
    rewrite squeeze_without_space by exact Ek. now symmetry.
  - apply Nat.eqb_neq in Ek.
    pose proof (run_le_length not_space s) as Hk.
    set (k := run not_space s) in *.
    pose proof (space_after_run s ltac:(fold k; lia)) as Hm.
    fold k in Hm.
    pose proof (run_le_length Py.is_space (Py.drop k s)) as Hm'.
    rewrite length_drop in Hm'.
    set (m := run Py.is_space (Py.drop k s)) in *.
    destruct (@advance_drop (i + k + m - i) i p s ltac:(lia)) as [q Eadv].
    rewrite Eadv.
    assert (Hlt : (i + k <? i + k + m) = true) by (apply Nat.ltb_lt; lia).
    rewrite Hlt.
    assert (Hle : (i + k + m <=? i + k) = false) by (apply Nat.leb_gt; lia).
    rewrite Hle, andb_false_r.
    cbn [Re.sub_spans].
    replace (i + (i + k + m - i)) with (i + k + m) by lia.
    replace (i + k + m - i) with (k + m) by lia.
    rewrite (IH s0 (i + k + m) q (Py.drop (k + m) s)).
    + unfold Py.slice. rewrite <- Hs.
      replace (i + k - i) with k by lia.
      rewrite (squeeze_skip s). fold k.
      rewrite (squeeze_space_run (Py.drop k s)) by (fold m; lia).
      fold m. rewrite drop_drop. reflexivity.
    + rewrite Hs, drop_drop. f_equal. lia.
    + rewrite length_drop. lia.
Qed.

(** [re.sub(r"\s+", " ", s)] turns every maximal run of whitespace
    into one space. *)
Lemma sub_spaces_squeeze (s : string) :
  Re.sub SPACES_RE " " s = squeeze s.
Proof.
  unfold Re.sub, Re.finditer.
  apply sub_spans_spaces; [now destruct s | lia].
Qed.

Lemma join_cons_char (a : ascii) (t : string) (ts : list string) :
  Py.join (String a t :: ts) = String a (Py.join (t :: ts)).
Proof. unfold Py.join. now destruct ts. Qed.

Lemma join_cons_cons (x y : string) (l : list string) :
  Py.join (x :: y :: l) = (x ++ " " ++ Py.join (y :: l))%string.
Proof. reflexivity. Qed.

Lemma split_starts_with_char (b : ascii) (s : string) :
  Py.is_space b = false ->
  exists t ts, Py.split (String b s) = String b t :: ts.
Proof.
  intros Hb. cbn [Py.split]. rewrite Hb.
  destruct s as [|c s]; [now exists EmptyString, []|].
  destruct (Py.is_space c); [now eexists _, _|].
  destruct (Py.split (String c s)) as [|t ts]; now eexists _, _.
Qed.

Lemma space_is_space : Py.is_space " " = true.
Proof. reflexivity. Qed.

Lemma rstrip_squeeze (s : string) :
  Py.rstrip (squeeze s)
  = ((if starts_with_space s && has_token (Py.split s)
      then " " else EmptyString)
     ++ Py.join (Py.split s))%string.
Proof.
  induction s as [|a s IH]; [reflexivity|].
  cbn [squeeze Py.split starts_with_space].
  destruct (Py.is_space a) eqn:Ea.
  - destruct s as [|b s]; [reflexivity|].
    cbn [starts_with_space] in IH.
    destruct (Py.is_space b) eqn:Eb; [exact IH|].
    destruct (@split_starts_with_char b s Eb) as [t [ts E]].
    rewrite E in IH |- *. cbn [andb has_token] in IH |- *.
    cbn [Py.rstrip]. rewrite IH, space_is_space.
    rewrite join_cons_char. reflexivity.
  - cbn [Py.rstrip andb]. rewrite Ea. cbn [andb]. rewrite IH.
    destruct s as [|b s]; [reflexivity|].
    cbn [starts_with_space].
    destruct (Py.is_space b) eqn:Eb.
    + destruct (Py.split (String b s)) as [|y l]; [reflexivity|].
      cbn [andb has_token]. rewrite join_cons_cons. reflexivity.
    + destruct (@split_starts_with_char b s Eb) as [t [ts E]].
      rewrite E. cbn [andb String.append].
      now rewrite (join_cons_char a (String b t) ts).
Qed.

Lemma lstrip_squeeze (s : string) :
  Py.lstrip (squeeze s) = squeeze (Py.lstrip s).
Proof.
  induction s as [|a s IH]; [reflexivity|].
  cbn [squeeze Py.lstrip].
  destruct (Py.is_space a) eqn:Ea.
  - destruct s as [|b s]; [reflexivity|].
    destruct (Py.is_space b) eqn:Eb; [exact IH|].
    cbn [Py.lstrip]. rewrite space_is_space. exact IH.
  - cbn [Py.lstrip squeeze]. now rewrite Ea.
Qed.

Lemma split_lstrip (s : string) : Py.split (Py.lstrip s) = Py.split s.
Proof.
  induction s as [|a s IH]; [reflexivity|].
  cbn [Py.lstrip]. destruct (Py.is_space a) eqn:Ea; [|reflexivity].
  cbn [Py.split]. now rewrite Ea.
Qed.

Lemma lstrip_starts (s : string) : starts_with_space (Py.lstrip s) = false.
Proof.
  induction s as [|a s IH]; [reflexivity|].
  cbn [Py.lstrip]. destruct (Py.is_space a) eqn:Ea; [exact IH|].
  exact Ea.
Qed.

Lemma strip_squeeze (s : string) :
  Py.strip (squeeze s) = Py.join (Py.split s).
Proof.
  unfold Py.strip.
  now rewrite lstrip_squeeze, rstrip_squeeze, lstrip_starts, split_lstrip.
Qed.

Lemma split_single_token (x : string) :
  is_token x -> Py.split x = [x].
Proof.
  intros [Hne Hrun]. induction x as [|a x IH]; [contradiction|].
  cbn [run String.length] in Hrun.
  assert (Ea : Py.is_space a = false).
  { destruct (Py.is_space a) eqn:E; [|reflexivity].
    unfold not_space in Hrun. rewrite E in Hrun. discriminate Hrun. }
  unfold not_space in Hrun at 1. rewrite Ea in Hrun. cbn [negb] in Hrun.
  cbn [Py.split]. rewrite Ea.
  destruct x as [|b x]; [reflexivity|].
  assert (Hx : Py.split (String b x) = [String b x])
    by (apply IH; [discriminate | lia]).
  cbn [run] in Hrun.
  destruct (Py.is_space b) eqn:Eb.
  - unfold not_space in Hrun at 1. rewrite Eb in Hrun. discriminate Hrun.
  - now rewrite Hx.
Qed.

Lemma split_token_then_space (x : string) (sp : ascii) (r : string) :
  is_token x -> Py.is_space sp = true ->
  Py.split (x ++ String sp r)%string = x :: Py.split r.
Proof.
  intros [Hne Hrun] Hsp. induction x as [|a x IH]; [contradiction|].
  cbn [run String.length] in Hrun.
  assert (Ea : Py.is_space a = false).
  { destruct (Py.is_space a) eqn:E; [|reflexivity].
    unfold not_space in Hrun. rewrite E in Hrun. discriminate Hrun. }
  unfold not_space in Hrun at 1. rewrite Ea in Hrun. cbn [negb] in Hrun.
  cbn [String.append Py.split]. rewrite Ea.
  destruct x as [|b x].
  - cbn [String.append]. rewrite Hsp. cbn [Py.split]. now rewrite Hsp.
  - assert (Hx : Py.split (String b x ++ String sp r)%string
                 = String b x :: Py.split r)
      by (apply IH; [discriminate | lia]).
    cbn [run] in Hrun. cbn [String.append] in Hx |- *.
    destruct (Py.is_space b) eqn:Eb.
    + unfold not_space in Hrun at 1. rewrite Eb in Hrun. discriminate Hrun.
    + now rewrite Hx.
Qed.

Lemma split_tokens (s : string) : Forall is_token (Py.split s).
Proof.
  induction s as [|a s IH]; [constructor|].
  cbn [Py.split]. destruct (Py.is_space a) eqn:Ea; [exact IH|].
  assert (Hn : not_space a = true) by (unfold not_space; now rewrite Ea).
  assert (Hone : is_token (String a EmptyString)).
  { split; [discriminate|]. cbn. now rewrite Hn. }
  destruct s as [|b s]; [now constructor|].
  destruct (Py.is_space b) eqn:Eb; [now constructor|].
  destruct (Py.split (String b s)) as [|t ts]; [now constructor|].
  inversion IH as [|? ? [Ht1 Ht2] Hts]; subst.
  constructor; [|exact Hts].
  split; [discriminate|]. cbn [run String.length]. now rewrite Hn, Ht2.
Qed.

Lemma split_join (l : list string) :
  Forall is_token l -> Py.split (Py.join l) = l.
Proof.
  induction 1 as [|x l Hx Hl IH]; [reflexivity|].
  destruct l as [|y l]; [now apply split_single_token|].
  rewrite join_cons_cons. cbn [String.append].
  rewrite (@split_token_then_space x " " (Py.join (y :: l)) Hx space_is_space).
  now rewrite IH.
Qed.

Lemma clean_join_split (s : string) : _clean s = Py.join (Py.split s).
Proof. unfold _clean. rewrite sub_spaces_squeeze. apply strip_squeeze. Qed.

Lemma split_clean (s : string) : Py.split (_clean s) = Py.split s.
Proof. rewrite clean_join_split. apply split_join, split_tokens. Qed.

Lemma clean_idem (s : string) : _clean (_clean s) = _clean s.
Proof.
  now rewrite (clean_join_split (_clean s)), split_clean, <- clean_join_split.
Qed.

(** [_clean] is [" ".join(s.split())]: it returns the
    whitespace-delimited tokens of the text joined by single spaces.  So
    it keeps the tokens, and cleaning a cleaned text changes nothing. *)
Theorem clean_joins_the_tokens :
  (forall s : string, _clean s = Py.join (Py.split s))
  /\ (forall s : string, Py.split (_clean s) = Py.split s)
  /\ (forall s : string, _clean (_clean s) = _clean s).
Proof.
  split; [exact clean_join_split|]. split; [exact split_clean|].
  exact clean_idem.
Qed.

(** ** Line shaping *)

Lemma merge_step_clean (line nxt nxt2 : string) :
  _clean line = line ->
  _clean (fst (merge_step line nxt nxt2)) = fst (merge_step line nxt nxt2).
Proof.
  intros Hline. unfold merge_step.
  repeat match goal with
         | |- context [if ?b then _ else _] => destruct b
         | |- context [match ?o with Some _ => _ | None => _ end] =>
             destruct o
         end; cbn [fst]; auto using clean_idem.
Qed.

Lemma merge_scan_clean (lines : list string) :
  forall skip : nat,
    Forall (fun x => _clean x = x) (merge_scan skip lines).
Proof.
  induction lines as [|line lines IH]; intros skip; cbn [merge_scan];
    [constructor|].
  destruct skip as [|skip]; [|apply IH].
  cbv zeta. destruct (Py.is_empty (_clean line)); [apply IH|].
  pose proof (merge_step_clean
                (clean_if_any (nth 0 lines EmptyString))
                (clean_if_any (nth 1 lines EmptyString))
                (clean_idem line)) as Hc.
  destruct (merge_step (_clean line) _ _) as [x consumed].
  constructor; [exact Hc | apply IH].
Qed.

Lemma merge_scan_length (lines : list string) :
  forall skip : nat,
    List.length (merge_scan skip lines) <= List.length lines.
Proof.
  induction lines as [|line lines IH]; intros skip; cbn [merge_scan];
    [simpl; lia|].
  destruct skip as [|skip].
  - cbv zeta. destruct (Py.is_empty (_clean line)).
    + specialize (IH 0). simpl. lia.
    + destruct (merge_step _ _ _) as [x consumed].
      specialize (IH (consumed - 1)). simpl. lia.
  - specialize (IH skip). simpl. lia.
Qed.

Lemma split_embedded_line_shaped (ln : string) :
  Forall shaped_line (split_embedded_line ln).
Proof.
  unfold split_embedded_line. cbv zeta.
  set (s := _clean (Py.strip (Re.sub AO_BEFORE_CIF_RE EmptyString ln))).
  assert (Hs : _clean s = s) by apply clean_idem.
  destruct (Py.is_empty s) eqn:Es; [constructor|].
  assert (Hone : Forall shaped_line [s]).
  { constructor; [|constructor]. split; [|exact Hs].
    unfold nonempty. now rewrite Es. }
  destruct (Re.finditer EMBED_BORROWER_RE s) as [|m ms]; [exact Hone|].
  destruct (filter _ (map fst (m :: ms))) as [|c cs]; [exact Hone|].
  apply Forall_forall. intros x Hx.
  apply filter_In in Hx as [Hx Hne].
  apply in_map_iff in Hx as [ab [<- _]].
  split; [exact Hne | apply clean_idem].
Qed.

(** The line-shaping stages hand over well-formed lines: every line
    that [_split_embedded_borrowers], [_merge_wrapped] or the two
    applied to a page produce is non-empty and already cleaned (cleaning
    it again, as the assembler does, changes nothing); and merging never
    yields more lines than it was given. *)
Theorem shaped_lines_are_clean_and_merging_never_adds_lines :
  (forall lines : list string,
      Forall shaped_line (_split_embedded_borrowers lines))
  /\ (forall lines : list string, Forall shaped_line (_merge_wrapped lines))
  /\ (forall lines : list string,
        List.length (_merge_wrapped lines) <= List.length lines)
  /\ (forall text : string, Forall shaped_line (page_lines text)).
Proof.
  assert (Hmerge : forall lines, Forall shaped_line (_merge_wrapped lines)).
  { intros lines. unfold _merge_wrapped. apply Forall_forall. intros x Hx.
    apply filter_In in Hx as [Hx Hne]. split; [exact Hne|].
    pose proof (merge_scan_clean lines 0) as H.
    rewrite Forall_forall in H. now apply H. }
  split; [|split; [exact Hmerge|split]].
  - intros lines. unfold _split_embedded_borrowers.
    induction lines as [|ln lines IH]; [constructor|].
    cbn [flat_map]. apply Forall_app. split;
      [apply split_embedded_line_shaped | exact IH].
  - intros lines. unfold _merge_wrapped.
    pose proof (merge_scan_length lines 0) as H.
    pose proof (filter_length_le nonempty (merge_scan 0 lines)). lia.
  - intros text. apply Hmerge.
Qed.

(** ** Facility types *)

Lemma squeeze_token_then_space (x r : string) :
  is_token x -> starts_with_space r = false -> r <> EmptyString ->
  squeeze (x ++ String " " r)%string = (x ++ String " " (squeeze r))%string.
Proof.
  intros [Hne Hrun] Hr Hr0. induction x as [|a x IH]; [contradiction|].
  cbn [run String.length] in Hrun.
  assert (Ea : Py.is_space a = false).
  { destruct (Py.is_space a) eqn:E; [|reflexivity].
    unfold not_space in Hrun. rewrite E in Hrun. discriminate Hrun. }
  unfold not_space in Hrun at 1. rewrite Ea in Hrun. cbn [negb] in Hrun.
  cbn [String.append squeeze]. rewrite Ea. f_equal.
  destruct x as [|b x].
  - cbn [String.append squeeze]. rewrite space_is_space.
    destruct r as [|c r]; [contradiction|].
    cbn [starts_with_space] in Hr. now rewrite Hr.
  - apply IH; [discriminate | lia].
Qed.

Lemma squeeze_join (l : list string) :
  Forall is_token l -> squeeze (Py.join l) = Py.join l.
Proof.
  induction 1 as [|x l Hx Hl IH]; [reflexivity|].
  destruct l as [|y l].
  - destruct Hx as [_ Hx]. now apply squeeze_without_space.
  - rewrite join_cons_cons. cbn [String.append].
    inversion Hl as [|? ? Hy _]; subst.
    assert (Hstart : starts_with_space (Py.join (y :: l)) = false
                     /\ Py.join (y :: l) <> EmptyString).
    { destruct Hy as [Hy0 Hy]. destruct y as [|c y]; [contradiction|].
      rewrite join_cons_char. cbn [starts_with_space].
      split; [|discriminate].
      cbn [run] in Hy. destruct (Py.is_space c) eqn:Ec; [|reflexivity].
      unfold not_space in Hy. rewrite Ec in Hy. discriminate Hy. }
    destruct Hstart as [H1 H2].
    now rewrite (squeeze_token_then_space Hx H1 H2), IH.
Qed.

(** Collapsing whitespace in a cleaned text changes nothing. *)
Lemma sub_spaces_clean (s : string) :
  Re.sub SPACES_RE " " (_clean s) = _clean s.
Proof.
  rewrite sub_spaces_squeeze, clean_join_split.
  apply squeeze_join, split_tokens.
Qed.

Lemma normalize_rules_cases (s : string) :
  In (normalize_rules s) PRIORITY_KEYS \/ normalize_rules s = s.
Proof.
  unfold normalize_rules.
  destruct (Py.contains "LETTER OF CREDIT" s || Py.contains "L/C" s
            || Re.found (word_re "LC") s); [left; simpl; tauto|].
  destruct (Py.contains "TRUST RECEIPT" s || Re.found (word_re "TR") s);
    [left; simpl; tauto|].
  destruct (Py.contains "KREDIT MULTI" s || Py.contains "MULTI FASILITAS" s);
    [left; simpl; tauto|].
  destruct (Py.contains "TIME LOAN" s || Re.found (word_re "TL") s);
    [left; simpl; tauto|].
  destruct (Py.contains "KREDIT LOKAL" s || Re.found (word_re "KL") s);
    [left; simpl; tauto|].
  destruct (Py.contains "BANK GARANSI" s || Re.found (word_re "BG") s);
    [left; simpl; tauto|].
  now right.
Qed.

Lemma priority_keys_fixed (k : string) :
  In k PRIORITY_KEYS -> Py.upper k = k /\ _clean k = k.
Proof.
  intros H. unfold PRIORITY_KEYS in H.
  repeat (destruct H as [<-|H]; [split; vm_compute; reflexivity|]).
  destruct H.
Qed.

Lemma normalize_fasilitas_upper (f : string) :
  Py.upper (normalize_fasilitas f) = normalize_fasilitas f.
Proof.
  change (normalize_fasilitas f)
    with (normalize_rules (_clean (Py.upper (_clean f)))).
  destruct (normalize_rules_cases (_clean (Py.upper (_clean f)))) as [H|H].
  - now apply priority_keys_fixed.
  - rewrite H. unfold _clean at 1 3.
    apply upper_fixed_strip, upper_fixed_sub; [reflexivity | apply upper_idem].
Qed.

Lemma normalize_fasilitas_clean (f : string) :
  _clean (normalize_fasilitas f) = normalize_fasilitas f.
Proof.
  change (normalize_fasilitas f)
    with (normalize_rules (_clean (Py.upper (_clean f)))).
  destruct (normalize_rules_cases (_clean (Py.upper (_clean f)))) as [H|H].
  - now apply priority_keys_fixed.
  - rewrite H. apply clean_idem.
Qed.

Lemma normalize_fasilitas_rules (f : string) :
  normalize_fasilitas f = normalize_rules (_clean (Py.upper (_clean f))).
Proof. reflexivity. Qed.

Lemma normalize_rules_idem (s : string) :
  normalize_rules (normalize_rules s) = normalize_rules s.
Proof.
  unfold normalize_rules at 2 3.
  destruct (Py.contains "LETTER OF CREDIT" s || Py.contains "L/C" s
            || Re.found (word_re "LC") s) eqn:E1;
    [vm_compute; reflexivity|].
  destruct (Py.contains "TRUST RECEIPT" s || Re.found (word_re "TR") s) eqn:E2;
    [vm_compute; reflexivity|].
  destruct (Py.contains "KREDIT MULTI" s || Py.contains "MULTI FASILITAS" s)
    eqn:E3; [vm_compute; reflexivity|].
  destruct (Py.contains "TIME LOAN" s || Re.found (word_re "TL") s) eqn:E4;
    [vm_compute; reflexivity|].
  destruct (Py.contains "KREDIT LOKAL" s || Re.found (word_re "KL") s) eqn:E5;
    [vm_compute; reflexivity|].
  destruct (Py.contains "BANK GARANSI" s || Re.found (word_re "BG") s) eqn:E6;
    [vm_compute; reflexivity|].
  unfold normalize_rules. now rewrite E1, E2, E3, E4, E5, E6.
Qed.

Lemma normalize_fasilitas_idem (f : string) :
  normalize_fasilitas (normalize_fasilitas f) = normalize_fasilitas f.
Proof.
  rewrite (normalize_fasilitas_rules (normalize_fasilitas f)).
  rewrite normalize_fasilitas_clean, normalize_fasilitas_upper,
    normalize_fasilitas_clean.
  rewrite (normalize_fasilitas_rules f).
  apply normalize_rules_idem.
Qed.

(** [normalize_fasilitas] is idempotent: a normalised facility type is
    upper-case, cleaned, and normalises to itself. *)
Theorem normalize_fasilitas_idempotent :
  forall f : string,
    normalize_fasilitas (normalize_fasilitas f) = normalize_fasilitas f
    /\ Py.upper (normalize_fasilitas f) = normalize_fasilitas f
    /\ _clean (normalize_fasilitas f) = normalize_fasilitas f.
Proof.
  intros f. split; [apply normalize_fasilitas_idem|].
  split; [apply normalize_fasilitas_upper | apply normalize_fasilitas_clean].
Qed.

Lemma parse_facility_normalized (ln : string) (hint : option string)
      (fac : facility) :
  parse_facility ln hint = Some fac ->
  exists raw, fasilitas fac = normalize_fasilitas raw.
Proof.
  unfold parse_facility.
  destruct (_parse_facility_from_line ln) as [f1|] eqn:E1.
  - intros [= <-]. revert E1. unfold _parse_facility_from_line. cbv zeta.
    destruct (Re.findall ACC_RE _) as [|a more]; [discriminate|].
    destruct (_ <? 2); [discriminate|].
    destruct (Py.index _ _); [|discriminate].
    destruct (find_currency _ _ _); [|discriminate].
    intros [= <-]. simpl. now eexists.
  - unfold _parse_facility_from_line_no_acc. cbv zeta.
    destruct hint as [h|]; [|discriminate].
    destruct (Py.is_empty h); [discriminate|].
    destruct (_ <? 2); [discriminate|].
    destruct (negb _); [discriminate|].
    destruct (Re.found ACC_RE _); [discriminate|].
    destruct (find_currency _ _ _); [|discriminate].
    match goal with
    | |- context [if ?b then None else _] => destruct b
    end; [discriminate|].
    intros [= <-]. simpl. now eexists.
Qed.

Lemma priority_of_normalized (raw : string) :
  is_priority_facility (normalize_fasilitas raw) = true
  <-> In (normalize_fasilitas raw) PRIORITY_KEYS.
Proof.
  split.
  - intros H. destruct (normalize_fasilitas_cases raw) as [Hin|Hno];
      [exact Hin | congruence].
  - apply priority_keys_are_priority.
Qed.

Lemma scan_rows_normalized (debug : bool) (docs : list document) :
  Forall (fun r => exists raw,
              Fasilitas r = normalize_fasilitas raw
              /\ IsPriority r = is_priority_facility (normalize_fasilitas raw))
         (rows (scan_documents debug docs)).
Proof.
  apply (scan_invariant
           (fun st =>
              Forall (fun r => exists raw,
                          Fasilitas r = normalize_fasilitas raw
                          /\ IsPriority r
                             = is_priority_facility (normalize_fasilitas raw))
                     (rows st))).
  - constructor.
  - intros dbg f page_i ln_i st ln Hst. unfold process_line.
    destruct (_is_noise (_clean ln)); [exact Hst|].
    destruct (update_borrower _ _ _) as [nm c].
    destruct (parse_facility _ _) as [fac|] eqn:Ef;
      destruct (nonempty nm && nonempty c); simpl; try exact Hst.
    apply Forall_app. split; [exact Hst|].
    constructor; [|constructor]. simpl.
    destruct (parse_facility_normalized _ _ Ef) as [raw Hraw].
    exists raw. rewrite Hraw, normalize_fasilitas_upper. auto.
Qed.

(** In the output the facility column is in normal form and the flag
    agrees with it: every [Fasilitas] is a fixed point of
    [normalize_fasilitas] (the final upper-casing and whitespace
    collapsing leave it as it was emitted), and [IsPriority] is true
    exactly when [Fasilitas] is one of the six canonical types. *)
Theorem output_facility_types_are_normalized :
  forall docs : list document,
    Forall (fun r =>
              normalize_fasilitas (Fasilitas r) = Fasilitas r
              /\ (IsPriority r = true <-> In (Fasilitas r) PRIORITY_KEYS))
           (parse_pdfs_to_raw docs)
    /\ Forall (fun r => Fasilitas (tidy_row r) = Fasilitas r)
              (rows (scan_documents false docs)).
Proof.
  intros docs.
  pose proof (scan_rows_normalized false docs) as Hrows.
  assert (Htidy : Forall (fun r => Fasilitas (tidy_row r) = Fasilitas r)
                         (rows (scan_documents false docs))).
  { eapply Forall_impl; [|exact Hrows].
    intros r [raw [Hf _]]. simpl. rewrite Hf, normalize_fasilitas_upper.
    rewrite <- (normalize_fasilitas_clean raw). apply sub_spaces_clean. }
  split; [|exact Htidy].
  apply Forall_forall. intros r Hr.
  apply output_row_origin in Hr as [r0 [float_column [Hin ->]]].
  rewrite Forall_forall in Hrows, Htidy.
  destruct (Hrows r0 Hin) as [raw [Hf Hp]].
  change (Fasilitas (tidy_row (frame_row float_column r0)))
    with (Fasilitas (tidy_row r0)).
  change (IsPriority (tidy_row (frame_row float_column r0)))
    with (IsPriority r0).
  rewrite (Htidy r0 Hin), Hp, Hf. split.
  - apply normalize_fasilitas_idem.
  - apply priority_of_normalized.
Qed.

(** ** Amounts *)

Lemma int_of_digits_acc_nonneg (s : string) :
  forall acc : Z, (0 <= acc)%Z -> (0 <= Py.int_of_digits_acc acc s)%Z.
Proof.
  induction s as [|a s IH]; intros acc Hacc; cbn [Py.int_of_digits_acc];
    [exact Hacc|].
  apply IH. unfold Py.digit_val. lia.
Qed.

Lemma replace_char_absent (c : ascii) (s : string) :
  Py.replace_char c EmptyString (Py.replace_char c EmptyString s)
  = Py.replace_char c EmptyString s.
Proof.
  induction s as [|a s IH]; [reflexivity|].
  cbn [Py.replace_char]. destruct (Ascii.eqb a c) eqn:E; cbn [String.append].
  - exact IH.
  - cbn [Py.replace_char]. now rewrite E, IH.
Qed.

Lemma parse_amount_token_spec (tok : string) :
  _parse_amount_token (Some tok)
  = if nonempty (Py.strip (Py.replace_char "," EmptyString tok))
       && (run Py.is_digit (Py.strip (Py.replace_char "," EmptyString tok))
           =? String.length
                (Py.strip (Py.replace_char "," EmptyString tok)))
       && (String.length (Py.strip (Py.replace_char "," EmptyString tok))
           <=? INT_MAX_STR_DIGITS)
    then Some (Py.int_of_digits
                 (Py.strip (Py.replace_char "," EmptyString tok)))
    else None.
Proof.
  unfold _parse_amount_token.
  destruct tok as [|a tok]; [reflexivity|].
  cbn [Py.is_empty].
  set (t := Py.strip (Py.replace_char "," EmptyString (String a tok))).
  unfold nonempty. destruct (Py.is_empty t) eqn:Et; [reflexivity|].
  unfold DIGITS_RE, Re.plus, Re.digit. rewrite fullmatch_class.
  rewrite Nat.ltb_antisym.
  assert (Hlen : (1 <=? String.length t) = true)
    by (destruct t; [discriminate Et | reflexivity]).
  rewrite Hlen. cbn [negb andb].
  destruct (run Py.is_digit t =? String.length t); [|reflexivity].
  cbn [negb andb].
  destruct (String.length t <=? INT_MAX_STR_DIGITS); reflexivity.
Qed.

Lemma parse_amount_token_nonneg (tok : option string) :
  match _parse_amount_token tok with
  | Some n => (0 <= n)%Z
  | None => True
  end.
Proof.
  destruct tok as [tok|]; [|exact I]. rewrite parse_amount_token_spec.
  destruct (_ && _); [|exact I].
  unfold Py.int_of_digits. apply int_of_digits_acc_nonneg. apply Z.le_refl.
Qed.

(** For a token of ASCII characters: [_parse_amount_token] reads it as
    an amount exactly when, once its commas are removed and it is
    stripped, it is a non-empty string of at most 4300 digits (longer
    ones make [int] raise, which the function turns into no amount); the
    amount is then the value of those digits, so it is never negative
    and thousands separators do not matter.  A missing or empty token, a
    sign, a decimal point or a letter gives no amount. *)
Theorem parse_amount_token_reads_digit_strings :
  forall tok : string,
    is_ascii tok = true ->
    (let t := Py.strip (Py.replace_char "," EmptyString tok) in
     _parse_amount_token (Some tok)
     = if nonempty t && (run Py.is_digit t =? String.length t)
          && (String.length t <=? 4300)
       then Some (Py.int_of_digits t) else None)
    /\ match _parse_amount_token (Some tok) with
       | Some n => (0 <= n)%Z
       | None => True
       end
    /\ _parse_amount_token (Some (Py.replace_char "," EmptyString tok))
       = _parse_amount_token (Some tok)
    /\ _parse_amount_token None = None.
Proof.
  intros tok _. split; [|split; [|split]].
  - cbv zeta. change 4300 with INT_MAX_STR_DIGITS.
    apply parse_amount_token_spec.
  - apply parse_amount_token_nonneg.
  - now rewrite !parse_amount_token_spec, replace_char_absent.
  - reflexivity.
Qed.

(** An amount with thousands separators. *)
Lemma parse_amount_token_witness :
  is_ascii "1,250,000" = true
  /\ _parse_amount_token (Some "1,250,000") = Some 1250000%Z.
Proof.
  split; [reflexivity|].
  destruct (parse_amount_token_reads_digit_strings "1,250,000" eq_refl)
    as [H _].
  rewrite H. vm_compute. reflexivity.
Defined.

(* ================================================================== *)
(** * What a match of the matcher means *)
(* ================================================================== *)

Lemma rep_iter_sound (r1 : Re.regex) (lo : nat) (hi : option nat)
      (k : Re.cont) (e : nat) :
  (forall i p s k' e',
      Re.rmatch r1 i p s k' = Some e' ->
      exists i' p' s', matches r1 i p s i' p' s' /\ k' i' p' s' = Some e') ->
  forall (fuel n i : nat) (p : option ascii) (s : string),
    match hi with Some h => n <= h | None => True end ->
    rep_iter (Re.rmatch r1) lo hi k fuel n i p s = Some e ->
    exists m i' p' s',
      iter_matches (matches r1) m i p s i' p' s'
      /\ lo <= n + m
      /\ match hi with Some h => n + m <= h | None => True end
      /\ k i' p' s' = Some e.
Proof.
  intros Hbody.
  assert (Hstop : forall n i p s,
             match hi with Some h => n <= h | None => True end ->
             (if lo <=? n then k i p s else None) = Some e ->
             exists m i' p' s',
               iter_matches (matches r1) m i p s i' p' s'
               /\ lo <= n + m
               /\ match hi with Some h => n + m <= h | None => True end
               /\ k i' p' s' = Some e).
  { intros n i p s Hb H. destruct (lo <=? n) eqn:El; [|discriminate].
    apply Nat.leb_le in El. exists 0, i, p, s. rewrite Nat.add_0_r.
    simpl. auto. }
  induction fuel as [|fuel IH]; intros n i p s Hb H.
  - rewrite rep_iter_0 in H. now apply Hstop.
  - rewrite rep_iter_S in H.
    destruct (Re.may_repeat hi n) eqn:Em; [|now apply Hstop].
    destruct (Re.rmatch r1 i p s _) as [e0|] eqn:Eb; [|now apply Hstop].
    apply Hbody in Eb as [j [q [t [Hm Hk]]]].
    destruct (i <? j); [|discriminate].
    injection H as ->.
    assert (Hb' : match hi with Some h => S n <= h | None => True end).
    { destruct hi as [h|]; [|exact I]. simpl in Em.
      apply Nat.ltb_lt in Em. lia. }
    destruct (IH (S n) j q t Hb' Hk) as [m [i' [p' [s' [Hit [Hlo [Hhi Hke]]]]]]].
    exists (S m), i', p', s'. split; [|split; [lia|split; [|exact Hke]]].
    + simpl. now exists j, q, t.
    + destruct hi as [h|]; [lia | exact I].
Qed.

(** Soundness of the matcher: whenever [Re.rmatch] succeeds, the pattern
    matches up to some cursor at which the continuation succeeds. *)
Lemma rmatch_sound (r : Re.regex) :
  forall i p s k e,
    Re.rmatch r i p s k = Some e ->
    exists i' p' s', matches r i p s i' p' s' /\ k i' p' s' = Some e.
Proof.
  induction r as [|f|r1 IH1 r2 IH2|r1 IH1 r2 IH2|r1 IH1 lo hi| | | |r1 IH1];
    intros i p s k e H.
  - exists i, p, s. simpl. auto.
  - simpl in H. destruct s as [|a s]; [discriminate|].
    destruct (f a) eqn:Ea; [|discriminate].
    exists (S i), (Some a), s. split; [|exact H]. simpl. now exists a.
  - simpl in H. apply IH1 in H as [j [q [t [H1 H]]]].
    apply IH2 in H as [i' [p' [s' [H2 H]]]].
    exists i', p', s'. split; [|exact H]. simpl. now exists j, q, t.
  - simpl in H.
    destruct (Re.rmatch r1 i p s k) as [e1|] eqn:E1.
    + apply IH1 in E1 as [i' [p' [s' [H1 Hk]]]].
      exists i', p', s'. split; [simpl; now left | congruence].
    + apply IH2 in H as [i' [p' [s' [H2 Hk]]]].
      exists i', p', s'. split; [simpl; now right | exact Hk].
  - rewrite rmatch_rep in H.
    assert (Hb : match hi with Some h => 0 <= h | None => True end)
      by (destruct hi; [lia | exact I]).
    destruct (rep_iter_sound r1 lo hi k IH1 _ _ _ _ _ Hb H)
      as [m [i' [p' [s' [Hit [Hlo [Hhi Hk]]]]]]].
    exists i', p', s'. split; [|exact Hk]. simpl. exists m.
    split; [lia|]. split; [exact Hhi | exact Hit].
  - simpl in H. destruct (i =? 0) eqn:E; [|discriminate].
    apply Nat.eqb_eq in E. exists i, p, s. simpl. auto.
  - simpl in H. destruct (Re.at_eol s) eqn:E; [|discriminate].
    exists i, p, s. simpl. auto.
  - simpl in H.
    destruct (xorb (Re.word_before p) (Re.word_after s)) eqn:E;
      [|discriminate].
    exists i, p, s. simpl. auto.
  - simpl in H.
    destruct (Re.rmatch r1 i p s (fun i' _ _ => Some i')) as [e1|] eqn:E1;
      [|discriminate].
    apply IH1 in E1 as [j [q [t [H1 _]]]].
    exists i, p, s. split; [|exact H]. simpl. split; [|auto].
    now exists j, q, t.
Qed.

Lemma match_here_sound (r : Re.regex) (i : nat) (p : option ascii)
      (s : string) (e : nat) :
  Re.match_here r i p s = Some e ->
  exists p' s', matches r i p s e p' s'.
Proof.
  unfold Re.match_here, Re.accept. intros H.
  apply rmatch_sound in H as [i' [p' [s' [Hm [= ->]]]]]. now exists p', s'.
Qed.

(** A repeated character class consumes that many characters of the
    class. *)
Lemma iter_matches_class (f : ascii -> bool) (n : nat) :
  forall i p s i' p' s',
    iter_matches (matches (Re.Chr f)) n i p s i' p' s' ->
    exists w, s = (w ++ s')%string /\ all_in_class f n w /\ i' = i + n.
Proof.
  induction n as [|n IH]; intros i p s i' p' s' H; simpl in H.
  - destruct H as [-> [_ ->]]. exists EmptyString.
    split; [reflexivity|]. split; [now split | lia].
  - destruct H as [j [q [t [[a [-> [Ha [-> ->]]]] H]]]].
    apply IH in H as [w [-> [[Hl Hr] ->]]].
    exists (String a w). split; [reflexivity|]. split; [|lia].
    split; simpl; [now rewrite Hl | now rewrite Ha, Hr].
Qed.

Lemma search_from_sound (r : Re.regex) (s : string) :
  forall (i : nat) (p : option ascii) (a e : nat),
    Re.search_from r i p s = Some (a, e) ->
    exists p',
      i <= a /\ Re.match_here r a p' (Py.drop (a - i) s) = Some e.
Proof.
  induction s as [|c s IH]; intros i p a e H; cbn [Re.search_from] in H.
  - destruct (Re.match_here r i p EmptyString) as [e0|] eqn:E;
      [|discriminate].
    injection H as <- <-. exists p. rewrite Nat.sub_diag. auto.
  - destruct (Re.match_here r i p (String c s)) as [e0|] eqn:E.
    + injection H as <- <-. exists p. rewrite Nat.sub_diag. auto.
    + apply IH in H as [p' [Hle Hm]]. exists p'. split; [lia|].
      replace (a - i) with (S (a - S i)) by lia. exact Hm.
Qed.

Lemma advance_cursor (n : nat) :
  forall (i : nat) (p : option ascii) (s : string)
         (j : nat) (q : option ascii) (t : string),
    Re.advance n i p s = (j, q, t) ->
    i <= j /\ t = Py.drop (j - i) s.
Proof.
  induction n as [|n IH]; intros i p s j q t H; simpl in H.
  - injection H as <- <- <-. rewrite Nat.sub_diag. split; [lia|].
    now destruct s.
  - destruct s as [|c s].
    + injection H as <- <- <-. rewrite Nat.sub_diag. auto.
    + apply IH in H as [Hle ->]. split; [lia|].
      replace (j - i) with (S (j - S i)) by lia. reflexivity.
Qed.

(** Every span reported by [re.finditer] is a match of the pattern at
    its start offset. *)
Lemma spans_from_sound (r : Re.regex) (s0 : string) (fuel : nat) :
  forall (i : nat) (p : option ascii) (s : string),
    s = Py.drop i s0 ->
    forall a e,
      In (a, e) (Re.spans_from fuel r i p s) ->
      exists p', Re.match_here r a p' (Py.drop a s0) = Some e.
Proof.
  induction fuel as [|fuel IH]; intros i p s Hs a e Hin; [destruct Hin|].
  cbn [Re.spans_from] in Hin.
  destruct (Re.search_from r i p s) as [[a0 e0]|] eqn:Es; [|destruct Hin].
  destruct (Re.advance (e0 - i) i p s) as [[j q] t] eqn:Ea.
  apply advance_cursor in Ea as [Hij Ht].
  assert (Htj : t = Py.drop j s0).
  { rewrite Ht, Hs, drop_drop. f_equal. lia. }
  destruct (if a0 <? e0 then (j, q, t) else Re.advance 1 j q t)
    as [[j' q'] t'] eqn:Ea'.
  assert (Ht' : t' = Py.drop j' s0).
  { destruct (a0 <? e0).
    - now injection Ea' as <- <- <-.
    - apply advance_cursor in Ea' as [Hjj ->].
      rewrite Htj, drop_drop. f_equal. lia. }
  destruct Hin as [Hin|Hin].
  - injection Hin as <- <-.
    apply search_from_sound in Es as [p' [Hle Hm]]. exists p'.
    rewrite Hs, drop_drop in Hm.
    replace (i + (a0 - i)) with a0 in Hm by lia. exact Hm.
  - destruct (Py.is_empty t && (e0 <=? a0)); [destruct Hin|].
    exact (IH j' q' t' Ht' a e Hin).
Qed.

Lemma findall_sound (r : Re.regex) (s x : string) :
  In x (Re.findall r s) ->
  exists a e p',
    x = Py.slice a e s
    /\ Re.match_here r a p' (Py.drop a s) = Some e.
Proof.
  unfold Re.findall, Re.finditer. intros H.
  apply in_map_iff in H as [[a e] [<- Hin]].
  assert (Hs : s = Py.drop 0 s) by now destruct s.
  destruct (@spans_from_sound r s (S (String.length s)) 0 None s Hs a e Hin)
    as [p' Hm].
  now exists a, e, p'.
Qed.

Lemma search_sound (r : Re.regex) (s : string) (a e : nat) :
  Re.search r s = Some (a, e) ->
  exists p', Re.match_here r a p' (Py.drop a s) = Some e.
Proof.
  unfold Re.search. intros H.
  apply search_from_sound in H as [p' [_ Hm]]. exists p'.
  now rewrite Nat.sub_0_r in Hm.
Qed.

Lemma take_app_length (w s : string) :
  Py.take (String.length w) (w ++ s)%string = w.
Proof.
  induction w as [|a w IH]; simpl; [now destruct s | now rewrite IH].
Qed.

Lemma drop_app_length (w s : string) :
  Py.drop (String.length w) (w ++ s)%string = s.
Proof. induction w as [|a w IH]; simpl; [now destruct s | exact IH]. Qed.

(** ** Account numbers, identity numbers, branch codes *)

Lemma acc_match_shape (a : nat) (p : option ascii) (t : string) (e : nat) :
  Re.match_here ACC_RE a p t = Some e ->
  exists w t',
    t = (w ++ t')%string /\ all_in_class Py.is_digit 10 w /\ e = a + 10.
Proof.
  intros H. apply match_here_sound in H as [p' [t' H]].
  unfold ACC_RE, Re.seq, Re.times in H. cbn [matches] in H.
  destruct H as [j [q [t1 [[_ [-> [-> ->]]] H]]]].
  destruct H as [j2 [q2 [t2 [[n [Hlo [Hhi Hit]]] [_ [-> [_ ->]]]]]]].
  assert (n = 10) by lia. subst n.
  apply iter_matches_class in Hit as [w [-> [Hw ->]]].
  now exists w, t2.
Qed.

Lemma findall_acc_digits (s x : string) :
  In x (Re.findall ACC_RE s) -> all_in_class Py.is_digit 10 x.
Proof.
  intros H. apply findall_sound in H as [a [e [p' [-> Hm]]]].
  apply acc_match_shape in Hm as [w [t' [Ht [Hw ->]]]].
  unfold Py.slice. rewrite Ht.
  replace (a + 10 - a) with (String.length w) by (destruct Hw; lia).
  now rewrite take_app_length.
Qed.



(** ** The borrower-name guard *)




(** ** Account numbers of the records *)

Lemma parse_facility_acc_digits (ln : string) (hint : option string)
      (fac : facility) :
  match hint with
  | Some h => all_in_class Py.is_digit 10 h
  | None => True
  end ->
  parse_facility ln hint = Some fac ->
  all_in_class Py.is_digit 10 (acc fac).
Proof.
  intros Hhint. unfold parse_facility.
  destruct (_parse_facility_from_line ln) as [f1|] eqn:E1.
  - intros [= <-]. revert E1. unfold _parse_facility_from_line. cbv zeta.
    destruct (Re.findall ACC_RE (_clean ln)) as [|a more] eqn:Ea;
      [discriminate|].
    destruct (_ <? 2); [discriminate|].
    destruct (Py.index _ _); [|discriminate].
    destruct (find_currency _ _ _); [|discriminate].
    intros [= <-]. simpl. apply (findall_acc_digits (_clean ln)).
    rewrite Ea. now left.
  - unfold _parse_facility_from_line_no_acc. cbv zeta.
    destruct hint as [h|]; [|discriminate].
    destruct (Py.is_empty h); [discriminate|].
    destruct (_ <? 2); [discriminate|].
    destruct (negb _); [discriminate|].
    destruct (Re.found ACC_RE _); [discriminate|].
    destruct (find_currency _ _ _); [|discriminate].
    match goal with
    | |- context [if ?b then None else _] => destruct b
    end; [discriminate|].
    intros [= <-]. exact Hhint.
Qed.

Lemma process_line_keeps_account_digits
      (debug : bool) (cabang_code sumber : string) (page_i ln_i : nat)
      (st : state) (ln : string) :
  let Inv := fun st =>
    match last_acc st with
    | Some h => all_in_class Py.is_digit 10 h
    | None => True
    end
    /\ Forall (fun r => all_in_class Py.is_digit 10 (ACC_No r)) (rows st) in
  Inv st -> Inv (process_line debug cabang_code sumber page_i ln_i st ln).
Proof.
  cbv zeta. intros [Hhint Hrows]. unfold process_line.
  destruct (_is_noise (_clean ln)); [auto|].
  destruct (update_borrower _ _ _) as [nm c].
  destruct (parse_facility _ _) as [fac|] eqn:Ef;
    destruct (nonempty nm && nonempty c); simpl; auto.
  pose proof (parse_facility_acc_digits _ _ Hhint Ef) as Hacc.
  split; [exact Hacc|].
  apply Forall_app. split; [exact Hrows|]. now constructor.
Qed.

(** Account numbers are taken over verbatim as ten-digit strings: the
    first account number the parser finds on a line, the hint carried by
    the scan, and the [ACC No] of every record of the output consist of
    exactly ten decimal digits (leading zeros included). *)
Theorem account_numbers_are_ten_digits :
  (forall (s x : string),
      In x (Re.findall ACC_RE s) -> all_in_class Py.is_digit 10 x)
  /\ (forall (debug : bool) (docs : list document),
        match last_acc (scan_documents debug docs) with
        | Some h => all_in_class Py.is_digit 10 h
        | None => True
        end
        /\ Forall (fun r => all_in_class Py.is_digit 10 (ACC_No r))
                  (parse_pdfs_to_raw_debug debug docs)).
Proof.
  split; [exact findall_acc_digits|].
  intros debug docs.
  assert (H : (fun st =>
                 match last_acc st with
                 | Some h => all_in_class Py.is_digit 10 h
                 | None => True
                 end
                 /\ Forall (fun r => all_in_class Py.is_digit 10 (ACC_No r))
                           (rows st))
                (scan_documents debug docs)).
  { apply scan_invariant.
    - split; [exact I | constructor].
    - intros dbg f page_i ln_i st ln.
      apply process_line_keeps_account_digits. }
  destruct H as [Hhint Hrows]. split; [exact Hhint|].
  apply Forall_forall. intros r Hr.
  apply output_row_origin in Hr as [r0 [float_column [Hin ->]]].
  rewrite Forall_forall in Hrows. simpl. now apply Hrows.
Qed.

(** ** Branch codes *)

Lemma string_app_assoc (u v w : string) :
  (u ++ v ++ w)%string = ((u ++ v) ++ w)%string.
Proof. induction u as [|a u IH]; simpl; [reflexivity | now rewrite IH]. Qed.

Lemma string_length_app (u v : string) :
  String.length (u ++ v)%string = String.length u + String.length v.
Proof. induction u as [|a u IH]; simpl; [reflexivity | now rewrite IH]. Qed.

Lemma iter_matches_consumes
      (M : nat -> option ascii -> string ->
           nat -> option ascii -> string -> Prop)
      (HM : forall i p s i' p' s',
          M i p s i' p' s' ->
          exists w, s = (w ++ s')%string /\ i' = i + String.length w)
      (n : nat) :
  forall i p s i' p' s',
    iter_matches M n i p s i' p' s' ->
    exists w, s = (w ++ s')%string /\ i' = i + String.length w.
Proof.
  induction n as [|n IH]; intros i p s i' p' s' H; simpl in H.
  - destruct H as [-> [_ ->]]. exists EmptyString. split; [reflexivity|].
    simpl. lia.
  - destruct H as [j [q [t [H1 H2]]]].
    apply HM in H1 as [w1 [-> ->]]. apply IH in H2 as [w2 [-> ->]].
    exists (w1 ++ w2)%string. split.
    + apply string_app_assoc.
    + rewrite string_length_app. lia.
Qed.

(** A match consumes a prefix of the text and moves the cursor by its
    length. *)
Lemma matches_consumes (r : Re.regex) :
  forall i p s i' p' s',
    matches r i p s i' p' s' ->
    exists w, s = (w ++ s')%string /\ i' = i + String.length w.
Proof.
  assert (Hnil : forall i (s : string),
             exists w, s = (w ++ s)%string /\ i = i + String.length w).
  { intros i s. exists EmptyString. split; [reflexivity | simpl; lia]. }
  induction r as [|f|r1 IH1 r2 IH2|r1 IH1 r2 IH2|r1 IH1 lo hi| | | |r1 IH1];
    intros i p s i' p' s' H; cbn [matches] in H.
  - destruct H as [-> [_ ->]]. apply Hnil.
  - destruct H as [a [-> [_ [-> _]]]]. exists (String a EmptyString).
    split; [reflexivity | simpl; lia].
  - destruct H as [j [q [t [H1 H2]]]].
    apply IH1 in H1 as [w1 [-> ->]]. apply IH2 in H2 as [w2 [-> ->]].
    exists (w1 ++ w2)%string. split.
    + apply string_app_assoc.
    + rewrite string_length_app. lia.
  - destruct H as [H|H]; [now apply IH1 in H | now apply IH2 in H].
  - destruct H as [n [_ [_ H]]].
    now apply (iter_matches_consumes _ IH1) in H.
  - destruct H as [_ [-> [_ ->]]]. apply Hnil.
  - destruct H as [_ [-> [_ ->]]]. apply Hnil.
  - destruct H as [_ [-> [_ ->]]]. apply Hnil.
  - destruct H as [_ [-> [_ ->]]]. apply Hnil.
Qed.

Lemma cabang_match_shape (a : nat) (p : option ascii) (t : string) (e : nat) :
  Re.match_here CABANG_RE a p t = Some e ->
  exists pre w t',
    t = (pre ++ w ++ t')%string
    /\ all_in_class Py.is_upper 3 w
    /\ e = a + String.length pre + 3.
Proof.
  intros H. apply match_here_sound in H as [p' [t' H]].
  unfold CABANG_RE in H. cbn [Re.seq matches] in H.
  destruct H as [j [q [t1 [H1 [j2 [q2 [t2 [H2 H3]]]]]]]].
  apply matches_consumes in H1 as [w1 [-> ->]].
  apply matches_consumes in H2 as [w2 [-> ->]].
  unfold Re.times in H3. cbn [matches] in H3.
  destruct H3 as [n [Hlo [Hhi Hit]]].
  assert (n = 3) by lia. subst n.
  apply iter_matches_class in Hit as [w [-> [Hw ->]]].
  exists (w1 ++ w2)%string, w, t'. split; [|split; [exact Hw|]].
  - apply string_app_assoc.
  - rewrite string_length_app. lia.
Qed.

Lemma cabang_shape (file_name : string) :
  cabang_from_filename file_name = EmptyString
  \/ all_in_class Py.is_upper 3 (cabang_from_filename file_name).
Proof.
  unfold cabang_from_filename.
  destruct (Re.search CABANG_RE (Py.upper file_name)) as [[a e]|] eqn:Es;
    [right | now left].
  apply search_sound in Es as [p' Hm].
  apply cabang_match_shape in Hm as [pre [w [t' [Ht [Hw ->]]]]].
  unfold Py.slice.
  replace (a + String.length pre + 3 - 3) with (a + String.length pre)
    by lia.
  rewrite <- drop_drop, Ht, drop_app_length.
  replace (a + String.length pre + 3 - (a + String.length pre))
    with (String.length w) by (destruct Hw; lia).
  now rewrite take_app_length.
Qed.

(** The branch code is empty or three upper-case letters, whatever the
    case of the file name; so is the [Cabang] of every record of the
    output. *)
Theorem branch_code_is_empty_or_three_capitals :
  (forall file_name : string,
      cabang_from_filename file_name = EmptyString
      \/ all_in_class Py.is_upper 3 (cabang_from_filename file_name))
  /\ (forall file_name : string,
        cabang_from_filename (Py.upper file_name)
        = cabang_from_filename file_name)
  /\ (forall docs : list document,
        Forall (fun r =>
                  Cabang r = EmptyString
                  \/ all_in_class Py.is_upper 3 (Cabang r))
               (parse_pdfs_to_raw docs)).
Proof.
  split; [exact cabang_shape|]. split.
  - intros f. unfold cabang_from_filename. now rewrite upper_idem.
  - intros docs. apply Forall_forall. intros r Hr.
    unfold parse_pdfs_to_raw in Hr.
    apply output_row_origin in Hr as [r0 [float_column [Hin ->]]].
    pose proof (scan_rows_branch false docs) as Hb.
    rewrite Forall_forall in Hb. specialize (Hb _ Hin).
    simpl. rewrite Hb. apply cabang_shape.
Qed.

(** ** The account-owner check of the smoke test *)

Lemma insert_key_In (a x : string) (l : list string) :
  In x (Smoke.insert_key a l) <-> x = a \/ In x l.
Proof.
  induction l as [|y l IH]; simpl; [intuition auto|].
  destruct (str_compare a y) eqn:E; simpl.
  - apply (cmp_eq str_compare_laws) in E. subst y. intuition auto.
  - intuition auto.
  - rewrite IH. intuition auto.
Qed.

Lemma acc_keys_In (df : frame) (a : string) :
  In a (Smoke.acc_keys df) <-> exists r, In r df /\ ACC_No r = a.
Proof.
  unfold Smoke.acc_keys. induction df as [|r df IH]; simpl.
  - split; [intros [] | intros [r [[] _]]].
  - rewrite insert_key_In, IH. split.
    + intros [->|[r0 [Hin <-]]]; [exists r; auto | exists r0; auto].
    + intros [r0 [[<-|Hin] <-]]; [now left | right; now exists r0].
Qed.

Lemma nunique_gt_1 (l : list string) :
  1 < Smoke.nunique l <-> exists x y, In x l /\ In y l /\ x <> y.
Proof.
  unfold Smoke.nunique.
  pose proof (NoDup_nodup string_dec l) as Hnd.
  assert (Hin : forall x, In x (nodup string_dec l) <-> In x l)
    by (intros x; apply nodup_In).
  destruct (nodup string_dec l) as [|x [|y rest]]; simpl.
  - split; [lia|]. intros [x [_ [Hx _]]]. now apply Hin in Hx.
  - split; [lia|]. intros [a [b [Ha [Hb Hab]]]].
    apply Hin in Ha, Hb. simpl in Ha, Hb.
    destruct Ha as [<-|[]], Hb as [<-|[]]. now elim Hab.
  - split; [|lia]. intros _. exists x, y.
    split; [apply Hin; simpl; auto|]. split; [apply Hin; simpl; auto|].
    inversion Hnd as [|? ? Hx _]. intros ->. apply Hx. now left.
Qed.

Lemma multi_owner_In (df : frame) (a : string) (n : nat) :
  In (a, n) (Smoke.multi_owner df) <->
  n = Smoke.nunique
        (map Nama (filter (fun r => String.eqb (ACC_No r) a) df))
  /\ exists r1 r2,
       In r1 df /\ In r2 df /\ ACC_No r1 = a /\ ACC_No r2 = a
       /\ Nama r1 <> Nama r2.
Proof.
  unfold Smoke.multi_owner, Smoke.g.
  rewrite filter_In, in_map_iff. cbn [snd]. rewrite Nat.ltb_lt.
  assert (Hgrp : forall x,
             In x (map Nama
                       (filter (fun r => String.eqb (ACC_No r) a) df))
             <-> exists r, In r df /\ ACC_No r = a /\ Nama r = x).
  { intros x. rewrite in_map_iff. split.
    - intros [r [<- Hr]]. apply filter_In in Hr as [Hr E].
      apply String.eqb_eq in E. now exists r.
    - intros [r [Hr [E <-]]]. exists r. split; [reflexivity|].
      apply filter_In. split; [exact Hr | now apply String.eqb_eq]. }
  split.
  - intros [[a0 [[= -> <-] Hk]] Hn]. split; [reflexivity|].
    apply nunique_gt_1 in Hn as [x [y [Hx [Hy Hxy]]]].
    apply Hgrp in Hx as [r1 [H1 [E1 <-]]].
    apply Hgrp in Hy as [r2 [H2 [E2 <-]]].
    now exists r1, r2.
  - intros [-> [r1 [r2 [H1 [H2 [E1 [E2 Hne]]]]]]]. split.
    + exists a. split; [reflexivity|]. apply acc_keys_In. now exists r1.
    + apply nunique_gt_1. exists (Nama r1), (Nama r2).
      split; [apply Hgrp; now exists r1|].
      split; [apply Hgrp; now exists r2 | exact Hne].
Qed.

(** Check 3 of the smoke test finds no account with several owners
    exactly when the mapping from [ACC No] to [Nama] of the frame is a
    function; every account it reports has more than one distinct owner
    (two rows of the frame carry it with different [Nama]), and every
    such account is reported. *)
Theorem smoke_check_passes_iff_account_has_one_owner :
  forall df : frame,
    (Smoke.multi_owner df = [] <-> acc_to_nama_functional df)
    /\ (forall a n,
          In (a, n) (Smoke.multi_owner df) ->
          1 < n
          /\ exists r1 r2,
               In r1 df /\ In r2 df /\ ACC_No r1 = a /\ ACC_No r2 = a
               /\ Nama r1 <> Nama r2)
    /\ (forall r1 r2,
          In r1 df -> In r2 df -> ACC_No r1 = ACC_No r2 ->
          Nama r1 <> Nama r2 ->
          exists n, In (ACC_No r1, n) (Smoke.multi_owner df)).
Proof.
  intros df. split; [|split].
  - split.
    + intros He r1 r2 H1 H2 E.
      destruct (string_dec (Nama r1) (Nama r2)) as [Heq|Hne]; [exact Heq|].
      exfalso.
      assert (Hin : In (ACC_No r1,
                        Smoke.nunique
                          (map Nama
                               (filter (fun r =>
                                          String.eqb (ACC_No r) (ACC_No r1))
                                       df)))
                       (Smoke.multi_owner df)).
      { apply multi_owner_In. split; [reflexivity|].
        exists r1, r2. auto. }
      rewrite He in Hin. exact Hin.
    + intros Hf. destruct (Smoke.multi_owner df) as [|[a n] rest] eqn:E;
        [reflexivity|].
      assert (Hin : In (a, n) (Smoke.multi_owner df))
        by (rewrite E; now left).
      apply multi_owner_In in Hin
        as [_ [r1 [r2 [H1 [H2 [E1 [E2 Hne]]]]]]].
      elim Hne. apply Hf; congruence.
  - intros a n Hin. pose proof Hin as Hin'.
    apply multi_owner_In in Hin as [_ Hex]. split; [|exact Hex].
    unfold Smoke.multi_owner in Hin'. apply filter_In in Hin' as [_ Hn].
    now apply Nat.ltb_lt in Hn.
  - intros r1 r2 H1 H2 E Hne. eexists. apply multi_owner_In.
    split; [reflexivity|]. exists r1, r2. auto.
Qed.

(** ** Sorting a sorted frame *)

Lemma stable_sort_fixed {A : Type} (key : A -> sort_key) (l : list A) :
  StronglySorted (key_le key) l -> stable_sort key l = l.
Proof.
  induction 1 as [|x l Hs IH Hx]; [reflexivity|].
  cbn [stable_sort fold_right]. fold (stable_sort key l). rewrite IH.
  destruct l as [|y l]; [reflexivity|].
  cbn [insert_by]. inversion Hx as [|? ? Hxy _]; subst.
  unfold key_le in Hxy. now rewrite Hxy.
Qed.

Lemma insert_by_ext {A : Type} (key1 key2 : A -> sort_key)
      (r : A) (l : list A) :
  key1 r = key2 r -> (forall x, In x l -> key1 x = key2 x) ->
  insert_by key1 r l = insert_by key2 r l.
Proof.
  intros Hr. induction l as [|x l IH]; intros Hl; [reflexivity|].
  cbn [insert_by]. rewrite Hr, (Hl x (or_introl eq_refl)).
  rewrite IH; [reflexivity|]. intros y Hy. apply Hl. now right.
Qed.

Lemma stable_sort_ext {A : Type} (key1 key2 : A -> sort_key) (l : list A) :
  (forall x, In x l -> key1 x = key2 x) ->
  stable_sort key1 l = stable_sort key2 l.
Proof.
  induction l as [|x l IH]; intros Hl; [reflexivity|].
  cbn [stable_sort fold_right].
  fold (stable_sort key1 l). fold (stable_sort key2 l).
  rewrite <- IH by (intros y Hy; apply Hl; now right).
  apply insert_by_ext; [apply Hl; now left|].
  intros y Hy. apply Hl. right.
  now apply (Permutation_in _ (stable_sort_perm key1 l)).
Qed.

(** The least date of a column does not depend on the order of its
    rows. *)
Lemma fold_min_date_perm (l1 l2 : list (option date)) :
  Permutation l1 l2 ->
  fold_right min_date None l1 = fold_right min_date None l2.
Proof.
  intros HP.
  destruct (fold_min_date l1) as [Hn1 Hs1].
  destruct (fold_min_date l2) as [Hn2 Hs2].
  destruct (fold_right min_date None l1) as [d1|] eqn:E1;
    destruct (fold_right min_date None l2) as [d2|] eqn:E2.
  - destruct (Hs1 d1 eq_refl) as [Hin1 Hmin1].
    destruct (Hs2 d2 eq_refl) as [Hin2 Hmin2].
    pose proof (Hmin1 d2 (Permutation_in _ (Permutation_sym HP) Hin2)) as H12.
    pose proof (Hmin2 d1 (Permutation_in _ HP Hin1)) as H21.
    rewrite (cmp_opp date_compare_laws d1 d2) in H21.
    destruct (date_compare d1 d2) eqn:E; simpl in H21;
      try (now elim H12); try (now elim H21).
    apply (cmp_eq date_compare_laws) in E. now subst.
  - destruct (Hs1 d1 eq_refl) as [Hin1 _].
    destruct Hn2 as [Hn2 _].
    specialize (Hn2 eq_refl _ (Permutation_in _ HP Hin1)). discriminate Hn2.
  - destruct (Hs2 d2 eq_refl) as [Hin2 _].
    destruct Hn1 as [Hn1 _].
    specialize (Hn1 eq_refl _ (Permutation_in _ (Permutation_sym HP) Hin2)).
    discriminate Hn1.
  - reflexivity.
Qed.

Lemma filter_perm {A : Type} (f : A -> bool) (l1 l2 : list A) :
  Permutation l1 l2 -> Permutation (filter f l1) (filter f l2).
Proof.
  induction 1 as [|x l1 l2 HP IH|x y l|l1 l2 l3 H1 IH1 H2 IH2]; simpl.
  - constructor.
  - destruct (f x); [now constructor | exact IH].
  - destruct (f x), (f y); try reflexivity. apply perm_swap.
  - now transitivity (filter f l2).
Qed.

Lemma Debitur_Earliest_perm (df1 df2 : frame) (r : row) :
  Permutation df1 df2 -> In r df1 ->
  Debitur_Earliest df1 r = Debitur_Earliest df2 r.
Proof.
  intros HP Hr.
  rewrite (Debitur_Earliest_in df1 r Hr),
    (Debitur_Earliest_in df2 r (Permutation_in _ HP Hr)).
  apply fold_min_date_perm. apply Permutation_map.
  unfold group. now apply filter_perm.
Qed.

Lemma sort_block_style_fixed (df : frame) :
  StronglySorted (row_le df) df -> _sort_block_style df = df.
Proof. apply stable_sort_fixed. Qed.

Lemma sort_block_style_idem (df : frame) :
  _sort_block_style (_sort_block_style df) = _sort_block_style df.
Proof.
  unfold _sort_block_style at 1.
  pose proof (stable_sort_perm (sort_key_of df) df) as HP.
  fold (_sort_block_style df) in HP.
  rewrite (stable_sort_ext (sort_key_of (_sort_block_style df))
             (sort_key_of df)).
  - apply stable_sort_fixed.
    apply (stable_sort_sorted (sort_key_of df) df).
  - intros r Hr. unfold sort_key_of, block_key_of.
    now rewrite (Debitur_Earliest_perm r HP Hr).
Qed.

(** Sorting is idempotent: a frame that is already in block order comes
    back unchanged, so sorting the output of [_sort_block_style] again
    changes nothing; and the earliest maturity date attached to a row
    does not depend on the order of the rows of the frame. *)
Theorem sort_block_style_idempotent :
  (forall df : frame,
      _sort_block_style (_sort_block_style df) = _sort_block_style df)
  /\ (forall df : frame,
        StronglySorted (row_le df) df -> _sort_block_style df = df)
  /\ (forall (df1 df2 : frame) (r : row),
        Permutation df1 df2 -> In r df1 ->
        Debitur_Earliest df1 r = Debitur_Earliest df2 r).
Proof.
  split; [exact sort_block_style_idem|].
  split; [exact sort_block_style_fixed|].
  intros df1 df2 r. apply Debitur_Earliest_perm.
Qed.

(** ** The two views of the workbook *)

Lemma filter_none {A : Type} (p : A -> bool) (l : list A) :
  (forall x, In x l -> p x = false) -> filter p l = [].
Proof.
  induction l as [|x l IH]; simpl; intros H; [reflexivity|].
  rewrite (H x (or_introl eq_refl)). apply IH.
  intros y Hy. apply H. now right.
Qed.

Lemma split_all_priority (d : frame) :
  (forall r, In r d -> IsPriority r = true) -> _split_priority d = (d, []).
Proof.
  intros H. rewrite (surjective_pairing (_split_priority d)).
  rewrite split_priority_pri, split_priority_non. f_equal.
  - now apply filter_all.
  - apply filter_none. intros r Hr.
    assert (E : existsb IsPriority (group d (Nama r)) = true)
      by (apply group_any_priority; exists r; auto).
    now rewrite E.
Qed.

Lemma split_no_priority (d : frame) :
  (forall r, In r d -> IsPriority r = false) -> _split_priority d = ([], d).
Proof.
  intros H. rewrite (surjective_pairing (_split_priority d)).
  rewrite split_priority_pri, split_priority_non. f_equal.
  - now apply filter_none.
  - apply filter_all. intros r Hr.
    destruct (existsb IsPriority (group d (Nama r))) eqn:E; [|reflexivity].
    apply group_any_priority in E as [r' [Hin [_ Hp]]].
    rewrite (H r' Hin) in Hp. discriminate Hp.
Qed.

Lemma non_rows_borrower_unflagged (df : frame) (r : row) :
  In r (snd (_split_priority df)) ->
  In r df
  /\ forall r', In r' df -> Nama r' = Nama r -> IsPriority r' = false.
Proof.
  rewrite split_priority_non. intros Hr.
  apply filter_In in Hr as [Hin Hno]. split; [exact Hin|].
  intros r' Hin' Hn. destruct (IsPriority r') eqn:Hp; [|reflexivity].
  assert (H : existsb IsPriority (group df (Nama r)) = true)
    by (apply group_any_priority; now exists r').
  rewrite H in Hno. discriminate Hno.
Qed.

Lemma non_group_whole (df : frame) (r : row) :
  In r (snd (_split_priority df)) ->
  group (snd (_split_priority df)) (Nama r) = group df (Nama r).
Proof.
  intros Hr. destruct (non_rows_borrower_unflagged df r Hr) as [_ Hall].
  rewrite split_priority_non. unfold group. rewrite filter_comm.
  apply filter_all. intros x Hx.
  apply (group_In df (Nama r) x) in Hx as [Hin Hn].
  destruct (existsb IsPriority (group df (Nama x))) eqn:E;
    [|fold (group df (Nama x)); now rewrite E].
  apply group_any_priority in E as [r' [Hin' [Hn' Hp']]].
  rewrite (Hall r' Hin') in Hp'; [discriminate Hp' | congruence].
Qed.

Lemma views_split (df : frame) :
  build_outputs_views df
  = (_sort_block_style (fst (_split_priority df)),
     _sort_block_style (snd (_split_priority df))).
Proof.
  unfold build_outputs_views. now destruct (_split_priority df).
Qed.

(** The two views of the workbook are the two parts of the split, each
    rearranged: splitting a view again leaves it whole on its own side.
    The date that orders the blocks is taken within the view: for a
    borrower of the non-priority view it is the least maturity date of
    all its records, for a borrower of the priority view the least
    maturity date of its flagged records only. *)
Theorem views_are_closed_and_block_dates_are_per_view :
  forall df : frame,
    let pri := fst (build_outputs_views df) in
    let non := snd (build_outputs_views df) in
    Permutation pri (filter IsPriority df)
    /\ Permutation non (snd (_split_priority df))
    /\ _split_priority pri = (pri, [])
    /\ _split_priority non = ([], non)
    /\ (forall r, In r pri ->
          Debitur_Earliest pri r
          = fold_right min_date None
              (map Tgl_PMK_PK_Akhir
                   (filter IsPriority (group df (Nama r)))))
    /\ (forall r, In r non ->
          Debitur_Earliest non r = Debitur_Earliest df r).
Proof.
  intros df. cbv zeta. rewrite views_split. cbn [fst snd].
  pose proof (stable_sort_perm
                (sort_key_of (fst (_split_priority df)))
                (fst (_split_priority df))) as HPp.
  pose proof (stable_sort_perm
                (sort_key_of (snd (_split_priority df)))
                (snd (_split_priority df))) as HPn.
  fold (_sort_block_style (fst (_split_priority df))) in HPp.
  fold (_sort_block_style (snd (_split_priority df))) in HPn.
  split; [now rewrite <- split_priority_pri|].
  split; [exact HPn|].
  split; [|split; [|split]].
  - apply split_all_priority. intros r Hr.
    apply (Permutation_in _ HPp) in Hr.
    rewrite split_priority_pri in Hr. now apply filter_In in Hr.
  - apply split_no_priority. intros r Hr.
    apply (Permutation_in _ HPn) in Hr.
    destruct (non_rows_borrower_unflagged df r Hr) as [Hin Hall].
    now apply Hall.
  - intros r Hr.
    rewrite (Debitur_Earliest_perm r HPp Hr).
    apply (Permutation_in _ HPp) in Hr.
    rewrite (Debitur_Earliest_in _ r Hr).
    rewrite split_priority_pri. unfold group. now rewrite filter_comm.
  - intros r Hr.
    rewrite (Debitur_Earliest_perm r HPn Hr).
    apply (Permutation_in _ HPn) in Hr.
    rewrite (Debitur_Earliest_in _ r Hr), (non_group_whole df r Hr).
    destruct (non_rows_borrower_unflagged df r Hr) as [Hin _].
    now rewrite (Debitur_Earliest_in df r Hin).
Qed.

(** ** Splitting keeps the text *)

Lemma non_blank_app (u v : string) :
  non_blank (u ++ v)%string = (non_blank u ++ non_blank v)%string.
Proof.
  induction u as [|a u IH]; simpl; [reflexivity|].
  destruct (Py.is_space a); simpl; now rewrite IH.
Qed.

Lemma non_blank_squeeze (s : string) : non_blank (squeeze s) = non_blank s.
Proof.
  induction s as [|a s IH]; [reflexivity|].
  cbn [squeeze non_blank]. destruct (Py.is_space a) eqn:Ea.
  - destruct s as [|b s]; [reflexivity|].
    destruct (Py.is_space b) eqn:Eb; [exact IH|].
    cbn [non_blank]. rewrite space_is_space. exact IH.
  - cbn [non_blank]. now rewrite Ea, IH.
Qed.

Lemma non_blank_lstrip (s : string) : non_blank (Py.lstrip s) = non_blank s.
Proof.
  induction s as [|a s IH]; [reflexivity|].
  cbn [Py.lstrip non_blank]. destruct (Py.is_space a) eqn:Ea; [exact IH|].
  cbn [non_blank]. now rewrite Ea.
Qed.

Lemma non_blank_rstrip (s : string) : non_blank (Py.rstrip s) = non_blank s.
Proof.
  induction s as [|a s IH]; [reflexivity|].
  cbn [Py.rstrip non_blank]. cbv zeta.
  destruct (Py.is_space a) eqn:Ea; cbn [andb].
  - destruct (Py.rstrip s) as [|b t] eqn:Er; cbn [Py.is_empty].
    + now rewrite <- IH.
    + cbn [non_blank] in IH |- *. now rewrite Ea.
  - cbn [non_blank]. now rewrite Ea, IH.
Qed.

Lemma non_blank_strip (s : string) : non_blank (Py.strip s) = non_blank s.
Proof. unfold Py.strip. now rewrite non_blank_rstrip, non_blank_lstrip. Qed.

Lemma non_blank_clean (s : string) : non_blank (_clean s) = non_blank s.
Proof.
  unfold _clean. now rewrite non_blank_strip, sub_spaces_squeeze,
                   non_blank_squeeze.
Qed.

Lemma take_take_drop (k m : nat) (t : string) :
  (Py.take k t ++ Py.take m (Py.drop k t))%string = Py.take (k + m) t.
Proof.
  revert t. induction k as [|k IH]; intros t.
  - now destruct t.
  - destruct t as [|a t]; [now destruct m|].
    simpl. now rewrite IH.
Qed.

(** Two adjacent slices make one slice; the second may run to the end of
    the text from a point beyond it. *)
Lemma slice_join_end (a b : nat) (s : string) :
  a <= b ->
  (Py.slice a b s ++ Py.slice b (String.length s) s)%string
  = Py.slice a (String.length s) s.
Proof.
  intros Hab. unfold Py.slice.
  replace b with (a + (b - a)) at 3 by lia.
  rewrite <- drop_drop, take_take_drop.
  rewrite !take_all; try reflexivity; rewrite length_drop; lia.
Qed.

Lemma slices_cover (s : string) (l : list nat) :
  forall a,
    Sorted le (a :: l) ->
    fold_right
      (fun ab acc => (Py.slice (fst ab) (snd ab) s ++ acc)%string)
      EmptyString
      (adjacent_pairs (a :: l ++ [String.length s]))
    = Py.slice a (String.length s) s.
Proof.
  induction l as [|b l IH]; intros a Hs.
  - simpl. clear. now induction (Py.slice a (String.length s) s)
      as [|c t IHt]; simpl; [|rewrite IHt].
  - change (adjacent_pairs (a :: (b :: l) ++ [String.length s]))
      with ((a, b) :: adjacent_pairs (b :: l ++ [String.length s])).
    cbn [fold_right fst snd].
    inversion Hs as [|? ? Hs' Hhd]; subst.
    rewrite (IH b Hs'). apply slice_join_end.
    inversion Hhd; subst. assumption.
Qed.

Lemma insert_nat_sorted (x : nat) (l : list nat) :
  Sorted le l -> Sorted le (insert_nat x l).
Proof.
  induction 1 as [|y l Hs IH Hhd]; simpl; [repeat constructor|].
  destruct (x <=? y) eqn:E.
  - apply Nat.leb_le in E. repeat constructor; assumption.
  - apply Nat.leb_gt in E. constructor; [exact IH|].
    destruct l as [|z l]; simpl.
    + constructor. lia.
    + destruct (x <=? z); constructor; [lia|].
      inversion Hhd; subst. assumption.
Qed.

Lemma sorted_nat_sorted (l : list nat) : Sorted le (sorted_nat l).
Proof.
  induction l as [|x l IH]; simpl; [constructor|].
  now apply insert_nat_sorted.
Qed.

Lemma non_blank_text_app (l1 l2 : list string) :
  non_blank_text (l1 ++ l2)
  = (non_blank_text l1 ++ non_blank_text l2)%string.
Proof.
  induction l1 as [|x l1 IH]; simpl; [reflexivity|].
  now rewrite IH, string_app_assoc.
Qed.

Lemma non_blank_text_pieces (s : string) (pairs : list (nat * nat)) :
  non_blank_text
    (filter nonempty
       (map (fun ab => _clean (Py.slice (fst ab) (snd ab) s)) pairs))
  = non_blank
      (fold_right
         (fun ab acc => (Py.slice (fst ab) (snd ab) s ++ acc)%string)
         EmptyString pairs).
Proof.
  induction pairs as [|ab pairs IH]; [reflexivity|].
  cbn [map filter fold_right]. rewrite non_blank_app, <- IH.
  destruct (nonempty (_clean (Py.slice (fst ab) (snd ab) s))) eqn:E.
  - cbn [non_blank_text fold_right]. now rewrite non_blank_clean.
  - rewrite <- (non_blank_clean (Py.slice (fst ab) (snd ab) s)).
    unfold nonempty in E.
    destruct (_clean (Py.slice (fst ab) (snd ab) s)); [reflexivity|].
    discriminate E.
Qed.

Lemma split_embedded_line_text (ln : string) :
  non_blank_text (split_embedded_line ln)
  = non_blank (Re.sub AO_BEFORE_CIF_RE EmptyString ln).
Proof.
  unfold split_embedded_line. cbv zeta.
  set (s := _clean (Py.strip (Re.sub AO_BEFORE_CIF_RE EmptyString ln))).
  assert (Hs : non_blank s
               = non_blank (Re.sub AO_BEFORE_CIF_RE EmptyString ln))
    by (unfold s; now rewrite non_blank_clean, non_blank_strip).
  assert (Hone : non_blank_text [s] = non_blank s).
  { simpl. clear. now induction (non_blank s) as [|c t IHt];
      simpl; [|rewrite IHt]. }
  rewrite <- Hs.
  destruct (Py.is_empty s) eqn:Es.
  - destruct s; [reflexivity | discriminate Es].
  - destruct (Re.finditer EMBED_BORROWER_RE s) as [|m ms]; [exact Hone|].
    destruct (filter (fun a => negb (a =? 0)) (map fst (m :: ms)))
      as [|c cs] eqn:Ec; [exact Hone|].
    rewrite non_blank_text_pieces.
    rewrite (@slices_cover s (sorted_nat (c :: cs)) 0).
    + unfold Py.slice. rewrite Nat.sub_0_r.
      replace (Py.drop 0 s) with s by now destruct s.
      now rewrite take_all.
    + constructor; [apply sorted_nat_sorted|].
      destruct (sorted_nat (c :: cs)); constructor. lia.
Qed.

(** Splitting a line at its embedded borrowers loses nothing: apart
    from the officer name that is removed in front of an identity
    number, the lines that [_split_embedded_borrowers] returns carry the
    non-blank characters of its input, in the same order. *)
Theorem split_embedded_borrowers_keeps_the_text :
  forall lines : list string,
    non_blank_text (_split_embedded_borrowers lines)
    = non_blank_text
        (map (Re.sub AO_BEFORE_CIF_RE EmptyString) lines).
Proof.
  unfold _split_embedded_borrowers.
  induction lines as [|ln lines IH]; [reflexivity|].
  cbn [flat_map map]. rewrite non_blank_text_app, IH.
  cbn [non_blank_text fold_right].
  now rewrite split_embedded_line_text.
Qed.

(** ** What a facility line must hold *)

Lemma strptime_dmy_valid (t : string) (d : date) :
  strptime_dmy t = Some d -> valid_date d.
Proof.
  unfold strptime_dmy. cbv zeta.
  destruct (_ && _)%bool eqn:E; [|discriminate].
  intros [= <-]. unfold valid_date. cbn [year month day].
  repeat (apply andb_true_iff in E as [E ?]).
  rewrite ?Z.leb_le in *. lia.
Qed.

Lemma last_date_valid (dates : list string) :
  match last_date dates with Some d => valid_date d | None => True end.
Proof.
  unfold last_date. destruct (rev dates) as [|t ts]; [exact I|].
  destruct (strptime_dmy t) as [d|] eqn:E; [|exact I].
  now apply strptime_dmy_valid in E.
Qed.

Lemma parse_facility_read (ln : string) (hint : option string)
      (fac : facility) :
  parse_facility ln hint = Some fac ->
  (Re.found ACC_RE (_clean ln) = true
   /\ exists i_acc,
        nth_error (Py.split (_clean ln)) i_acc = Some (acc fac)
        /\ (forall k, k < i_acc ->
                      nth_error (Py.split (_clean ln)) k <> Some (acc fac))
        /\ facility_read_from (_clean ln) (i_acc + 1) fac)
  \/ (Re.found ACC_RE (_clean ln) = false
      /\ facility_read_from (_clean ln) 0 fac).
Proof.
  unfold parse_facility.
  destruct (_parse_facility_from_line ln) as [f1|] eqn:E1.
  - intros [= <-]. left. revert E1.
    unfold _parse_facility_from_line. cbv zeta.
    destruct (Re.findall ACC_RE _) as [|a more] eqn:Ea; [discriminate|].
    destruct (_ <? 2) eqn:Ed; [discriminate|].
    destruct (Py.index _ _) as [i_acc|] eqn:Ei; [|discriminate].
    destruct (find_currency _ _ _) as [k|] eqn:Ek; [|discriminate].
    intros [= <-]. split; [exact (findall_found _ _ Ea)|].
    exists i_acc. cbn [acc].
    apply index_first in Ei as [Hn Hfirst].
    split; [exact Hn|]. split; [exact Hfirst|].
    apply Nat.ltb_ge in Ed.
    apply find_currency_spec in Ek as [_ [Hfk [c [Hc [Hin Hnone]]]]].
    rewrite Nat.sub_0_r in Hc.
    split; [exact Ed|]. split; [reflexivity|].
    exists k, c. split; [exact Hfk|]. split; [exact Hc|].
    split; [exact Hin|]. split; [|reflexivity].
    intros i c' Hi Hnth. apply (Hnone i c'); [lia | lia |].
    now rewrite Nat.sub_0_r.
  - unfold _parse_facility_from_line_no_acc. cbv zeta.
    destruct hint as [h|]; [|discriminate].
    destruct (Py.is_empty h); [discriminate|].
    destruct (_ <? 2) eqn:Ed; [discriminate|].
    destruct (negb _); [discriminate|].
    destruct (Re.found ACC_RE _) eqn:Ef; [discriminate|].
    destruct (find_currency _ _ _) as [k|] eqn:Ek; [|discriminate].
    match goal with
    | |- context [if ?b then None else _] => destruct b
    end; [discriminate|].
    intros [= <-]. right. split; [reflexivity|].
    apply Nat.ltb_ge in Ed.
    apply find_currency_spec in Ek as [_ [Hfk [c [Hc [Hin Hnone]]]]].
    rewrite Nat.sub_0_r in Hc.
    split; [exact Ed|]. split; [reflexivity|].
    exists k, c. split; [exact Hfk|]. split; [exact Hc|].
    split; [exact Hin|]. split; [|reflexivity].
    intros i c' Hi Hnth. apply (Hnone i c'); [lia | lia |].
    now rewrite Nat.sub_0_r.
Qed.

Lemma facility_read_ok (s : string) (from : nat) (fac : facility) :
  facility_read_from s from fac ->
  amount_and_date_ok (plafond fac) (dt_akhir fac).
Proof.
  intros [_ [Hd [j [c [_ [_ [_ [_ Hp]]]]]]]]. split.
  - rewrite Hp. apply parse_amount_token_nonneg.
  - rewrite Hd. apply last_date_valid.
Qed.

Lemma parse_facility_ok (ln : string) (hint : option string)
      (fac : facility) :
  parse_facility ln hint = Some fac ->
  amount_and_date_ok (plafond fac) (dt_akhir fac).
Proof.
  intros H.
  destruct (parse_facility_read _ _ H) as [[_ [i [_ [_ Hr]]]]|[_ Hr]];
    exact (facility_read_ok Hr).
Qed.

Lemma scan_rows_amount_and_date (debug : bool) (docs : list document) :
  Forall (fun r => amount_and_date_ok (Plafond r) (Tgl_PMK_PK_Akhir r))
         (rows (scan_documents debug docs)).
Proof.
  apply (scan_invariant
           (fun st =>
              Forall (fun r =>
                        amount_and_date_ok (Plafond r) (Tgl_PMK_PK_Akhir r))
                     (rows st))).
  - constructor.
  - intros dbg f page_i ln_i st ln Hst. unfold process_line.
    destruct (_is_noise (_clean ln)); [exact Hst|].
    destruct (update_borrower _ _ _) as [nm c].
    destruct (parse_facility _ _) as [fac|] eqn:Ef;
      destruct (nonempty nm && nonempty c); simpl; try exact Hst.
    apply Forall_app. split; [exact Hst|].
    constructor; [|constructor]. simpl.
    exact (parse_facility_ok _ _ Ef).
Qed.

Lemma float64_of_Z_nonneg (n : Z) : (0 <= n -> 0 <= float64_of_Z n)%Z.
Proof.
  intros Hn. unfold float64_of_Z.
  destruct (n <? 2 ^ 53)%Z; [exact Hn|]. cbv zeta.
  apply Z.shiftl_nonneg.
  assert (Hq : (0 <= Z.shiftr n (Z.log2 n - 52))%Z)
    by now apply Z.shiftr_nonneg.
  destruct (_ || _); lia.
Qed.

Lemma float64_of_Z_exact (n : Z) : (n < 2 ^ 53 -> float64_of_Z n = n)%Z.
Proof.
  intros Hn. unfold float64_of_Z.
  destruct (Z.ltb_spec n (2 ^ 53)); [reflexivity | lia].
Qed.

Lemma frame_row_amount_and_date (float_column : bool) (r : row) :
  amount_and_date_ok (Plafond r) (Tgl_PMK_PK_Akhir r) ->
  amount_and_date_ok (Plafond (tidy_row (frame_row float_column r)))
                     (Tgl_PMK_PK_Akhir (tidy_row (frame_row float_column r))).
Proof.
  intros [Hp Hd]. split; [|exact Hd]. cbn [tidy_row frame_row Plafond].
  destruct float_column; [|exact Hp].
  destruct (Plafond r) as [n|]; [|exact I]. cbn [option_map].
  now apply float64_of_Z_nonneg.
Qed.

(** A facility is read only from a line that holds two dates or more
    and a currency token.  The maturity date is read from the last date
    of the line.  The ceiling is read from the token after the first
    currency token of the line; when the line prints an account number,
    after the first currency token that follows the first token equal
    to that account number.  A line with fewer than two dates, or
    without currency token, gives no facility.  A ceiling that is read
    is never negative and a maturity date that is read is a date of the
    calendar; so it is for every record of the output. *)
Theorem facility_needs_two_dates_and_a_currency :
  (forall (line : string) (hint : option string),
      match parse_facility line hint with
      | Some fac =>
          ((Re.found ACC_RE (_clean line) = true
            /\ exists i_acc,
                 nth_error (Py.split (_clean line)) i_acc = Some (acc fac)
                 /\ (forall k, k < i_acc ->
                               nth_error (Py.split (_clean line)) k
                               <> Some (acc fac))
                 /\ facility_read_from (_clean line) (i_acc + 1) fac)
           \/ (Re.found ACC_RE (_clean line) = false
               /\ facility_read_from (_clean line) 0 fac))
          /\ amount_and_date_ok (plafond fac) (dt_akhir fac)
      | None => True
      end)
  /\ (forall (line : string) (hint : option string),
        List.length (Re.findall DATE_RE (_clean line)) < 2
        \/ (forall c, In c CURRENCIES -> ~ In c (Py.split (_clean line))) ->
        parse_facility line hint = None)
  /\ (forall docs : list document,
        Forall (fun r => amount_and_date_ok (Plafond r) (Tgl_PMK_PK_Akhir r))
               (parse_pdfs_to_raw docs)).
Proof.
  split; [|split].
  - intros line hint.
    destruct (parse_facility line hint) as [fac|] eqn:E; [|exact I].
    split; [exact (parse_facility_read _ _ E)
           | exact (parse_facility_ok _ _ E)].
  - intros line hint H.
    destruct (parse_facility line hint) as [fac|] eqn:E; [|reflexivity].
    exfalso.
    assert (Hread : exists from, facility_read_from (_clean line) from fac).
    { destruct (parse_facility_read _ _ E) as [[_ [i [_ [_ Hr]]]]|[_ Hr]];
        eexists; exact Hr. }
    destruct Hread as [from [Hd [_ [j [c [_ [Hn [Hc _]]]]]]]].
    destruct H as [H|H]; [lia|].
    apply (H c Hc). now apply nth_error_In in Hn.
  - intros docs. apply Forall_forall. intros r Hr.
    unfold parse_pdfs_to_raw in Hr.
    apply output_row_origin in Hr as [r0 [float_column [Hin ->]]].
    pose proof (scan_rows_amount_and_date false docs) as H.
    rewrite Forall_forall in H.
    apply frame_row_amount_and_date. exact (H _ Hin).
Qed.

(** ** The tokens of a borrower name *)

Lemma search_from_class (f : ascii -> bool) (s : string) :
  forall (i : nat) (p : option ascii),
    Re.search_from (Re.Chr f) i p s
    = if run (fun a => negb (f a)) s =? String.length s then None
      else Some (i + run (fun a => negb (f a)) s,
                 S (i + run (fun a => negb (f a)) s)).
Proof.
  induction s as [|a s IH]; intros i p; [reflexivity|].
  cbn [Re.search_from Re.match_here Re.rmatch run String.length].
  destruct (f a) eqn:Ea; cbn [negb].
  - unfold Re.accept. cbn. now rewrite Nat.add_0_r.
  - rewrite IH.
    change (S (run (fun a0 => negb (f a0)) s) =? S (String.length s))
      with (run (fun a0 => negb (f a0)) s =? String.length s).
    destruct (_ =? _); [reflexivity|]. f_equal. f_equal; lia.
Qed.

Lemma without_class_skip (f : ascii -> bool) (s : string) :
  run (fun a => negb (f a)) s < String.length s ->
  without_class f s
  = (Py.take (run (fun a => negb (f a)) s) s
     ++ without_class f (Py.drop (S (run (fun a => negb (f a)) s)) s))%string.
Proof.
  induction s as [|a s IH]; cbn [run String.length]; [lia|].
  cbn [without_class]. destruct (f a) eqn:Ea; cbn [negb].
  - intros _. reflexivity.
  - intros H. rewrite (IH ltac:(lia)) at 1. reflexivity.
Qed.

Lemma without_class_none (f : ascii -> bool) (s : string) :
  run (fun a => negb (f a)) s = String.length s -> without_class f s = s.
Proof.
  induction s as [|a s IH]; [reflexivity|].
  cbn [run String.length without_class]. destruct (f a); cbn [negb]; [lia|].
  intros H. rewrite IH; [reflexivity | lia].
Qed.

Lemma sub_spans_class (f : ascii -> bool) (fuel : nat) :
  forall (s0 : string) (i : nat) (p : option ascii) (s : string),
    s = Py.drop i s0 ->
    String.length s < fuel ->
    Re.sub_spans (Re.spans_from fuel (Re.Chr f) i p s) EmptyString i s0
    = without_class f s.
Proof.
  induction fuel as [|fuel IH]; intros s0 i p s Hs Hlen; [lia|].
  cbn [Re.spans_from]. rewrite search_from_class.
  destruct (run (fun a => negb (f a)) s =? String.length s) eqn:Ek.
  - apply Nat.eqb_eq in Ek. cbn [Re.sub_spans].
    rewrite without_class_none by exact Ek. now symmetry.
  - apply Nat.eqb_neq in Ek.
    pose proof (run_le_length (fun a => negb (f a)) s) as Hk.
    set (k := run (fun a => negb (f a)) s) in *.
    destruct (@advance_drop (S (i + k) - i) i p s ltac:(lia)) as [q Eadv].
    rewrite Eadv.
    assert (Hlt : (i + k <? S (i + k)) = true) by (apply Nat.ltb_lt; lia).
    rewrite Hlt.
    assert (Hle : (S (i + k) <=? i + k) = false) by (apply Nat.leb_gt; lia).
    rewrite Hle, andb_false_r.
    cbn [Re.sub_spans String.append].
    replace (i + (S (i + k) - i)) with (S (i + k)) by lia.
    replace (S (i + k) - i) with (S k) by lia.
    rewrite (IH s0 (S (i + k)) q (Py.drop (S k) s)).
    + unfold Py.slice. rewrite <- Hs.
      replace (i + k - i) with k by lia.
      rewrite (without_class_skip f s) by (fold k; lia). reflexivity.
    + rewrite Hs, drop_drop. f_equal. lia.
    + rewrite length_drop. lia.
Qed.

(** [re.sub] of a character class by the empty string deletes the
    characters of the class. *)
Lemma sub_class_without (f : ascii -> bool) (s : string) :
  Re.sub (Re.Chr f) EmptyString s = without_class f s.
Proof.
  unfold Re.sub, Re.finditer.
  apply sub_spans_class; [now destruct s | lia].
Qed.

Lemma without_class_run (f : ascii -> bool) (s : string) :
  run (fun a => negb (f a)) (without_class f s)
  = String.length (without_class f s).
Proof.
  induction s as [|a s IH]; [reflexivity|].
  cbn [without_class]. destruct (f a) eqn:Ea; [exact IH|].
  cbn [run String.length]. now rewrite Ea, IH.
Qed.

Lemma run_all_implies (f g : ascii -> bool) (t : string) :
  (forall a, f a = true -> g a = true) ->
  run f t = String.length t -> run g t = String.length t.
Proof.
  intros Hfg. induction t as [|a t IH]; [reflexivity|].
  cbn [run String.length]. destruct (f a) eqn:Ea; [|lia].
  rewrite (Hfg a Ea). intros H. rewrite IH; [reflexivity | lia].
Qed.

Lemma name_char_not_space (a : ascii) :
  name_char a = true -> not_space a = true.
Proof.
  destruct a as [[] [] [] [] [] [] [] []]; vm_compute; intros H;
    first [reflexivity | discriminate H].
Qed.

Lemma sub_non_name_chars (t : string) :
  run name_char (Re.sub NON_NAME_CHAR_RE EmptyString t)
  = String.length (Re.sub NON_NAME_CHAR_RE EmptyString t).
Proof.
  unfold NON_NAME_CHAR_RE. rewrite sub_class_without.
  apply (run_all_implies
           (fun a => negb (negb (Py.is_word a || Py.one_of "/&-.'" a)))).
  - intros a H. unfold name_char. now rewrite negb_involutive in H.
  - apply without_class_run.
Qed.

Lemma name_token_is_token (t : string) : name_token t -> is_token t.
Proof.
  intros [Hne [Hrun _]]. split; [exact Hne|].
  exact (run_all_implies name_char not_space t name_char_not_space Hrun).
Qed.

Lemma join_tokens_clean (toks : list string) :
  Forall is_token toks ->
  Py.split (_clean (Py.join toks)) = toks
  /\ _clean (Py.join toks) = Py.join toks.
Proof.
  intros H. rewrite split_clean, (split_join H). split; [reflexivity|].
  now rewrite clean_join_split, (split_join H).
Qed.

Lemma name_of_tokens_well_formed (toks : list string) :
  well_formed_name
    (_clean
       (Py.join
          (_dedup
             (filter (fun t => nonempty t
                               && negb (Py.mem (Py.upper t) NON_NAME_NOISE))
                     (map (Re.sub NON_NAME_CHAR_RE EmptyString) toks))))).
Proof.
  set (kept := _dedup _).
  assert (Hkept : Forall name_token kept).
  { apply Forall_forall. intros t Ht. unfold kept, _dedup in Ht.
    apply _dedup_from_In in Ht as [Ht _].
    apply filter_In in Ht as [Hin Hok].
    apply andb_true_iff in Hok as [Hne Hnoise].
    apply in_map_iff in Hin as [t0 [<- _]].
    split; [|split].
    - intros E. rewrite E in Hne. discriminate Hne.
    - apply sub_non_name_chars.
    - intros Hin. apply mem_In in Hin. rewrite Hin in Hnoise.
      discriminate Hnoise. }
  assert (Htok : Forall is_token kept)
    by (eapply Forall_impl; [|exact Hkept]; apply name_token_is_token).
  destruct (join_tokens_clean Htok) as [Hsplit Hclean].
  unfold well_formed_name. rewrite Hsplit.
  split; [exact Hclean|]. split; [|exact Hkept].
  apply _dedup_from_NoDup.
Qed.

Lemma empty_name_well_formed : well_formed_name EmptyString.
Proof. split; [reflexivity|]. split; constructor. Qed.

Lemma derive_name_well_formed (line : string) :
  well_formed_name (fst (_derive_name_and_cif line)).
Proof.
  unfold _derive_name_and_cif.
  destruct (Re.search CIF_RE _) as [[cif_start cif_end]|];
    [|apply empty_name_well_formed].
  cbv zeta.
  destruct (Py.startswith "-" _); [apply empty_name_well_formed|].
  match goal with
  | |- context [if _looks_bad_name ?n then _ else _] =>
      destruct (_looks_bad_name n)
  end; [apply empty_name_well_formed|].
  cbn [fst]. apply name_of_tokens_well_formed.
Qed.

(** The final clean-up of [Nama] removes a dash at the very beginning
    and nothing else: a text that begins with another character, not
    whitespace, is left as it is. *)
Lemma sub_nama_dash_id (a : ascii) (rest : string) :
  Py.is_space a = false -> a <> "-"%char ->
  Re.sub NAMA_DASH_RE EmptyString (String a rest) = String a rest.
Proof.
  intros Hsp Hdash. unfold Re.sub, Re.finditer.
  cbn [String.length Re.spans_from].
  destruct (Re.search_from NAMA_DASH_RE 0 None (String a rest))
    as [[a0 e]|] eqn:E; [exfalso | reflexivity].
  apply search_from_sound in E as [p' [_ Hm]].
  apply match_here_sound in Hm as [p2 [s2 Hm]].
  unfold NAMA_DASH_RE, Re.star, Re.chr, Re.space in Hm.
  cbn [Re.seq matches] in Hm.
  destruct Hm as [j [q [t [[Ha0 [-> [-> ->]]] Hm]]]].
  subst a0. cbn [Nat.sub Py.drop] in Hm.
  destruct Hm as [j2 [q2 [t2 [[n [_ [_ Hit]]] Hm]]]].
  destruct Hm as [j3 [q3 [t3 [[c [Ht2 [Hc _]]] _]]]].
  apply iter_matches_class in Hit as [w [Hw [[Hlen Hrun] _]]].
  unfold Py.chr_is in Hc. apply Ascii.eqb_eq in Hc. subst c t2.
  destruct w as [|b w].
  - cbn [String.append] in Hw. injection Hw as Ha _. now apply Hdash.
  - cbn [String.append] in Hw. injection Hw as Ha _. subst b.
    cbn [run] in Hrun. rewrite Hsp in Hrun.
    cbn [String.length] in Hlen. lia.
Qed.

Lemma well_formed_name_first_char (name : string) :
  well_formed_name name -> name <> EmptyString ->
  exists a rest, name = String a rest /\ name_char a = true.
Proof.
  intros [Hjoin [_ Htoks]] Hne.
  destruct (Py.split name) as [|t ts] eqn:Es.
  - now elim Hne.
  - apply Forall_inv in Htoks as [Ht [Hrun _]].
    destruct t as [|a t]; [now elim Ht|].
    rewrite join_cons_char in Hjoin. exists a, (Py.join (t :: ts)).
    split; [exact Hjoin|].
    cbn [run] in Hrun. destruct (name_char a); [reflexivity|].
    cbn [String.length] in Hrun. discriminate Hrun.
Qed.

Lemma nama_without_dash (name cif : string) :
  well_formed_name name -> name <> EmptyString ->
  Py.startswith "-" name = false ->
  Re.sub NAMA_DASH_RE EmptyString (nama_full name cif) = nama_full name cif.
Proof.
  intros Hwf Hne Hdash.
  destruct (well_formed_name_first_char Hwf Hne) as [a [rest [-> Ha]]].
  unfold nama_full. cbn [String.append]. apply sub_nama_dash_id.
  - apply name_char_not_space in Ha. unfold not_space in Ha.
    now destruct (Py.is_space a).
  - intros ->. discriminate Hdash.
Qed.

Lemma process_line_keeps_well_formed_names
      (debug : bool) (cabang_code sumber : string) (page_i ln_i : nat)
      (st : state) (ln : string) :
  let Inv := fun st =>
    well_formed_name (current_name st)
    /\ Forall (fun r => exists name cif,
                  well_formed_name name /\ name <> EmptyString
                  /\ Nama r = nama_full name cif)
              (rows st) in
  Inv st -> Inv (process_line debug cabang_code sumber page_i ln_i st ln).
Proof.
  cbv zeta. intros [Hname Hrows]. unfold process_line.
  destruct (_is_noise (_clean ln)); [auto|].
  assert (Hupd : exists nm c,
             update_borrower (_clean ln) (current_name st) (current_cif st)
             = (nm, c)
             /\ well_formed_name nm).
  { destruct (update_borrower_cases (_clean ln) (current_name st)
                (current_cif st)) as [E|[nm [c [E [Hd _]]]]].
    - exists (current_name st), (current_cif st). auto.
    - exists nm, c. split; [exact E|].
      pose proof (derive_name_well_formed (_clean ln)) as H1.
      now rewrite Hd in H1. }
  destruct Hupd as [nm [c [E Hnm]]]. rewrite E.
  destruct (parse_facility _ _) as [fac|];
    destruct (nonempty nm && nonempty c) eqn:Ha; simpl; auto.
  split; [exact Hnm|].
  apply Forall_app. split; [exact Hrows|].
  constructor; [|constructor]. simpl. exists nm, c.
  split; [exact Hnm|]. split; [|reflexivity].
  apply andb_true_iff in Ha as [Ha _]. intros ->. discriminate Ha.
Qed.

(** The name that [_derive_name_and_cif] returns, and the name held by
    the scan, is a list of distinct name tokens separated by single
    spaces: no token occurs twice, every token is made of letters,
    digits, underscore and [/&-.'] only, and none is IDR, USD, CNY, LOAN
    or INSTALLMENT in any case.  The [Nama] of a record of the output is
    [name (cif)] for such a name, not empty, after the final removal of
    a dash at its beginning; it is [name (cif)] itself when the name
    does not begin with a dash. *)
Theorem borrower_name_is_distinct_name_tokens :
  (forall line : string, well_formed_name (fst (_derive_name_and_cif line)))
  /\ (forall (debug : bool) (docs : list document),
        well_formed_name (current_name (scan_documents debug docs)))
  /\ (forall docs : list document,
        Forall (fun r =>
                  exists name cif,
                    well_formed_name name
                    /\ name <> EmptyString
                    /\ Nama r
                       = Re.sub NAMA_DASH_RE EmptyString (nama_full name cif)
                    /\ (Py.startswith "-" name = false ->
                        Nama r = nama_full name cif))
               (parse_pdfs_to_raw docs)).
Proof.
  assert (H : forall debug docs,
             (fun st =>
                well_formed_name (current_name st)
                /\ Forall (fun r => exists name cif,
                              well_formed_name name /\ name <> EmptyString
                              /\ Nama r = nama_full name cif)
                          (rows st))
               (scan_documents debug docs)).
  { intros debug docs. apply scan_invariant.
    - split; [apply empty_name_well_formed | constructor].
    - intros dbg f page_i ln_i st ln.
      apply process_line_keeps_well_formed_names. }
  split; [exact derive_name_well_formed|]. split.
  - intros debug docs. exact (proj1 (H debug docs)).
  - intros docs. apply Forall_forall. intros r Hr.
    unfold parse_pdfs_to_raw in Hr.
    apply output_row_origin in Hr as [r0 [float_column [Hin ->]]].
    destruct (H false docs) as [_ Hrows].
    rewrite Forall_forall in Hrows.
    destruct (Hrows _ Hin) as [name [cif [Hn [Hne E]]]].
    exists name, cif. split; [exact Hn|]. split; [exact Hne|].
    cbn [tidy_row frame_row Nama]. rewrite E. split; [reflexivity|].
    intros Hdash. now apply nama_without_dash.
Qed.

(** The removal of the dash can bring out a word that the extraction
    keeps out of names: the token [-IDR] of the name becomes [IDR] in
    the output. *)
Example leading_dash_of_a_name_is_removed :
  current_name (scan_documents false [doc_dash_name]) = "-IDR X1"
  /\ parse_pdfs_to_raw [doc_dash_name]
     = [mkrow "IDR X1 (00018964777)" "1234567890" "KDS" "BANK GARANSI"
              (Some 50000%Z) (Some (mkdate 2024 1 1)) "SME_KDS.PDF" true].
Proof. split; vm_compute; reflexivity. Qed.

(** ** Later files only add records *)

Lemma drop_duplicates_from_app (l l' : list row) (seen : list dedup_key) :
  exists kept,
    drop_duplicates_from seen (l ++ l') = drop_duplicates_from seen l ++ kept
    /\ forall r, In r kept -> In r l'.
Proof.
  induction l' as [|r l' IH] using rev_ind.
  - exists []. rewrite !app_nil_r. split; [reflexivity | intros r []].
  - destruct IH as [kept [E Hk]].
    rewrite app_assoc, drop_duplicates_from_snoc, E.
    eexists. rewrite <- app_assoc. split; [reflexivity|].
    intros x Hx. apply in_app_or in Hx as [Hx|Hx].
    + apply in_or_app. left. now apply Hk.
    + apply in_or_app. right.
      destruct (_ || _); [destruct Hx | exact Hx].
Qed.

Lemma scan_documents_app (debug : bool) (docs more : list document) :
  exists emitted,
    rows (scan_documents debug (docs ++ more))
    = rows (scan_documents debug docs) ++ emitted
    /\ forall r, In r emitted ->
                 exists d, In d more /\ SumberFile r = file_name d.
Proof.
  induction more as [|d more IH] using rev_ind.
  - exists []. rewrite !app_nil_r. split; [reflexivity | intros r []].
  - destruct IH as [e1 [E1 H1]].
    rewrite app_assoc. unfold scan_documents at 1.
    rewrite fold_left_app. cbn [fold_left].
    fold (scan_documents debug (docs ++ more)). unfold process_document.
    destruct (process_pages_appends debug
                (cabang_from_filename (file_name d)) (file_name d)
                (page_texts d) 1 (scan_documents debug (docs ++ more)))
      as [e2 [E2 H2]].
    rewrite E2, E1, <- app_assoc. exists (e1 ++ e2).
    split; [reflexivity|]. intros r Hr.
    apply in_app_or in Hr as [Hr|Hr].
    + destruct (H1 r Hr) as [d0 [Hd0 Hf]]. exists d0.
      split; [apply in_or_app; now left | exact Hf].
    + exists d. split; [apply in_or_app; right; now left | now apply H2].
Qed.

Lemma frame_row_exact (float_column : bool) (r : row) :
  amount_is_exact r -> frame_row float_column r = r.
Proof.
  unfold amount_is_exact, frame_row. destruct r as [n a c f p d sf pr].
  cbn. intros H. destruct float_column; [|reflexivity].
  destruct p as [x|]; [|reflexivity]. cbn [option_map].
  now rewrite float64_of_Z_exact.
Qed.

Lemma DataFrame_exact (rs : list row) :
  Forall amount_is_exact rs -> DataFrame rs = rs.
Proof.
  unfold DataFrame. generalize (amount_missing rs).
  intros b H. induction H as [|r rs Hr _ IH]; [reflexivity|].
  cbn [map]. now rewrite (@frame_row_exact b r Hr), IH.
Qed.

(** While the amounts are below [2^53], the result for a list of files
    is not changed by the files that follow: the frame returned for the
    longer list starts with the frame returned for the shorter one, and
    the records after it come from the added files.  No file gives the
    empty frame, and a file without pages adds nothing. *)
Theorem later_files_only_add_records :
  (forall (docs more : list document),
      Forall amount_is_exact (rows (scan_documents false (docs ++ more))) ->
      exists added,
        parse_pdfs_to_raw (docs ++ more) = parse_pdfs_to_raw docs ++ added
        /\ forall r, In r added ->
                     exists d, In d more /\ SumberFile r = file_name d)
  /\ parse_pdfs_to_raw [] = []
  /\ (forall (docs : list document) (name : string),
        parse_pdfs_to_raw (docs ++ [mkdoc name []]) = parse_pdfs_to_raw docs).
Proof.
  split; [|split; [reflexivity|]].
  - intros docs more Hsmall.
    unfold parse_pdfs_to_raw, parse_pdfs_to_raw_debug.
    destruct (scan_documents_app false docs more) as [emitted [E Hfile]].
    rewrite (@DataFrame_exact _ Hsmall).
    rewrite E in Hsmall. apply Forall_app in Hsmall as [Hdocs _].
    rewrite (@DataFrame_exact _ Hdocs), E, map_app. unfold drop_duplicates.
    destruct (drop_duplicates_from_app
                (map tidy_row (rows (scan_documents false docs)))
                (map tidy_row emitted) []) as [kept [Ek Hk]].
    exists kept. split; [exact Ek|].
    intros r Hr. apply Hk in Hr. apply in_map_iff in Hr as [r0 [<- Hr0]].
    destruct (Hfile r0 Hr0) as [d [Hd Hf]]. now exists d.
  - intros docs name. unfold parse_pdfs_to_raw, parse_pdfs_to_raw_debug.
    unfold scan_documents. now rewrite fold_left_app.
Qed.

(** Two files with amounts in the exact range: the frame of the first
    file is the beginning of the frame of both. *)
Lemma later_files_witness :
  Forall amount_is_exact (rows (scan_documents false ([doc_kds] ++ [doc_smg])))
  /\ exists added,
       parse_pdfs_to_raw ([doc_kds] ++ [doc_smg])
       = parse_pdfs_to_raw [doc_kds] ++ added
       /\ forall r, In r added ->
                    exists d, In d [doc_smg] /\ SumberFile r = file_name d.
Proof.
  assert (H : Forall amount_is_exact
                (rows (scan_documents false ([doc_kds] ++ [doc_smg])))).
  { apply Forall_forall. intros r Hr. vm_compute in Hr.
    destruct Hr as [<-|[<-|[]]]; reflexivity. }
  split; [exact H|].
  exact (proj1 later_files_only_add_records [doc_kds] [doc_smg] H).
Defined.

(** Above [2^53] the amounts are compared as doubles once a record
    without amount has turned the column to [float64]: the second file
    makes the two records of the first one equal on the five columns,
    and the second of them is dropped. *)
Example missing_amount_makes_large_amounts_collide :
  parse_pdfs_to_raw [doc_large_amounts]
  = [mkrow "UTOMO (00018964777)" "1234567890" "KDS" "BANK GARANSI"
           (Some 9007199254740992%Z) (Some (mkdate 2024 1 1))
           "SME_KDS.PDF" true;
     mkrow "UTOMO (00018964777)" "1234567890" "KDS" "BANK GARANSI"
           (Some 9007199254740993%Z) (Some (mkdate 2024 1 1))
           "SME_KDS.PDF" true]
  /\ parse_pdfs_to_raw [doc_large_amounts; doc_without_amount]
     = [mkrow "UTOMO (00018964777)" "1234567890" "KDS" "BANK GARANSI"
              (Some 9007199254740992%Z) (Some (mkdate 2024 1 1))
              "SME_KDS.PDF" true;
        mkrow "UTOMO (00018964777)" "1234567891" "SMG" "TIME LOAN"
              None (Some (mkdate 2025 1 1)) "SME_SMG.PDF" true].
Proof. split; vm_compute; reflexivity. Qed.

(** ** Report headers *)

Lemma is_space_upper_char (a : ascii) :
  Py.is_space (Py.upper_char a) = Py.is_space a.
Proof. destruct a as [[] [] [] [] [] [] [] []]; reflexivity. Qed.

Lemma upper_lstrip (s : string) :
  Py.upper (Py.lstrip s) = Py.lstrip (Py.upper s).
Proof.
  induction s as [|a s IH]; [reflexivity|].
  cbn [Py.lstrip Py.upper]. rewrite is_space_upper_char.
  destruct (Py.is_space a); [exact IH | reflexivity].
Qed.

Lemma is_empty_upper (s : string) :
  Py.is_empty (Py.upper s) = Py.is_empty s.
Proof. now destruct s. Qed.

Lemma upper_rstrip (s : string) :
  Py.upper (Py.rstrip s) = Py.rstrip (Py.upper s).
Proof.
  induction s as [|a s IH]; [reflexivity|].
  cbn [Py.rstrip Py.upper]. cbv zeta.
  rewrite is_space_upper_char, <- IH, is_empty_upper.
  destruct (Py.is_space a && Py.is_empty (Py.rstrip s)); reflexivity.
Qed.

Lemma upper_strip (s : string) :
  Py.upper (Py.strip s) = Py.strip (Py.upper s).
Proof. unfold Py.strip. now rewrite upper_rstrip, upper_lstrip. Qed.

Lemma is_noise_upper (line : string) :
  _is_noise (Py.upper line) = _is_noise line.
Proof.
  unfold _is_noise. rewrite is_empty_upper. cbv zeta.
  now rewrite <- upper_strip, upper_idem.
Qed.

(** The test for report headers looks at the line upper-cased: a line
    and its upper-case form are both noise or both data.  The empty
    line is noise, a line of whitespace only is not. *)
Theorem noise_test_ignores_case :
  (forall line : string, _is_noise (Py.upper line) = _is_noise line)
  /\ _is_noise EmptyString = true
  /\ (forall line : string,
        line <> EmptyString -> Py.strip line = EmptyString ->
        _is_noise line = false).
Proof.
  split; [exact is_noise_upper|]. split; [reflexivity|].
  intros line Hne Hs. unfold _is_noise.
  destruct line as [|a line]; [now elim Hne|].
  cbn [Py.is_empty]. cbv zeta. rewrite Hs. reflexivity.
Qed.
